(** * life_quest_backend: authentication, sessions and the identity lock

    A shallow embedding of the authentication core of the backend:
    [app/core/security.py], [app/core/oauth.py],
    [app/repositories/user_repo.py], [app/repositories/profile_repo.py],
    [app/services/auth_service.py], [app/services/profile_service.py]
    and the authenticated-user dependency of [app/api/deps.py],
    over the tables declared in [app/models/user.py],
    [app/models/profile.py] and [app/models/life_area.py].

    Conventions of the embedding.
    - Instants are whole seconds since the epoch ([Z]) and a [timedelta] is
      a number of seconds: the JWT library stores [exp] in whole seconds.
    - A service call is a function from the database to an outcome (a
      value or a raised exception) and the database as flushed so far.
    - The clock and the random sources a request reads are its [Env]; the
      clock is read once per request.
    - A table is the list of its rows; a flush that would break a primary
      key or a unique index declared in the models raises
      [IntegrityError].
    - External libraries (python-jose, bcrypt, uuid, google-auth, the SQL
      engine) are modelled by their behaviour on the values the embedding
      has; each model says what it keeps and what it leaves out.
    - A string is the sequence of its characters, and the characters are
      the code points below 256 (Latin-1): [String.length] is [len], and
      [str.lower], [str.isspace], [int] and [repr] are the CPython 3.11
      functions on those code points. *)

From Stdlib Require Import ZArith NArith Ascii String List Lia Bool.
From stdpp Require Import base decidable option list strings gmap sorting.

Local Open Scope string_scope.
Local Open Scope Z_scope.

(** ** Exceptions ([app/core/exceptions.py], plus the library ones that
       escape the modelled code) *)

Inductive exn : Type :=
  | InvalidCredentialsError (message : string)
  | InvalidTokenError (message : string)
  | UserNotFoundError (message : string)
  | UserAlreadyExistsError (message : string)
  | ProfileNotFoundError (message : string)
  | PlayerNameTakenError (message : string)
  | ValidationError (message : string)
  | GoogleOAuthError (message : string)
  | ValueError (message : string)
  | AttributeError (message : string)
  | IntegrityError (constraint : string)
  | MultipleResultsFound
  | PydanticValidationError.

(** Default messages of the exception classes. *)
Definition InvalidCredentialsError_ : exn :=
  InvalidCredentialsError "Invalid email or password".
Definition InvalidTokenError_ : exn := InvalidTokenError "Invalid token".
Definition UserNotFoundError_ : exn := UserNotFoundError "User not found".
Definition UserAlreadyExistsError_ : exn :=
  UserAlreadyExistsError "User with this email already exists".
Definition ProfileNotFoundError_ : exn := ProfileNotFoundError "Profile not found".
Definition PlayerNameTakenError_ : exn :=
  PlayerNameTakenError "This player name is already taken".

Inductive outcome (A : Type) : Type :=
  | Raise (e : exn)
  | Return (a : A).
Arguments Raise {A} e.
Arguments Return {A} a.

Definition is_InvalidTokenError {A} (o : outcome A) : bool :=
  match o with Raise (InvalidTokenError _) => true | _ => false end.

Definition is_InvalidCredentialsError {A} (o : outcome A) : bool :=
  match o with Raise (InvalidCredentialsError _) => true | _ => false end.

Definition returns {A} (o : outcome A) : bool :=
  match o with Return _ => true | Raise _ => false end.

(** ** Python strings: [str.replace], [str.strip], [int], [repr] *)

(** [old] at the head of [s]: what follows it. *)
Fixpoint strip_prefix (old s : list ascii) : option (list ascii) :=
  match old, s with
  | [], _ => Some s
  | c :: old', d :: s' => if Ascii.eqb c d then strip_prefix old' s' else None
  | _ :: _, [] => None
  end.

(** [s.replace(old, '')] for a non-empty [old]: the occurrences are
    removed from left to right, without overlap. Every step consumes a
    character, so [length s] steps are enough. *)
Fixpoint removed (steps : nat) (old s : list ascii) : list ascii :=
  match steps with
  | O => s
  | S steps' =>
      match strip_prefix old s with
      | Some rest => removed steps' old rest
      | None =>
          match s with
          | [] => []
          | c :: s' => c :: removed steps' old s'
          end
      end
  end.

Definition remove (old s : string) : string :=
  string_of_list_ascii
    (removed (String.length s) (list_ascii_of_string old)
       (list_ascii_of_string s)).

(** [s.lstrip(chars)] and [s.strip(chars)]. *)
Fixpoint lstrip (chars : ascii -> bool) (s : list ascii) : list ascii :=
  match s with
  | [] => []
  | c :: s' => if chars c then lstrip chars s' else s
  end.

Definition strip (chars : ascii -> bool) (s : list ascii) : list ascii :=
  rev (lstrip chars (rev (lstrip chars s))).

(** The digit values [int] knows: [0-9], [a-z] and [A-Z] stand for 0 to
    35. *)
Definition digit_value (c : ascii) : option N :=
  let n := N_of_ascii c in
  if ((48 <=? n) && (n <=? 57))%N then Some (n - 48)%N
  else if ((97 <=? n) && (n <=? 122))%N then Some (n - 87)%N
  else if ((65 <=? n) && (n <=? 90))%N then Some (n - 55)%N
  else None.

(** The blanks [int] skips around a literal: the ASCII ones of the C
    locale, and the two spaces of the range above them (NEL and the
    no-break space). *)
Definition int_space (c : ascii) : bool :=
  bool_decide (N_of_ascii c ∈ [9; 10; 11; 12; 13; 32; 133; 160]%N).

Definition underscore : ascii := "_"%char.

(** The digits of a literal: single underscores are allowed between
    digits. The result is the value and the number of digits. *)
Fixpoint int_digits (base : N) (l : list ascii) (value : N) (count : nat)
    : option (N * nat) :=
  match l with
  | [] => Some (value, count)
  | c :: l' =>
      if Ascii.eqb c underscore then
        match l' with
        | [] => None
        | c' :: _ =>
            if Ascii.eqb c' underscore then None
            else int_digits base l' value count
        end
      else
        match digit_value c with
        | Some d =>
            if (d <? base)%N
            then int_digits base l' (value * base + d)%N (S count)
            else None
        | None => None
        end
  end.

(** The literal after its sign: for base 16 an optional [0x] or [0X],
    itself optionally followed by one underscore. *)
Definition int_unprefixed (base : N) (l : list ascii) : list ascii :=
  match l with
  | c0 :: c1 :: l' =>
      if (base =? 16)%N && Ascii.eqb c0 "0"
         && (Ascii.eqb c1 "x" || Ascii.eqb c1 "X")
      then match l' with
           | c2 :: l'' => if Ascii.eqb c2 underscore then l'' else l'
           | [] => l'
           end
      else l
  | _ => l
  end.

Definition int_unsigned (base : N) (l : list ascii) : option N :=
  match int_unprefixed base l with
  | [] => None
  | c :: l' =>
      if Ascii.eqb c underscore then None
      else
        match int_digits base (c :: l') 0 0 with
        | Some (value, count) =>
            (* sys.int_max_str_digits, for the bases that are no power
               of two *)
            if negb (base =? 16)%N && (4300 <? count)%nat then None
            else Some value
        | None => None
        end
  end.

(** [int(s, base)] for base 10 and base 16: [None] stands for the
    [ValueError] of a string that is no literal. *)
Definition python_int (base : N) (s : string) : option Z :=
  match strip int_space (list_ascii_of_string s) with
  | [] => None
  | c :: l =>
      if Ascii.eqb c "+" then Z.of_N <$> int_unsigned base l
      else if Ascii.eqb c "-" then Z.opp <$> (Z.of_N <$> int_unsigned base l)
      else Z.of_N <$> int_unsigned base (c :: l)
  end.

Definition hex_digit (d : N) : ascii :=
  nth (N.to_nat d) (list_ascii_of_string "0123456789abcdef") "0"%char.

Definition hex2 (n : N) : string :=
  String (hex_digit (n / 16)) (String (hex_digit (n mod 16)) EmptyString).

Definition quote : ascii := "'"%char.
Definition double_quote : ascii := ascii_of_N 34.
Definition backslash : ascii := ascii_of_N 92.

(** [str.isprintable] on one character. *)
Definition printable (c : ascii) : bool :=
  let n := N_of_ascii c in
  ((32 <=? n) && (n <=? 126) || (161 <=? n) && negb (n =? 173))%N.

Definition repr_char (q : ascii) (c : ascii) : string :=
  let n := N_of_ascii c in
  if Ascii.eqb c q || Ascii.eqb c backslash
  then String backslash (String c EmptyString)
  else if (n =? 9)%N then String backslash "t"
  else if (n =? 10)%N then String backslash "n"
  else if (n =? 13)%N then String backslash "r"
  else if printable c then String c EmptyString
  else String backslash (String "x" (hex2 n)).

(** [repr(s)]: single quotes, unless the string holds one and no double
    quote. *)
Definition repr (s : string) : string :=
  let l := list_ascii_of_string s in
  let q :=
    if bool_decide (quote ∈ l) && negb (bool_decide (double_quote ∈ l))
    then double_quote else quote in
  String q (String.concat EmptyString (repr_char q <$> l) ++ String q EmptyString).

(** ** uuid.UUID ([Lib/uuid.py])

    A UUID is its 128-bit integer ([UUID.int]). [uuid_str] is [str(u)]:
    32 lower-case hexadecimal digits grouped 8-4-4-4-12. [UUID_parse] is
    the constructor [UUID(hex)]: every [urn:] and [uuid:] is removed,
    braces are stripped from both ends and every dash is removed; the
    rest must have 32 characters, is read by [int(hex, 16)], and the
    value must fit 128 bits. Each of the three failures is a
    [ValueError] with its own message. *)

Definition UUID : Type := N.

Definition uuid_wf (u : UUID) : Prop := (u < 2 ^ 128)%N.

(** [hex_of k n]: the [k] low hexadecimal digits of [n], most significant
    first (Python's ['%0kx' % n] for [n < 16^k]). *)
Fixpoint hex_of (k : nat) (n : N) : list ascii :=
  match k with
  | O => []
  | S k' => hex_of k' (n / 16)%N ++ [hex_digit (n mod 16)%N]
  end.

Definition dash : ascii := "-"%char.

Definition dashed (l : list ascii) : list ascii :=
  take 8 l ++ dash :: take 4 (drop 8 l) ++ dash :: take 4 (drop 12 l)
    ++ dash :: take 4 (drop 16 l) ++ dash :: drop 20 l.

Definition uuid_str (u : UUID) : string :=
  string_of_list_ascii (dashed (hex_of 32 u)).

Definition brace (c : ascii) : bool :=
  Ascii.eqb c "{" || Ascii.eqb c "}".

Definition UUID_parse (hex : string) : outcome UUID :=
  let hex := remove "uuid:" (remove "urn:" hex) in
  let hex :=
    remove "-" (string_of_list_ascii (strip brace (list_ascii_of_string hex))) in
  if negb (String.length hex =? 32)%nat
  then Raise (ValueError "badly formed hexadecimal UUID string")
  else
    match python_int 16 hex with
    | None =>
        Raise (ValueError ("invalid literal for int() with base 16: "
                             ++ repr hex))
    | Some n =>
        if (0 <=? n) && (n <? 2 ^ 128)
        then Return (Z.to_N n)
        else Raise (ValueError "int is out of range (need a 128-bit value)")
    end.

(** ** Token payloads and python-jose

    A payload is a dictionary from claim names to JSON scalars: null,
    booleans, integers and strings (numbers with a fraction, lists and
    objects are not modelled). *)

Inductive json : Type :=
  | JNull
  | JBool (b : bool)
  | JNum (z : Z)
  | JStr (s : string).

Global Instance json_eq_dec : EqDecision json.
Proof. solve_decision. Defined.

Abbreviation claims := (gmap string json).

(** Python truthiness of [payload.get(k)] ([None] when the key is
    absent). *)
Definition truthy (v : option json) : bool :=
  match v with
  | None | Some JNull => false
  | Some (JBool b) => b
  | Some (JNum z) => negb (z =? 0)
  | Some (JStr s) => negb (String.eqb s "")
  end.

(** A token is symbolic: either a string that is not a compact JWS, or a
    JWS carrying its algorithm, the key it was signed with and its
    payload. Signing is deterministic (as HMAC is) and unforgeable:
    a token verifies under a key exactly when it was signed with it. *)
Inductive token : Type :=
  | Opaque (s : string)
  | Jws (alg key : string) (payload : claims).

Global Instance token_eq_dec : EqDecision token.
Proof. solve_decision. Defined.

(** [jwt.encode(claims, key, algorithm)]. *)
Definition jwt_encode (payload : claims) (key alg : string) : token :=
  Jws alg key payload.

(** [int(v)] on a claim value, as the registered-claim checks of
    python-jose call it: an integer is itself, a boolean is 0 or 1, a
    string is read as a decimal literal. [None] stands for the check
    failing. (On a null the library's [int] raises [TypeError], which the
    library does not turn into a [JWTError]; no flow of the service mints
    such a token, and the model counts it among those that do not
    decode.) *)
Definition int_of_claim (v : json) : option Z :=
  match v with
  | JNum z => Some z
  | JBool b => Some (if b then 1 else 0)
  | JStr s => python_int 10 s
  | JNull => None
  end.

(** The registered-claim checks of [jwt.decode] as [decode_token] calls
    it (no audience, issuer, subject or access token given, default
    options, no leeway): [iat] must read as an integer, [nbf] as an
    integer not in the future, [exp] as an integer not in the past;
    [aud] and [at_hash] cannot be matched and must be absent; [sub] and
    [jti] must be strings. *)
Definition iat_ok (payload : claims) : bool :=
  match payload !! "iat" with
  | None => true
  | Some v => bool_decide (is_Some (int_of_claim v))
  end.

Definition nbf_ok (now : Z) (payload : claims) : bool :=
  match payload !! "nbf" with
  | None => true
  | Some v =>
      match int_of_claim v with
      | Some nbf => negb (now <? nbf)
      | None => false
      end
  end.

Definition exp_ok (now : Z) (payload : claims) : bool :=
  match payload !! "exp" with
  | None => true
  | Some v =>
      match int_of_claim v with
      | Some exp => negb (exp <? now)
      | None => false
      end
  end.

Definition aud_ok (payload : claims) : bool :=
  bool_decide (payload !! "aud" = None).

Definition sub_ok (payload : claims) : bool :=
  match payload !! "sub" with
  | None | Some (JStr _) => true
  | Some _ => false
  end.

Definition jti_ok (payload : claims) : bool :=
  match payload !! "jti" with
  | None | Some (JStr _) => true
  | Some _ => false
  end.

Definition at_hash_ok (payload : claims) : bool :=
  bool_decide (payload !! "at_hash" = None).

Definition claims_ok (now : Z) (payload : claims) : bool :=
  iat_ok payload && nbf_ok now payload && exp_ok now payload
  && aud_ok payload && sub_ok payload && jti_ok payload
  && at_hash_ok payload.

(** [jwt.decode(token, key, algorithms)]: [None] stands for any
    [JWTError] (bad structure, bad signature, expired, bad claims). *)
Definition jwt_decode (now : Z) (t : token) (key : string)
    (algorithms : list string) : option claims :=
  match t with
  | Opaque _ => None
  | Jws alg k payload =>
      if bool_decide (alg ∈ algorithms) && bool_decide (k = key)
         && claims_ok now payload
      then Some payload else None
  end.

(** ** Settings ([app/config.py] is not part of the sources: its
       constants are parameters) *)

Record Settings : Type := {
  JWT_SECRET_KEY : string;
  JWT_ALGORITHM : string;
  ACCESS_TOKEN_EXPIRE_MINUTES : Z;
  REFRESH_TOKEN_EXPIRE_DAYS : Z;
  GOOGLE_CLIENT_ID : string
}.

Definition minutes (m : Z) : Z := 60 * m.
Definition days (d : Z) : Z := 86400 * d.

(** ** [app/core/security.py]: tokens *)

(** The [subject] argument of the token constructors is
    [str | UUID]; both are passed through [str()]. *)
Inductive subject : Type :=
  | SubjectStr (s : string)
  | SubjectUUID (u : UUID).

Definition str_subject (s : subject) : string :=
  match s with
  | SubjectStr s => s
  | SubjectUUID u => uuid_str u
  end.

Section Security.
Context (settings : Settings).

(** [if expires_delta:] is false for [None] and for a zero timedelta. *)
Definition expiry (now : Z) (expires_delta : option Z) (default : Z) : Z :=
  match expires_delta with
  | Some d => if d =? 0 then now + default else now + d
  | None => now + default
  end.

Definition create_access_token (now : Z) (subject : subject)
    (expires_delta : option Z) (extra_claims : option claims) : token :=
  let expire :=
    expiry now expires_delta (minutes (ACCESS_TOKEN_EXPIRE_MINUTES settings)) in
  let to_encode : claims :=
    <["type" := JStr "access"]>
      (<["exp" := JNum expire]> (<["sub" := JStr (str_subject subject)]> ∅)) in
  let to_encode :=
    match extra_claims with
    | Some extra => extra ∪ to_encode
    | None => to_encode
    end in
  jwt_encode to_encode (JWT_SECRET_KEY settings) (JWT_ALGORITHM settings).

Definition create_refresh_token (now : Z) (subject : subject)
    (expires_delta : option Z) : token :=
  let expire :=
    expiry now expires_delta (days (REFRESH_TOKEN_EXPIRE_DAYS settings)) in
  let to_encode : claims :=
    <["type" := JStr "refresh"]>
      (<["exp" := JNum expire]> (<["sub" := JStr (str_subject subject)]> ∅)) in
  jwt_encode to_encode (JWT_SECRET_KEY settings) (JWT_ALGORITHM settings).

Definition decode_token (now : Z) (t : token) : option claims :=
  jwt_decode now t (JWT_SECRET_KEY settings) [JWT_ALGORITHM settings].

(** The [type] claim a token decodes to, if it decodes at all. *)
Definition decoded_type (now : Z) (t : token) : option json :=
  match decode_token now t with
  | None => None
  | Some payload => payload !! "type"
  end.

Definition get_token_subject (now : Z) (t : token) : option json :=
  match decode_token now t with
  | None => None
  | Some payload => payload !! "sub"
  end.
End Security.

(** ** bcrypt (the [bcrypt] package, release 5.0.0)

    [hashpw(password, salt)] reads [salt], which is a salt or a full hash,
    as the fields between its [$] signs: after the first sign come the
    version ([2a], [2b], [2x] or [2y]), the cost (an unsigned decimal
    number, from 4 to 31) and a field whose first 22 characters are the
    salt proper: 128 bits in bcrypt's base-64 alphabet, so the last of
    them carries two bits and is one of [.], [O], [e], [u]. Anything else
    raises [ValueError("Invalid salt")], and so does a password of more
    than 72 bytes, with a message of its own. The result is the prefix
    [$version$cost$salt], cost on two digits, followed by the digest. The
    digest itself is a parameter ([bcrypt_digest]). Passwords and hashes
    reach the library encoded in UTF-8: a character below 128 is one
    byte, the others are two. *)

Definition utf8_length (s : string) : nat :=
  list_sum ((fun c => if (N_of_ascii c <? 128)%N then 1%nat else 2%nat)
              <$> list_ascii_of_string s).

(** [s.split(sep)] for a one-character separator. *)
Fixpoint fields (sep : ascii) (s : string) : list string :=
  match s with
  | EmptyString => [EmptyString]
  | String c s' =>
      if Ascii.eqb c sep then EmptyString :: fields sep s'
      else
        match fields sep s' with
        | f :: fs => String c f :: fs
        | [] => [String c EmptyString]
        end
  end.

Definition bcrypt_char (c : ascii) : bool :=
  let n := N_of_ascii c in
  (((46 <=? n) && (n <=? 57)) || ((65 <=? n) && (n <=? 90))
   || ((97 <=? n) && (n <=? 122)))%N.

Definition decimal_char (c : ascii) : bool :=
  let n := N_of_ascii c in ((48 <=? n) && (n <=? 57))%N.

Definition decimal_value (l : list ascii) : N :=
  fold_left (fun value c => (value * 10 + (N_of_ascii c - 48))%N) l 0%N.

(** The cost field: an optional [+], then decimal digits; from 4 to 31. *)
Definition bcrypt_cost (s : string) : option N :=
  let digits :=
    match s with
    | String c s' => if Ascii.eqb c "+" then s' else s
    | EmptyString => s
    end in
  if negb (String.eqb digits "")
     && forallb decimal_char (list_ascii_of_string digits)
  then
    let cost := decimal_value (list_ascii_of_string digits) in
    if ((4 <=? cost) && (cost <=? 31))%N then Some cost else None
  else None.

(** The 22 characters of a salt: the last one carries no bits beyond the
    128th. *)
Definition bcrypt_salt22 (s : string) : bool :=
  (String.length s =? 22)%nat
  && forallb bcrypt_char (list_ascii_of_string s)
  && bool_decide (substring 21 1 s ∈ ["."; "O"; "e"; "u"]).

Definition two_digits (n : N) : string :=
  String (ascii_of_N (48 + n / 10))
    (String (ascii_of_N (48 + n mod 10)) EmptyString).

(** The prefix [hashpw] writes for a salt, when it reads it. *)
Definition bcrypt_salt (s : string) : option string :=
  match fields "$" s with
  | _ :: version :: raw_cost :: remainder :: _ =>
      if bool_decide (version ∈ ["2y"; "2b"; "2a"; "2x"])
      then
        match bcrypt_cost raw_cost with
        | Some cost =>
            if bcrypt_salt22 (substring 0 22 remainder)
            then Some ("$" ++ version ++ "$" ++ two_digits cost ++ "$"
                         ++ substring 0 22 remainder)
            else None
        | None => None
        end
      else None
  | _ => None
  end.

Section Bcrypt.
Context (bcrypt_digest : string -> string -> string).

(** [bcrypt.hashpw(password, salt)]. *)
Definition bcrypt_hashpw (password salt : string) : outcome string :=
  if (72 <? utf8_length password)%nat
  then Raise (ValueError "password cannot be longer than 72 bytes, truncate manually if necessary (e.g. my_password[:72])")
  else
    match bcrypt_salt salt with
    | Some prefix => Return (prefix ++ bcrypt_digest prefix password)
    | None => Raise (ValueError "Invalid salt")
    end.

(** [bcrypt.checkpw(password, hashed)]: hashes again under the salt of
    [hashed] and compares. *)
Definition bcrypt_checkpw (password hashed : string) : outcome bool :=
  match bcrypt_hashpw password hashed with
  | Return h => Return (bool_decide (h = hashed))
  | Raise e => Raise e
  end.

(** [app/core/security.py]: passwords. *)
Definition verify_password (plain_password hashed_password : string)
    : outcome bool :=
  bcrypt_checkpw plain_password hashed_password.

(** [salt] is the value [bcrypt.gensalt()] returned. *)
Definition hash_password (salt : string) (password : string)
    : outcome string :=
  bcrypt_hashpw password salt.
End Bcrypt.

(** ** [str.lower]

    Of the code points below 256 the upper-case letters are [A-Z] and
    the range from 192 to 222 without the multiplication sign (215); the
    lower-case letter of each lies 32 above it. *)

Definition ascii_lower (c : ascii) : ascii :=
  let n := N_of_ascii c in
  if ((65 <=? n) && (n <=? 90)
      || (192 <=? n) && (n <=? 222) && negb (n =? 215))%N
  then ascii_of_N (n + 32) else c.

Fixpoint lower (s : string) : string :=
  match s with
  | EmptyString => EmptyString
  | String c s' => String (ascii_lower c) (lower s')
  end.

(** ** Tables ([app/models/user.py], [app/models/profile.py],
       [app/models/life_area.py])

    The columns the modelled code reads or writes. Primary keys are kept
    where the code uses them; the mixin timestamps are left out. *)

Module User.
Record t : Type := mk {
  id : UUID;
  email : string;
  password_hash : option string;
  email_verified : bool;
  is_active : bool;
  last_login_at : option Z
}.
Definition with_last_login_at (v : option Z) (u : t) : t :=
  mk (id u) (email u) (password_hash u) (email_verified u) (is_active u) v.
End User.

Module AuthProvider.
Record t : Type := mk {
  user_id : UUID;
  provider : string;
  provider_user_id : string;
  access_token : option string;
  refresh_token : option string;
  token_expires_at : option Z;
  provider_data : option (gmap string json)
}.
End AuthProvider.

Module UserSession.
Record t : Type := mk {
  user_id : UUID;
  session_token : token;
  device_info : option string;
  ip_address : option string;
  expires_at : Z;
  created_at : Z
}.
End UserSession.

Module Archetype.
Record t : Type := mk { id : UUID; name : string }.
End Archetype.

Module LifeMode.
Record t : Type := mk { id : UUID; name : string }.
End LifeMode.

Module LifeArea.
Record t : Type := mk { id : UUID; name : string; is_active : bool }.
End LifeArea.

Module UserLifeArea.
Record t : Type := mk {
  user_id : UUID;
  life_area_id : UUID;
  priority : Z;
  selected_at : Z
}.
End UserLifeArea.

Module UserProfile.
Record t : Type := mk {
  user_id : UUID;
  player_name : string;
  archetype_id : option UUID;
  life_mode_id : option UUID;
  level : Z;
  total_core_xp : Z;
  avatar_url : option string;
  bio : option string;
  timezone : string;
  identity_locked_until : option Z;
  onboarding_completed : bool
}.
End UserProfile.

Global Instance User_eq_dec : EqDecision User.t.
Proof. solve_decision. Defined.
Global Instance AuthProvider_eq_dec : EqDecision AuthProvider.t.
Proof. solve_decision. Defined.
Global Instance UserSession_eq_dec : EqDecision UserSession.t.
Proof. solve_decision. Defined.
Global Instance UserProfile_eq_dec : EqDecision UserProfile.t.
Proof. solve_decision. Defined.
Global Instance UserLifeArea_eq_dec : EqDecision UserLifeArea.t.
Proof. solve_decision. Defined.

Record Db : Type := mkDb {
  users : list User.t;
  auth_providers : list AuthProvider.t;
  user_sessions : list UserSession.t;
  user_profiles : list UserProfile.t;
  archetypes : list Archetype.t;
  life_modes : list LifeMode.t;
  life_areas : list LifeArea.t;
  user_life_areas : list UserLifeArea.t
}.

Definition empty_db : Db := mkDb [] [] [] [] [] [] [] [].

Definition with_users (v : list User.t) (db : Db) : Db :=
  mkDb v (auth_providers db) (user_sessions db) (user_profiles db)
    (archetypes db) (life_modes db) (life_areas db) (user_life_areas db).
Definition with_auth_providers (v : list AuthProvider.t) (db : Db) : Db :=
  mkDb (users db) v (user_sessions db) (user_profiles db)
    (archetypes db) (life_modes db) (life_areas db) (user_life_areas db).
Definition with_user_sessions (v : list UserSession.t) (db : Db) : Db :=
  mkDb (users db) (auth_providers db) v (user_profiles db)
    (archetypes db) (life_modes db) (life_areas db) (user_life_areas db).
Definition with_user_profiles (v : list UserProfile.t) (db : Db) : Db :=
  mkDb (users db) (auth_providers db) (user_sessions db) v
    (archetypes db) (life_modes db) (life_areas db) (user_life_areas db).
Definition with_user_life_areas (v : list UserLifeArea.t) (db : Db) : Db :=
  mkDb (users db) (auth_providers db) (user_sessions db) (user_profiles db)
    (archetypes db) (life_modes db) (life_areas db) v.

(** ** The unit of work: a state and exception monad over the database

    The database in the result is the one flushed when the call returned
    or raised; rolling back a failed request is the caller's business. *)

Definition M (A : Type) : Type := Db -> outcome A * Db.

Global Instance M_ret : MRet M := fun A a db => (Return a, db).
Global Instance M_bind : MBind M := fun A B k m db =>
  match m db with
  | (Return a, db') => k a db'
  | (Raise e, db') => (Raise e, db')
  end.

Definition raise {A} (e : exn) : M A := fun db => (Raise e, db).
Definition lift {A} (o : outcome A) : M A := fun db => (o, db).
Definition query {A} (f : Db -> A) : M A := fun db => (Return (f db), db).
Definition modify (f : Db -> Db) : M unit := fun db => (Return tt, f db).

(** [Result.scalar_one_or_none()]. *)
Definition scalar_one_or_none {A} (rows : list A) : M (option A) :=
  match rows with
  | [] => mret None
  | [x] => mret (Some x)
  | _ => raise MultipleResultsFound
  end.

(** ** What a request reads from outside the database *)

Record Env : Type := {
  utcnow : Z;        (* datetime.now(timezone.utc), read once per request *)
  uuid4 : UUID;      (* the primary key drawn for a new users row *)
  gensalt : string   (* bcrypt.gensalt() *)
}.

(** ** [app/repositories/user_repo.py] *)

Module UserRepository.

Definition get_by_id (user_id : UUID) : M (option User.t) :=
  rows ← query (fun db => filter (fun u => User.id u = user_id) (users db));
  scalar_one_or_none rows.

Definition get_by_email (email : string) : M (option User.t) :=
  rows ← query (fun db =>
            filter (fun u => User.email u = lower email) (users db));
  scalar_one_or_none rows.

(** [db.add(user); db.flush()]: the insert is refused when it breaks the
    primary key or the unique index on [email]. *)
Definition add_user (user : User.t) : M unit := fun db =>
  if bool_decide (User.id user ∈ User.id <$> users db)
  then (Raise (IntegrityError "users.id"), db)
  else if bool_decide (User.email user ∈ User.email <$> users db)
  then (Raise (IntegrityError "users.email"), db)
  else (Return tt, with_users (users db ++ [user]) db).

Definition create (env : Env) (email : string)
    (password_hash : option string) (email_verified : bool) : M User.t :=
  let user :=
    User.mk (uuid4 env) (lower email) password_hash email_verified true None in
  add_user user;;
  mret user.

(** The object is the row: the assignment reaches the table at flush,
    and the caller keeps seeing the updated object. *)
Definition update_last_login (env : Env) (user : User.t) : M User.t :=
  let touch := User.with_last_login_at (Some (utcnow env)) in
  modify (fun db =>
    with_users
      ((fun u => if decide (User.id u = User.id user) then touch u else u)
         <$> users db) db);;
  mret (touch user).

Definition get_auth_provider (provider provider_user_id : string)
    : M (option AuthProvider.t) :=
  rows ← query (fun db =>
            filter (fun a => AuthProvider.provider a = provider
                             ∧ AuthProvider.provider_user_id a = provider_user_id)
              (auth_providers db));
  scalar_one_or_none rows.

(** No unique index guards this table (the constraint is commented out
    in the model). *)
Definition create_auth_provider (user_id : UUID)
    (provider provider_user_id : string)
    (access_token refresh_token : option string)
    (token_expires_at : option Z)
    (provider_data : option (gmap string json)) : M AuthProvider.t :=
  let auth_provider :=
    AuthProvider.mk user_id provider provider_user_id access_token
      refresh_token token_expires_at provider_data in
  modify (fun db => with_auth_providers (auth_providers db ++ [auth_provider]) db);;
  mret auth_provider.

(** [db.add(session); db.flush()]: [session_token] carries a unique
    index, so a token already stored is refused. *)
Definition add_session (session : UserSession.t) : M unit := fun db =>
  if bool_decide (UserSession.session_token session
                    ∈ UserSession.session_token <$> user_sessions db)
  then (Raise (IntegrityError "user_sessions.session_token"), db)
  else (Return tt, with_user_sessions (user_sessions db ++ [session]) db).

Definition create_session (env : Env) (user_id : UUID)
    (session_token : token) (expires_at : Z)
    (device_info ip_address : option string) : M UserSession.t :=
  let session :=
    UserSession.mk user_id session_token device_info ip_address expires_at
      (utcnow env) in
  add_session session;;
  mret session.

Definition get_session_by_token (session_token : token)
    : M (option UserSession.t) :=
  rows ← query (fun db =>
            filter (fun s => UserSession.session_token s = session_token)
              (user_sessions db));
  scalar_one_or_none rows.

(** [db.delete(session)]: the row is the one carrying the session's
    (unique) token. *)
Definition delete_session (session : UserSession.t) : M unit :=
  modify (fun db =>
    with_user_sessions
      (filter (fun s => UserSession.session_token s
                        ≠ UserSession.session_token session)
         (user_sessions db)) db).

Definition delete_all_user_sessions (user_id : UUID) : M unit :=
  modify (fun db =>
    with_user_sessions
      (filter (fun s => UserSession.user_id s ≠ user_id) (user_sessions db))
      db).

End UserRepository.

(** ** [app/core/oauth.py] *)

(** The claims of a verified Google ID token that the code reads, with
    the types Google documents for them. *)
Record IdInfo : Type := {
  iss : option string;
  g_email : option string;
  g_sub : option string;
  g_name : option string;
  g_picture : option string;
  g_given_name : option string;
  g_family_name : option string;
  g_email_verified : option bool;
  g_locale : option string
}.

(** The dictionary [verify_google_token] returns. *)
Record GoogleUser : Type := {
  gu_email : option string;
  gu_sub : option string;
  gu_name : option string;
  gu_picture : option string;
  gu_given_name : option string;
  gu_family_name : option string;
  gu_email_verified : bool;
  gu_locale : option string
}.

Definition exn_str (e : exn) : string :=
  match e with
  | InvalidCredentialsError m | InvalidTokenError m | UserNotFoundError m
  | UserAlreadyExistsError m | ProfileNotFoundError m
  | PlayerNameTakenError m | ValidationError m | GoogleOAuthError m
  | ValueError m | AttributeError m | IntegrityError m => m
  | MultipleResultsFound => "Multiple rows were found when one or none was required"
  | PydanticValidationError => "validation error"
  end.

Section OAuth.
Context (settings : Settings).
(** [google.oauth2.id_token.verify_oauth2_token(token, request,
    audience)]: signature, expiry and audience are checked by the
    library, over the network. *)
Context (verify_oauth2_token : string -> string -> outcome IdInfo).

Definition verify_google_token (t : string) : outcome GoogleUser :=
  match verify_oauth2_token t (GOOGLE_CLIENT_ID settings) with
  | Return idinfo =>
      match iss idinfo with
      | None =>
          (* KeyError('iss'), caught by [except Exception] *)
          Raise (GoogleOAuthError "Google OAuth verification failed: 'iss'")
      | Some issuer =>
          if bool_decide (issuer ∈ ["accounts.google.com";
                                    "https://accounts.google.com"])
          then Return {|
            gu_email := g_email idinfo;
            gu_sub := g_sub idinfo;
            gu_name := g_name idinfo;
            gu_picture := g_picture idinfo;
            gu_given_name := g_given_name idinfo;
            gu_family_name := g_family_name idinfo;
            gu_email_verified := default false (g_email_verified idinfo);
            gu_locale := g_locale idinfo |}
          else
            (* the inner GoogleOAuthError is caught by [except Exception] *)
            Raise (GoogleOAuthError
                     "Google OAuth verification failed: Invalid token issuer")
      end
  | Raise (ValueError m) =>
      Raise (GoogleOAuthError ("Invalid Google token: " ++ m))
  | Raise e =>
      Raise (GoogleOAuthError ("Google OAuth verification failed: " ++ exn_str e))
  end.
End OAuth.

(** ** [app/services/auth_service.py] *)

Record TokenResponse : Type := {
  access_token : token;
  refresh_token : token;
  token_type : string;
  is_new_user : bool
}.

(** [UUID(payload.get("sub"))] for a truthy claim value. *)
Definition UUID_of_claim (v : option json) : outcome UUID :=
  match v with
  | Some (JStr s) => UUID_parse s
  | _ => Raise (AttributeError "object has no attribute 'replace'")
  end.

Definition google_provider_data (g : GoogleUser) : gmap string json :=
  let js (v : option string) := from_option JStr JNull v in
  <["picture" := js (gu_picture g)]>
    (<["given_name" := js (gu_given_name g)]>
       (<["family_name" := js (gu_family_name g)]>
          (<["locale" := js (gu_locale g)]> ∅))).

(** Python truthiness of an optional string. *)
Definition nonempty (v : option string) : bool :=
  match v with
  | Some s => negb (String.eqb s "")
  | None => false
  end.

Module AuthService.
Section AuthService.
Context (settings : Settings).
Context (bcrypt_digest : string -> string -> string).
Context (verify_oauth2_token : string -> string -> outcome IdInfo).

Definition _create_tokens_and_session (env : Env) (user : User.t)
    (device_info ip_address : option string) : M (token * token) :=
  let access_token :=
    create_access_token settings (utcnow env) (SubjectUUID (User.id user))
      None None in
  let refresh_token :=
    create_refresh_token settings (utcnow env) (SubjectUUID (User.id user))
      None in
  let expires_at := utcnow env + days (REFRESH_TOKEN_EXPIRE_DAYS settings) in
  UserRepository.create_session env (User.id user) refresh_token expires_at
    device_info ip_address;;
  mret (access_token, refresh_token).

Definition response (tokens : token * token) (is_new_user : bool)
    : TokenResponse :=
  {| access_token := tokens.1; refresh_token := tokens.2;
     token_type := "bearer"; is_new_user := is_new_user |}.

Definition register (env : Env) (email password : string)
    (device_info ip_address : option string) : M TokenResponse :=
  existing_user ← UserRepository.get_by_email email;
  match existing_user with
  | Some _ => raise UserAlreadyExistsError_
  | None =>
      password_hash ← lift (hash_password bcrypt_digest (gensalt env) password);
      user ← UserRepository.create env email (Some password_hash) false;
      tokens ← _create_tokens_and_session env user device_info ip_address;
      mret (response tokens true)
  end.

Definition login (env : Env) (email password : string)
    (device_info ip_address : option string) : M TokenResponse :=
  user ← UserRepository.get_by_email email;
  match user with
  | None => raise InvalidCredentialsError_
  | Some user =>
      if negb (nonempty (User.password_hash user))
      then raise InvalidCredentialsError_
      else
        verified ← lift (verify_password bcrypt_digest password
                           (default "" (User.password_hash user)));
        if negb verified then raise InvalidCredentialsError_
        else if negb (User.is_active user)
        then raise (InvalidCredentialsError "Account is deactivated")
        else
          user ← UserRepository.update_last_login env user;
          tokens ← _create_tokens_and_session env user device_info ip_address;
          mret (response tokens false)
  end.

Definition refresh_tokens (env : Env) (refresh_token : token)
    (device_info ip_address : option string) : M TokenResponse :=
  match decode_token settings (utcnow env) refresh_token with
  | None => raise InvalidTokenError_
  | Some payload =>
      if bool_decide (payload = ∅) then raise InvalidTokenError_
      else if bool_decide (payload !! "type" ≠ Some (JStr "refresh"))
      then raise (InvalidTokenError "Invalid token type")
      else if negb (truthy (payload !! "sub")) then raise InvalidTokenError_
      else
        user_id ← lift (UUID_of_claim (payload !! "sub"));
        user ← UserRepository.get_by_id user_id;
        match user with
        | None => raise InvalidTokenError_
        | Some user =>
            if negb (User.is_active user) then raise InvalidTokenError_
            else
              tokens ← _create_tokens_and_session env user device_info
                         ip_address;
              mret (response tokens false)
        end
  end.

Definition logout (session_token : token) : M unit :=
  session ← UserRepository.get_session_by_token session_token;
  match session with
  | Some session => UserRepository.delete_session session
  | None => mret tt
  end.

Definition logout_all (user_id : UUID) : M unit :=
  UserRepository.delete_all_user_sessions user_id.

Definition get_current_user (env : Env) (t : token) : M User.t :=
  match decode_token settings (utcnow env) t with
  | None => raise InvalidTokenError_
  | Some payload =>
      if bool_decide (payload = ∅) then raise InvalidTokenError_
      else if bool_decide (payload !! "type" ≠ Some (JStr "access"))
      then raise (InvalidTokenError "Invalid token type")
      else if negb (truthy (payload !! "sub")) then raise InvalidTokenError_
      else
        user_id ← lift (UUID_of_claim (payload !! "sub"));
        user ← UserRepository.get_by_id user_id;
        match user with
        | None => raise UserNotFoundError_
        | Some user =>
            if negb (User.is_active user)
            then raise (InvalidTokenError "Account is deactivated")
            else mret user
        end
  end.

Definition google_login (env : Env) (id_token : string)
    (device_info ip_address : option string) : M TokenResponse :=
  google_user ← lift (verify_google_token settings verify_oauth2_token id_token);
  if negb (nonempty (gu_email google_user))
     || negb (nonempty (gu_sub google_user))
  then raise (InvalidCredentialsError
                "Invalid Google token: missing email or user ID")
  else
    let email := default "" (gu_email google_user) in
    let google_user_id := default "" (gu_sub google_user) in
    user ← UserRepository.get_by_email email;
    '(user, is_new_user) ←
      match user with
      | Some user =>
          auth_provider ←
            UserRepository.get_auth_provider "google" google_user_id;
          match auth_provider with
          | Some _ => mret (user, false)
          | None =>
              UserRepository.create_auth_provider (User.id user) "google"
                google_user_id None None None
                (Some (google_provider_data google_user));;
              mret (user, false)
          end
      | None =>
          user ← UserRepository.create env email None
                   (gu_email_verified google_user);
          UserRepository.create_auth_provider (User.id user) "google"
            google_user_id None None None
            (Some (google_provider_data google_user));;
          mret (user, true)
      end;
    user ← UserRepository.update_last_login env user;
    tokens ← _create_tokens_and_session env user device_info ip_address;
    mret (response tokens is_new_user).

End AuthService.
End AuthService.

(** ** [app/repositories/profile_repo.py] *)

Module ProfileRepository.

Definition get_by_user_id (user_id : UUID) : M (option UserProfile.t) :=
  rows ← query (fun db =>
            filter (fun p => UserProfile.user_id p = user_id) (user_profiles db));
  scalar_one_or_none rows.

Definition get_by_player_name (player_name : string)
    : M (option UserProfile.t) :=
  rows ← query (fun db =>
            filter (fun p => UserProfile.player_name p = player_name)
              (user_profiles db));
  scalar_one_or_none rows.

(** [db.add(profile); db.flush()] under the unique indexes on [user_id]
    and [player_name]. *)
Definition add_profile (profile : UserProfile.t) : M unit := fun db =>
  if bool_decide (UserProfile.user_id profile
                    ∈ UserProfile.user_id <$> user_profiles db)
  then (Raise (IntegrityError "user_profiles.user_id"), db)
  else if bool_decide (UserProfile.player_name profile
                         ∈ UserProfile.player_name <$> user_profiles db)
  then (Raise (IntegrityError "user_profiles.player_name"), db)
  else (Return tt, with_user_profiles (user_profiles db ++ [profile]) db).

(** Writing a modified profile object back to its row (the row of its
    [user_id]); the new [player_name] must not be another row's. *)
Definition store_profile (profile : UserProfile.t) : M unit := fun db =>
  if bool_decide
       (UserProfile.player_name profile
          ∈ UserProfile.player_name
              <$> filter (fun p => UserProfile.user_id p
                                   ≠ UserProfile.user_id profile)
                    (user_profiles db))
  then (Raise (IntegrityError "user_profiles.player_name"), db)
  else
    (Return tt,
     with_user_profiles
       ((fun p => if decide (UserProfile.user_id p = UserProfile.user_id profile)
                  then profile else p) <$> user_profiles db) db).

Definition create (user_id : UUID) (player_name : string)
    (archetype_id life_mode_id : option UUID)
    (avatar_url bio : option string) (timezone_str : string)
    : M UserProfile.t :=
  let profile :=
    UserProfile.mk user_id player_name archetype_id life_mode_id 1 0
      avatar_url bio timezone_str None false in
  add_profile profile;;
  mret profile.

Definition update (profile : UserProfile.t)
    (player_name avatar_url bio timezone_str : option string)
    : M UserProfile.t :=
  let profile :=
    UserProfile.mk (UserProfile.user_id profile)
      (default (UserProfile.player_name profile) player_name)
      (UserProfile.archetype_id profile)
      (UserProfile.life_mode_id profile)
      (UserProfile.level profile)
      (UserProfile.total_core_xp profile)
      (match avatar_url with Some v => Some v
                           | None => UserProfile.avatar_url profile end)
      (match bio with Some v => Some v | None => UserProfile.bio profile end)
      (default (UserProfile.timezone profile) timezone_str)
      (UserProfile.identity_locked_until profile)
      (UserProfile.onboarding_completed profile) in
  store_profile profile;;
  mret profile.

Definition with_identity (archetype_id life_mode_id : option UUID)
    (profile : UserProfile.t) : UserProfile.t :=
  UserProfile.mk (UserProfile.user_id profile)
    (UserProfile.player_name profile) archetype_id life_mode_id
    (UserProfile.level profile) (UserProfile.total_core_xp profile)
    (UserProfile.avatar_url profile) (UserProfile.bio profile)
    (UserProfile.timezone profile)
    (UserProfile.identity_locked_until profile)
    (UserProfile.onboarding_completed profile).

Definition mark_onboarding_complete (env : Env) (profile : UserProfile.t)
    : M UserProfile.t :=
  let profile :=
    UserProfile.mk (UserProfile.user_id profile)
      (UserProfile.player_name profile)
      (UserProfile.archetype_id profile)
      (UserProfile.life_mode_id profile)
      (UserProfile.level profile) (UserProfile.total_core_xp profile)
      (UserProfile.avatar_url profile) (UserProfile.bio profile)
      (UserProfile.timezone profile)
      (Some (utcnow env + days 30))
      true in
  store_profile profile;;
  mret profile.

Definition get_archetype_by_id (archetype_id : UUID)
    : M (option Archetype.t) :=
  rows ← query (fun db =>
            filter (fun a => Archetype.id a = archetype_id) (archetypes db));
  scalar_one_or_none rows.

Definition get_life_mode_by_id (life_mode_id : UUID)
    : M (option LifeMode.t) :=
  rows ← query (fun db =>
            filter (fun a => LifeMode.id a = life_mode_id) (life_modes db));
  scalar_one_or_none rows.

Definition get_life_area_by_id (life_area_id : UUID)
    : M (option LifeArea.t) :=
  rows ← query (fun db =>
            filter (fun a => LifeArea.id a = life_area_id) (life_areas db));
  scalar_one_or_none rows.

(** [ORDER BY priority]. *)
Definition by_priority (a b : UserLifeArea.t) : Prop :=
  UserLifeArea.priority a <= UserLifeArea.priority b.
Global Instance by_priority_dec a b : Decision (by_priority a b).
Proof. unfold by_priority. apply _. Defined.

Definition get_user_life_areas (user_id : UUID) : M (list UserLifeArea.t) :=
  query (fun db =>
    merge_sort by_priority
      (filter (fun a => UserLifeArea.user_id a = user_id) (user_life_areas db))).

(** [enumerate(life_area_ids, start=priority)]. *)
Fixpoint new_life_areas (env : Env) (user_id : UUID) (priority : Z)
    (life_area_ids : list UUID) : list UserLifeArea.t :=
  match life_area_ids with
  | [] => []
  | life_area_id :: rest =>
      UserLifeArea.mk user_id life_area_id priority (utcnow env)
        :: new_life_areas env user_id (priority + 1) rest
  end.

Definition set_user_life_areas (env : Env) (user_id : UUID)
    (life_area_ids : list UUID) : M (list UserLifeArea.t) :=
  existing ← get_user_life_areas user_id;
  modify (fun db =>
    with_user_life_areas
      (filter (fun a => a ∉ existing) (user_life_areas db)) db);;
  let user_life_areas' := new_life_areas env user_id 1 life_area_ids in
  modify (fun db =>
    with_user_life_areas (user_life_areas db ++ user_life_areas') db);;
  mret user_life_areas'.

End ProfileRepository.

(** ** [app/services/profile_service.py]: onboarding *)

Record OnboardingRequest : Type := {
  req_player_name : string;
  req_archetype_id : UUID;
  req_life_mode_id : UUID;
  req_life_area_ids : list UUID;
  req_avatar_url : option string;
  req_bio : option string;
  req_timezone : string
}.

Record OnboardingResponse : Type := {
  resp_profile : UserProfile.t;
  resp_message : string
}.

(** [ProfileCreateRequest] and [ProfileUpdateRequest]
    ([app/schemas/profile.py]). *)
Record ProfileCreateRequest : Type := {
  new_player_name : string;
  new_archetype_id : UUID;
  new_life_mode_id : UUID;
  new_avatar_url : option string;
  new_bio : option string;
  new_timezone : string
}.

Record ProfileUpdateRequest : Type := {
  upd_player_name : option string;
  upd_avatar_url : option string;
  upd_bio : option string;
  upd_timezone : option string
}.

Module ProfileService.

Definition get_profile (user_id : UUID) : M UserProfile.t :=
  profile ← ProfileRepository.get_by_user_id user_id;
  match profile with
  | None => raise ProfileNotFoundError_
  | Some profile => mret profile
  end.

Definition create_profile (user_id : UUID) (data : ProfileCreateRequest)
    : M UserProfile.t :=
  existing ← ProfileRepository.get_by_player_name (new_player_name data);
  if bool_decide (is_Some existing) then raise PlayerNameTakenError_
  else
    archetype ← ProfileRepository.get_archetype_by_id (new_archetype_id data);
    if negb (bool_decide (is_Some archetype))
    then raise (ValidationError "Invalid archetype ID")
    else
      life_mode ← ProfileRepository.get_life_mode_by_id (new_life_mode_id data);
      if negb (bool_decide (is_Some life_mode))
      then raise (ValidationError "Invalid life mode ID")
      else
        ProfileRepository.create user_id (new_player_name data)
          (Some (new_archetype_id data)) (Some (new_life_mode_id data))
          (new_avatar_url data) (new_bio data) (new_timezone data).

Definition update_profile (user_id : UUID) (data : ProfileUpdateRequest)
    : M UserProfile.t :=
  profile ← get_profile user_id;
  (if nonempty (upd_player_name data)
      && negb (bool_decide (upd_player_name data
                            = Some (UserProfile.player_name profile)))
   then
     existing ← ProfileRepository.get_by_player_name
                  (default "" (upd_player_name data));
     if bool_decide (is_Some existing) then raise PlayerNameTakenError_
     else mret tt
   else mret tt);;
  ProfileRepository.update profile (upd_player_name data)
    (upd_avatar_url data) (upd_bio data) (upd_timezone data).

(** The loop over [data.life_area_ids]. *)
Fixpoint validate_life_areas (life_area_ids : list UUID) : M unit :=
  match life_area_ids with
  | [] => mret tt
  | life_area_id :: rest =>
      life_area ← ProfileRepository.get_life_area_by_id life_area_id;
      match life_area with
      | None =>
          raise (ValidationError
                   ("Invalid life area ID: " ++ uuid_str life_area_id))
      | Some _ => validate_life_areas rest
      end
  end.

Definition complete_onboarding (env : Env) (user_id : UUID)
    (data : OnboardingRequest) : M OnboardingResponse :=
  existing_profile ← ProfileRepository.get_by_user_id user_id;
  if match existing_profile with
     | Some p => UserProfile.onboarding_completed p
     | None => false
     end
  then raise (ValidationError "Onboarding already completed")
  else
    existing_name ← ProfileRepository.get_by_player_name (req_player_name data);
    if match existing_name with
       | Some p => bool_decide (UserProfile.user_id p ≠ user_id)
       | None => false
       end
    then raise PlayerNameTakenError_
    else
      archetype ← ProfileRepository.get_archetype_by_id (req_archetype_id data);
      if negb (bool_decide (is_Some archetype))
      then raise (ValidationError "Invalid archetype ID")
      else
        life_mode ← ProfileRepository.get_life_mode_by_id (req_life_mode_id data);
        if negb (bool_decide (is_Some life_mode))
        then raise (ValidationError "Invalid life mode ID")
        else
          validate_life_areas (req_life_area_ids data);;
          profile ←
            match existing_profile with
            | Some existing_profile =>
                profile ← ProfileRepository.update existing_profile
                            (Some (req_player_name data))
                            (req_avatar_url data) (req_bio data)
                            (Some (req_timezone data));
                let profile :=
                  ProfileRepository.with_identity
                    (Some (req_archetype_id data))
                    (Some (req_life_mode_id data)) profile in
                ProfileRepository.store_profile profile;;
                mret profile
            | None =>
                ProfileRepository.create user_id (req_player_name data)
                  (Some (req_archetype_id data))
                  (Some (req_life_mode_id data))
                  (req_avatar_url data) (req_bio data) (req_timezone data)
            end;
          ProfileRepository.set_user_life_areas env user_id
            (req_life_area_ids data);;
          ProfileRepository.mark_onboarding_complete env profile;;
          profile ← ProfileRepository.get_by_user_id user_id;
          match profile with
          | Some profile =>
              mret {| resp_profile := profile;
                      resp_message :=
                        "Onboarding completed successfully! Your identity is locked for 30 days." |}
          | None => raise PydanticValidationError
          end.

End ProfileService.

(** ** Well-formed databases

    What the schema guarantees of every stored state (primary keys and
    unique indexes), and what the services maintain on top of it. *)

(** A stored password hash, when there is one, came out of
    [hash_password]. *)
Definition hash_ok (password_hash : option string) : Prop :=
  match password_hash with
  | Some h => is_Some (bcrypt_salt h)
  | None => True
  end.

(** Primary key and unique index of [users]; emails are stored
    lower-cased by [UserRepository.create]; keys are 128-bit. *)
Definition users_ok (db : Db) : Prop :=
  NoDup (User.id <$> users db)
  /\ NoDup (User.email <$> users db)
  /\ Forall (fun u => User.email u = lower (User.email u)) (users db)
  /\ Forall (fun u => uuid_wf (User.id u)) (users db)
  /\ Forall (fun u => hash_ok (User.password_hash u)) (users db).

(** What the random sources deliver: an unused 128-bit key and a well
    formed salt. *)
Definition env_ok (db : Db) (env : Env) : Prop :=
  uuid_wf (uuid4 env)
  /\ (uuid4 env ∉ User.id <$> users db)
  /\ is_Some (bcrypt_salt (gensalt env)).

(** Unique index of [user_sessions.session_token]. *)
Definition sessions_ok (db : Db) : Prop :=
  NoDup (UserSession.session_token <$> user_sessions db).

(** Every session row was written by [_create_tokens_and_session]: it
    belongs to a stored user and holds the refresh token minted for that
    user at the row's creation time. *)
Definition minted_for (settings : Settings) (s : UserSession.t) : Prop :=
  UserSession.session_token s
  = create_refresh_token settings (UserSession.created_at s)
      (SubjectUUID (UserSession.user_id s)) None.

Definition sessions_minted (settings : Settings) (db : Db) : Prop :=
  Forall (fun s => UserSession.user_id s ∈ User.id <$> users db
                   /\ minted_for settings s) (user_sessions db).

(** The key the Google flow looks links up by. No index makes it unique:
    [link_unique] says that, in the state at hand, at most one link
    carries the key. *)
Definition link_key (a : AuthProvider.t) : string * string :=
  (AuthProvider.provider a, AuthProvider.provider_user_id a).

Definition link_unique (db : Db) (provider provider_user_id : string) : Prop :=
  (length (filter (fun a => link_key a = (provider, provider_user_id))
             (auth_providers db)) <= 1)%nat.

(** Unique indexes of [user_profiles] and primary keys of the catalogue
    tables. *)
Definition profiles_ok (db : Db) : Prop :=
  NoDup (UserProfile.user_id <$> user_profiles db)
  /\ NoDup (UserProfile.player_name <$> user_profiles db)
  /\ NoDup (Archetype.id <$> archetypes db)
  /\ NoDup (LifeMode.id <$> life_modes db)
  /\ NoDup (LifeArea.id <$> life_areas db).

Definition db_ok (settings : Settings) (db : Db) : Prop :=
  users_ok db /\ sessions_ok db /\ sessions_minted settings db.

Global Instance uuid_wf_dec u : Decision (uuid_wf u).
Proof. unfold uuid_wf. apply _. Defined.
Global Instance hash_ok_dec h : Decision (hash_ok h).
Proof. unfold hash_ok. destruct h; apply _. Defined.
Global Instance users_ok_dec db : Decision (users_ok db).
Proof. unfold users_ok. apply _. Defined.
Global Instance env_ok_dec db env : Decision (env_ok db env).
Proof. unfold env_ok. apply _. Defined.
Global Instance sessions_ok_dec db : Decision (sessions_ok db).
Proof. unfold sessions_ok. apply _. Defined.
Global Instance minted_for_dec settings s : Decision (minted_for settings s).
Proof. unfold minted_for. apply _. Defined.
Global Instance sessions_minted_dec settings db :
  Decision (sessions_minted settings db).
Proof. unfold sessions_minted. apply _. Defined.
Global Instance link_unique_dec db p s : Decision (link_unique db p s).
Proof. unfold link_unique. apply _. Defined.
Global Instance profiles_ok_dec db : Decision (profiles_ok db).
Proof. unfold profiles_ok. apply _. Defined.
Global Instance db_ok_dec settings db : Decision (db_ok settings db).
Proof. unfold db_ok. apply _. Defined.

(** A call that keeps [profiles_ok], whatever it returns or raises. *)
Definition keeps_profiles {A} (m : M A) : Prop :=
  forall db o db', profiles_ok db -> m db = (o, db') -> profiles_ok db'.

(** The links of an account with one provider. *)
Definition links_of (db : Db) (user_id : UUID) (provider : string)
    : list AuthProvider.t :=
  filter (fun a => AuthProvider.user_id a = user_id
                   /\ AuthProvider.provider a = provider) (auth_providers db).

(** ** What a successful flow writes and returns *)

(** The session row and the token pair of [_create_tokens_and_session]. *)
Definition new_session (settings : Settings) (env : Env) (user : User.t)
    (device_info ip_address : option string) : UserSession.t :=
  UserSession.mk (User.id user)
    (create_refresh_token settings (utcnow env) (SubjectUUID (User.id user)) None)
    device_info ip_address
    (utcnow env + days (REFRESH_TOKEN_EXPIRE_DAYS settings)) (utcnow env).

Definition new_tokens (settings : Settings) (env : Env) (user : User.t)
    : token * token :=
  (create_access_token settings (utcnow env) (SubjectUUID (User.id user))
     None None,
   create_refresh_token settings (utcnow env) (SubjectUUID (User.id user))
     None).

(** The row [register] inserts. *)
Definition registered_user (env : Env) (email password_hash : string)
    : User.t :=
  User.mk (uuid4 env) (lower email) (Some password_hash) false true None.

(** The profile object after [mark_onboarding_complete]. *)
Definition marked (env : Env) (p : UserProfile.t) : UserProfile.t :=
  UserProfile.mk (UserProfile.user_id p) (UserProfile.player_name p)
    (UserProfile.archetype_id p) (UserProfile.life_mode_id p)
    (UserProfile.level p) (UserProfile.total_core_xp p)
    (UserProfile.avatar_url p) (UserProfile.bio p) (UserProfile.timezone p)
    (Some (utcnow env + days 30)) true.

(** The [user_profiles] rows after a profile object is written back. *)
Definition replace_profile (p : UserProfile.t) (rows : list UserProfile.t)
    : list UserProfile.t :=
  (fun q => if decide (UserProfile.user_id q = UserProfile.user_id p)
            then p else q) <$> rows.

(** No other user's profile carries the name. *)
Definition name_free (rows : list UserProfile.t) (user_id : UUID)
    (player_name : string) : Prop :=
  forall q, q ∈ rows -> UserProfile.player_name q = player_name ->
            UserProfile.user_id q = user_id.

(** The [users] table after [update_last_login] on [user]. *)
Definition touch_user (env : Env) (user : User.t) (db : Db) : Db :=
  with_users
    ((fun u => if decide (User.id u = User.id user)
               then User.with_last_login_at (Some (utcnow env)) u else u)
       <$> users db) db.

(** The link the Google flow creates for an account. *)
Definition google_link (user : User.t) (g : GoogleUser) : AuthProvider.t :=
  AuthProvider.mk (User.id user) "google" (default "" (gu_sub g)) None None None
    (Some (google_provider_data g)).

(** The database after a Google login that reached the minting, for an
    account already stored. *)
Definition google_linked (user : User.t) (g : GoogleUser) (db : Db) : Db :=
  if decide (("google", default "" (gu_sub g)) ∈ link_key <$> auth_providers db)
  then db
  else with_auth_providers (auth_providers db ++ [google_link user g]) db.

(** The row the Google flow inserts for an address it has not seen. *)
Definition google_account (env : Env) (g : GoogleUser) : User.t :=
  User.mk (uuid4 env) (lower (default "" (gu_email g))) None
    (gu_email_verified g) true None.

(** The database after a Google login created an account. *)
Definition google_signed_up (settings : Settings) (env : Env) (g : GoogleUser)
    (device_info ip_address : option string) (db : Db) : Db :=
  let user := google_account env g in
  with_user_sessions
    (user_sessions db ++ [new_session settings env user device_info ip_address])
    (touch_user env user
       (with_auth_providers (auth_providers db ++ [google_link user g])
          (with_users (users db ++ [user]) db))).

(** ** Sample configuration and inputs for the worked examples *)

Definition sample_settings : Settings := {|
  JWT_SECRET_KEY := "server-secret";
  JWT_ALGORITHM := "HS256";
  ACCESS_TOKEN_EXPIRE_MINUTES := 30;
  REFRESH_TOKEN_EXPIRE_DAYS := 7;
  GOOGLE_CLIENT_ID := "client-id.apps.googleusercontent.com"
|}.

Definition sample_digest (salt password : string) : string :=
  String.rev password.

Definition sample_salt : string := "$2b$12$abcdefghijklmnopqrstuu".

(** A password of 74 characters, each of one byte. *)
Definition sample_long_password : string :=
  "correct horse battery staple! correct horse battery staple! correct horse!".

Definition sample_env (now : Z) (key : UUID) : Env :=
  {| utcnow := now; uuid4 := key; gensalt := sample_salt |}.

Definition sample_idinfo (subject email : string) : IdInfo := {|
  iss := Some "https://accounts.google.com";
  g_email := Some email;
  g_sub := Some subject;
  g_name := Some "Alice";
  g_picture := None;
  g_given_name := Some "Alice";
  g_family_name := None;
  g_email_verified := Some true;
  g_locale := None
|}.

(** A verifier that knows two Google identities presenting one address,
    and the first of them again after it changed its address. *)
Definition sample_verifier (id_token audience : string) : outcome IdInfo :=
  if String.eqb id_token "id-token-1"
  then Return (sample_idinfo "google-subject-1" "alice@example.com")
  else if String.eqb id_token "id-token-2"
  then Return (sample_idinfo "google-subject-2" "alice@example.com")
  else if String.eqb id_token "id-token-3"
  then Return (sample_idinfo "google-subject-1" "alice@new.example")
  else Raise (ValueError "Wrong number of segments in token").

(** The database after one registration at second 1000. *)
Definition sample_registration : outcome TokenResponse * Db :=
  AuthService.register sample_settings sample_digest (sample_env 1000 17%N)
    "Alice@Example.com" "correct horse!" None None empty_db.

Definition sample_user : User.t :=
  User.mk 17%N "alice@example.com"
    (Some "$2b$12$abcdefghijklmnopqrstuu!esroh tcerroc") false true None.

(** The payload of the refresh token that registration minted. *)
Definition sample_refresh_payload : claims :=
  <["type" := JStr "refresh"]>
    (<["exp" := JNum 605800]>
       (<["sub" := JStr "00000000-0000-0000-0000-000000000011"]> ∅)).

Definition sample_access_payload : claims :=
  <["type" := JStr "access"]>
    (<["exp" := JNum 2800]>
       (<["sub" := JStr "00000000-0000-0000-0000-000000000011"]> ∅)).

Definition sample_refresh_token : token :=
  create_refresh_token sample_settings 1000 (SubjectUUID 17%N) None.

Definition sample_access_token : token :=
  create_access_token sample_settings 1000 (SubjectUUID 17%N) None None.

(** A deactivated account that signs in with Google. *)
Definition sample_inactive_user : User.t :=
  User.mk 17%N "alice@example.com" None true false None.

Definition sample_inactive_db : Db := with_users [sample_inactive_user] empty_db.

(** A deactivated account that has a password. *)
Definition sample_inactive_password_user : User.t :=
  User.mk 17%N "alice@example.com"
    (Some "$2b$12$abcdefghijklmnopqrstuu!esroh tcerroc") true false None.

Definition sample_google_user (subject : string) : GoogleUser := {|
  gu_email := Some "alice@example.com";
  gu_sub := Some subject;
  gu_name := Some "Alice";
  gu_picture := None;
  gu_given_name := Some "Alice";
  gu_family_name := None;
  gu_email_verified := true;
  gu_locale := None
|}.

(** The first of them after it changed its address. *)
Definition sample_moved_google_user : GoogleUser := {|
  gu_email := Some "alice@new.example";
  gu_sub := Some "google-subject-1";
  gu_name := Some "Alice";
  gu_picture := None;
  gu_given_name := Some "Alice";
  gu_family_name := None;
  gu_email_verified := true;
  gu_locale := None
|}.

(** The database after a first Google login created and linked an
    account. *)
Definition sample_google_login : outcome TokenResponse * Db :=
  AuthService.google_login sample_settings sample_verifier
    (sample_env 1000 17%N) "id-token-1" None None empty_db.

(** The same Google subject signs in again under a new address. *)
Definition sample_moved_login : outcome TokenResponse * Db :=
  AuthService.google_login sample_settings sample_verifier
    (sample_env 2000 18%N) "id-token-3" None None sample_google_login.2.

Definition sample_google_account : User.t :=
  User.mk 17%N "alice@example.com" None true true (Some 1000).

(** A catalogue and an onboarding request. *)
Definition sample_catalogue : Db :=
  mkDb [] [] [] []
    [Archetype.mk 1%N "Explorer"] [LifeMode.mk 2%N "Growth"]
    [LifeArea.mk 3%N "Mind" true; LifeArea.mk 4%N "Body" true] [].

Definition sample_onboarding : OnboardingRequest := {|
  req_player_name := "alice";
  req_archetype_id := 1%N;
  req_life_mode_id := 2%N;
  req_life_area_ids := [3%N; 4%N];
  req_avatar_url := None;
  req_bio := Some "hello";
  req_timezone := "UTC"
|}.

(** The database after the sample onboarding at second 1000, the profile
    it stored (locked until thirty days later), and requests of the
    onboarded user. *)
Definition sample_onboarded : outcome OnboardingResponse * Db :=
  ProfileService.complete_onboarding (sample_env 1000 1%N) 17%N
    sample_onboarding sample_catalogue.

Definition sample_profile : UserProfile.t :=
  UserProfile.mk 17%N "alice" (Some 1%N) (Some 2%N) 1 0 None (Some "hello")
    "UTC" (Some 2593000) true.

Definition sample_rename : ProfileUpdateRequest := {|
  upd_player_name := Some "alice the second";
  upd_avatar_url := None;
  upd_bio := None;
  upd_timezone := Some "Europe/Paris"
|}.

Definition sample_new_profile (player_name : string) : ProfileCreateRequest := {|
  new_player_name := player_name;
  new_archetype_id := 1%N;
  new_life_mode_id := 2%N;
  new_avatar_url := None;
  new_bio := None;
  new_timezone := "UTC"
|}.

(** ** Sequences of requests

    A request is handled in one transaction: when the call raises, the
    transaction is rolled back or not ([rollback]); both are covered. *)

Inductive request : Type :=
  | Register (env : Env) (email password : string)
      (device_info ip_address : option string)
  | Login (env : Env) (email password : string)
      (device_info ip_address : option string)
  | RefreshTokens (env : Env) (refresh_token : token)
      (device_info ip_address : option string)
  | Logout (session_token : token)
  | LogoutAll (user_id : UUID)
  | GoogleLogin (env : Env) (id_token : string)
      (device_info ip_address : option string).

Definition request_env (r : request) : option Env :=
  match r with
  | Register env _ _ _ _ | Login env _ _ _ _ | RefreshTokens env _ _ _
  | GoogleLogin env _ _ _ => Some env
  | Logout _ | LogoutAll _ => None
  end.

(** The keys drawn for new rows are 128-bit. *)
Definition request_ok (r : request) : Prop :=
  match request_env r with
  | Some env => uuid_wf (uuid4 env)
  | None => True
  end.

Definition settle {A} (rollback : bool) (db : Db) (r : outcome A * Db) : Db :=
  match r with
  | (Return _, db') => db'
  | (Raise _, db') => if rollback then db else db'
  end.

Section Requests.
Context (settings : Settings).
Context (bcrypt_digest : string -> string -> string).
Context (verify_oauth2_token : string -> string -> outcome IdInfo).
Context (rollback : bool).

Definition handle (r : request) (db : Db) : Db :=
  match r with
  | Register env email password device_info ip_address =>
      settle rollback db
        (AuthService.register settings bcrypt_digest env email password
           device_info ip_address db)
  | Login env email password device_info ip_address =>
      settle rollback db
        (AuthService.login settings bcrypt_digest env email password
           device_info ip_address db)
  | RefreshTokens env t device_info ip_address =>
      settle rollback db
        (AuthService.refresh_tokens settings env t device_info ip_address db)
  | Logout t => settle rollback db (AuthService.logout t db)
  | LogoutAll user_id =>
      settle rollback db (AuthService.logout_all user_id db)
  | GoogleLogin env id_token device_info ip_address =>
      settle rollback db
        (AuthService.google_login settings verify_oauth2_token env id_token
           device_info ip_address db)
  end.

Definition serve (requests : list request) (db : Db) : Db :=
  fold_left (fun db r => handle r db) requests db.
End Requests.

(** ** [app/core/security.py]: the password policy

    [PASSWORD_PATTERN] is written in the fragment of Python's [re] syntax
    it uses; the matcher follows the [re] semantics of that fragment
    without flags: [.] is any character but a newline, [$] holds at the
    end of the string and just before a newline that ends it, [^] holds
    at the start only. A string is the sequence of its characters (the
    code points below 256). *)

Definition newline : ascii := ascii_of_N 10.

Inductive atom : Type :=
  | AnyChar                      (* .      *)
  | CharSet (chars : string).    (* [...]  *)

Inductive item : Type :=
  | Bol                          (* ^      *)
  | Eol                          (* $      *)
  | One (a : atom)
  | AtLeast (n : nat) (a : atom). (* a{n,}, and a* for n = 0 *)

Inductive regex_part : Type :=
  | Item (i : item)
  | Lookahead (body : list item). (* (?=...) *)

Definition atom_matches (a : atom) (c : ascii) : bool :=
  match a with
  | AnyChar => negb (Ascii.eqb c newline)
  | CharSet chars => bool_decide (c ∈ list_ascii_of_string chars)
  end.

(** A continuation takes what is left of the input and whether that is
    still the whole input. *)
Fixpoint at_least (a : atom) (k : bool -> list ascii -> bool) (n : nat)
    (at_start : bool) (s : list ascii) {struct s} : bool :=
  match n with
  | O =>
      k at_start s
      || match s with
         | c :: s' => atom_matches a c && at_least a k O false s'
         | [] => false
         end
  | S n' =>
      match s with
      | c :: s' => atom_matches a c && at_least a k n' false s'
      | [] => false
      end
  end.

Definition item_match (i : item) (k : bool -> list ascii -> bool)
    (at_start : bool) (s : list ascii) : bool :=
  match i with
  | Bol => at_start && k at_start s
  | Eol => (bool_decide (s = []) || bool_decide (s = [newline])) && k at_start s
  | One a =>
      match s with
      | c :: s' => atom_matches a c && k false s'
      | [] => false
      end
  | AtLeast n a => at_least a k n at_start s
  end.

Definition accept : bool -> list ascii -> bool := fun _ _ => true.

Definition part_match (p : regex_part) (k : bool -> list ascii -> bool)
    (at_start : bool) (s : list ascii) : bool :=
  match p with
  | Item i => item_match i k at_start s
  | Lookahead body => foldr item_match accept body at_start s && k at_start s
  end.

(** [pattern.match(s)]: a match that begins at the start of [s]. *)
Definition re_match (pattern : list regex_part) (s : string) : bool :=
  foldr part_match accept pattern true (list_ascii_of_string s).

Definition special_characters : string :=
  "!@#$%^&*(),.?" ++ String (ascii_of_N 34) ":{}|<>".

(** The pattern of the source: [^], a lookahead [(?=...)] holding
    [.*] and the class of the special characters, then [.{8,}] and [$]. *)
Definition PASSWORD_PATTERN : list regex_part :=
  [Item Bol;
   Lookahead [AtLeast 0 AnyChar; One (CharSet special_characters)];
   Item (AtLeast 8 AnyChar);
   Item Eol].

Definition validate_password (password : string) : bool * option string :=
  if (String.length password <? 8)%nat
  then (false, Some "Password must be at least 8 characters long")
  else if negb (re_match PASSWORD_PATTERN password)
  then (false,
        Some ("Password must contain at least one special character ("
              ++ special_characters ++ ")"))
  else (true, None).

(** ** [app/api/deps.py]: the authenticated-user dependency

    A header value reaches the dependency decoded as Latin-1, so its
    characters are below 256; on those, [str.lower] gives "bearer" exactly
    when lower-casing the ASCII letters does. *)

(** What a dependency hands to the framework: a value, an
    [HTTPException], or an exception it did not catch. *)
Inductive http (A : Type) : Type :=
  | Ok (a : A)
  | HTTPException (status_code : Z) (detail : string)
      (headers : list (string * string))
  | Uncaught (e : exn).
Arguments Ok {A} a.
Arguments HTTPException {A} status_code detail headers.
Arguments Uncaught {A} e.

(** [str.isspace] on the characters below 256. *)
Definition isspace (c : ascii) : bool :=
  let n := N_of_ascii c in
  (((9 <=? n) && (n <=? 13)) || ((28 <=? n) && (n <=? 32))
   || (n =? 133) || (n =? 160))%N.

(** [str.split()]: the maximal runs of characters that are not white
    space; [word] is the run being read, in reverse. *)
Fixpoint split_words (word : list ascii) (s : list ascii)
    : list (list ascii) :=
  match s with
  | [] => match word with [] => [] | _ => [rev word] end
  | c :: s' =>
      if isspace c
      then match word with
           | [] => split_words [] s'
           | _ => rev word :: split_words [] s'
           end
      else split_words (c :: word) s'
  end.

Definition split (s : string) : list string :=
  string_of_list_ascii <$> split_words [] (list_ascii_of_string s).

(** Strings of white space only, and non-empty strings without any. *)
Definition blank (s : string) : Prop :=
  Forall (fun c => isspace c = true) (list_ascii_of_string s).

Definition word (s : string) : Prop :=
  s <> "" /\ Forall (fun c => isspace c = false) (list_ascii_of_string s).

Global Instance blank_dec s : Decision (blank s).
Proof. unfold blank. apply _. Defined.
Global Instance word_dec s : Decision (word s).
Proof. unfold word. apply _. Defined.

Module Deps.
Section Deps.
Context (settings : Settings).
(** The token a header value denotes: its reading as a compact JWS. *)
Context (token_of : string -> token).

Definition challenge : list (string * string) :=
  [("WWW-Authenticate", "Bearer")].

Definition get_current_user (env : Env) (authorization : option string)
    (db : Db) : http User.t * Db :=
  if negb (nonempty authorization)
  then (HTTPException 401 "Missing authorization header" challenge, db)
  else
    let parts := split (default "" authorization) in
    if negb (length parts =? 2)%nat
       || negb (String.eqb (lower (nth 0 parts "")) "bearer")
    then (HTTPException 401 "Invalid authorization header format" challenge,
          db)
    else
      let token := nth 1 parts "" in
      match AuthService.get_current_user settings env (token_of token) db with
      | (Return user, db') => (Ok user, db')
      | (Raise (InvalidTokenError message), db') =>
          (HTTPException 401 message challenge, db')
      | (Raise (UserNotFoundError message), db') =>
          (HTTPException 401 message challenge, db')
      | (Raise e, db') => (Uncaught e, db')
      end.
End Deps.
End Deps.

(** What the dependency makes of the service's answer for the token a
    well-formed header carries. *)
Definition bearer_answer (settings : Settings) (token_of : string -> token)
    (env : Env) (tok : string) (db : Db) : http User.t * Db :=
  match AuthService.get_current_user settings env (token_of tok) db with
  | (Return user, db') => (Ok user, db')
  | (Raise (InvalidTokenError message), db') =>
      (HTTPException 401 message Deps.challenge, db')
  | (Raise (UserNotFoundError message), db') =>
      (HTTPException 401 message Deps.challenge, db')
  | (Raise e, db') => (Uncaught e, db')
  end.

(** * Proofs *)

Ltac by_compute := apply (bool_decide_unpack _); vm_compute; exact I.

(** *** Strings *)

Lemma strip_prefix_elem (old s rest : list ascii) (c : ascii) :
  strip_prefix old s = Some rest -> c ∈ old -> c ∈ s.
Proof.
  revert s. induction old as [|a old IH]; intros s H Hc.
  - now apply elem_of_nil in Hc.
  - destruct s as [|b s]; [discriminate|]. cbn in H.
    destruct (Ascii.eqb a b) eqn:Hab; [|discriminate].
    apply Ascii.eqb_eq in Hab as ->.
    apply elem_of_cons in Hc as [->|Hc]; [apply list_elem_of_here|].
    apply list_elem_of_further. now apply IH.
Qed.

(** Nothing is removed from a string that misses a character of [old]. *)
Lemma removed_absent (c : ascii) (steps : nat) (old s : list ascii) :
  c ∈ old -> c ∉ s -> removed steps old s = s.
Proof.
  intros Hc. revert s. induction steps as [|steps IH]; intros s Hs;
    [reflexivity|]. cbn.
  destruct (strip_prefix old s) as [rest|] eqn:Hp.
  - exfalso. apply Hs. eapply strip_prefix_elem; eassumption.
  - destruct s as [|a s]; [reflexivity|]. f_equal. apply IH.
    intros H. apply Hs. now apply list_elem_of_further.
Qed.

Lemma remove_absent (c : ascii) (old s : string) :
  c ∈ list_ascii_of_string old -> c ∉ list_ascii_of_string s ->
  remove old s = s.
Proof.
  intros Hc Hs. unfold remove. rewrite (removed_absent c) by assumption.
  apply string_of_list_ascii_of_string.
Qed.

(** Removing a one-character string filters the character out. *)
Lemma removed_char (c : ascii) (steps : nat) (s : list ascii) :
  (length s <= steps)%nat ->
  removed steps [c] s = List.filter (fun d => negb (Ascii.eqb c d)) s.
Proof.
  revert s. induction steps as [|steps IH]; intros s Hs.
  - destruct s; [reflexivity|cbn in Hs; lia].
  - destruct s as [|d s]; [reflexivity|]. cbn in Hs. cbn.
    destruct (Ascii.eqb c d); cbn; [|f_equal]; apply IH; lia.
Qed.

Lemma lstrip_head (chars : ascii -> bool) (s : list ascii) :
  Forall (fun c => chars c = false) s -> lstrip chars s = s.
Proof. intros H. destruct H as [|c s Hc _]; cbn; [reflexivity|now rewrite Hc]. Qed.

Lemma strip_none (chars : ascii -> bool) (s : list ascii) :
  Forall (fun c => chars c = false) s -> strip chars s = s.
Proof.
  intros H. unfold strip. rewrite (lstrip_head _ s H).
  rewrite lstrip_head by (now apply Forall_rev). apply rev_involutive.
Qed.

Lemma length_list_ascii_of_string (s : string) :
  length (list_ascii_of_string s) = String.length s.
Proof. induction s as [|c s IH]; cbn; [reflexivity|now rewrite IH]. Qed.

Lemma length_string_of_list_ascii (l : list ascii) :
  String.length (string_of_list_ascii l) = length l.
Proof. induction l as [|c l IH]; cbn; [reflexivity|now rewrite IH]. Qed.

(** *** Hexadecimal digits and the UUID round trip *)

Lemma hex_digit_elem (d : N) :
  hex_digit d ∈ list_ascii_of_string "0123456789abcdef".
Proof.
  destruct (N.lt_ge_cases d 16) as [H|H].
  - destruct d as [|p]; [by_compute|].
    repeat (destruct p as [p|p|]; try lia; try by_compute).
  - unfold hex_digit. rewrite nth_overflow by (simpl length; lia). by_compute.
Qed.

Lemma hex_of_digits (k : nat) (n : N) :
  Forall (fun c => c ∈ list_ascii_of_string "0123456789abcdef") (hex_of k n).
Proof.
  revert n. induction k as [|k IH]; intros n; cbn [hex_of].
  - constructor.
  - apply Forall_app. split; [apply IH|].
    constructor; [apply hex_digit_elem|constructor].
Qed.

Lemma length_hex_of (k : nat) (n : N) : length (hex_of k n) = k.
Proof.
  revert n. induction k as [|k IH]; intros n; [reflexivity|].
  cbn [hex_of]. rewrite length_app, IH. simpl. lia.
Qed.

(** A property of the digits and of the dash holds of the dashed text. *)
Lemma Forall_dashed (P : ascii -> Prop) (l : list ascii) :
  Forall P l -> P dash -> Forall P (dashed l).
Proof.
  intros Hl Hd. unfold dashed.
  repeat first [apply Forall_app; split | apply Forall_cons; split
               | apply Forall_take | apply Forall_drop | assumption].
Qed.

Lemma filter_all_true {A} (f : A -> bool) (l : list A) :
  Forall (fun x => f x = true) l -> List.filter f l = l.
Proof.
  induction 1 as [|x l Hx _ IH]; cbn; [reflexivity|]. now rewrite Hx, IH.
Qed.

Lemma undash_dashed (l : list ascii) :
  Forall (fun c => negb (Ascii.eqb dash c) = true) l ->
  List.filter (fun c => negb (Ascii.eqb dash c)) (dashed l) = l.
Proof.
  intros H. unfold dashed.
  assert (forall a b : list ascii,
             Forall (fun c => negb (Ascii.eqb dash c) = true) a ->
             List.filter (fun c => negb (Ascii.eqb dash c)) (a ++ dash :: b)
             = (a ++ List.filter (fun c => negb (Ascii.eqb dash c)) b)%list)
    as Hcut.
  { intros a b Ha. rewrite List.filter_app, (filter_all_true _ a Ha).
    reflexivity. }
  rewrite !Hcut by (repeat first [apply Forall_take | apply Forall_drop];
                    exact H).
  rewrite filter_all_true by (now apply Forall_drop).
  replace (drop 20 l) with (drop 4 (drop 16 l)) by now rewrite drop_drop.
  rewrite take_drop.
  replace (drop 16 l) with (drop 4 (drop 12 l)) by now rewrite drop_drop.
  rewrite take_drop.
  replace (drop 12 l) with (drop 4 (drop 8 l)) by now rewrite drop_drop.
  rewrite take_drop.
  apply take_drop.
Qed.

(** The digits of a run of hexadecimal digits, read in base 16. *)
Lemma int_digits_hex (l : list ascii) (value : N) (count : nat) :
  Forall (fun c => c ∈ list_ascii_of_string "0123456789abcdef") l ->
  exists n, int_digits 16 l value count = Some (n, (count + length l)%nat).
Proof.
  intros H. revert value count.
  induction H as [|c l Hc _ IH]; intros value count.
  - eexists. cbn. now rewrite Nat.add_0_r.
  - assert (Ascii.eqb c underscore = false
            /\ exists d, digit_value c = Some d /\ (d <? 16)%N = true)
      as (Hu & d & Hd & Hlt).
    { repeat (apply elem_of_cons in Hc as [->|Hc];
              [split; [reflexivity|eexists; split; reflexivity]|]).
      now apply elem_of_nil in Hc. }
    cbn [int_digits]. rewrite Hu, Hd, Hlt.
    destruct (IH (value * 16 + d)%N (S count)) as [n Hn].
    exists n. rewrite Hn. do 2 f_equal. cbn. lia.
Qed.

Lemma int_digits_snoc (l : list ascii) (c : ascii) (value : N) (count : nat)
    (n : N) (k : nat) (d : N) :
  int_digits 16 l value count = Some (n, k) ->
  Forall (fun c => c ∈ list_ascii_of_string "0123456789abcdef") l ->
  digit_value c = Some d -> (d <? 16)%N = true ->
  Ascii.eqb c underscore = false ->
  int_digits 16 (l ++ [c]) value count = Some (n * 16 + d, S k)%N.
Proof.
  intros Hl Hall Hd Hlt Hu. revert value count Hl.
  induction Hall as [|a l Ha _ IH]; intros value count Hl.
  - cbn in Hl. injection Hl as <- <-. cbn. now rewrite Hu, Hd, Hlt.
  - assert (Ascii.eqb a underscore = false
            /\ exists e, digit_value a = Some e /\ (e <? 16)%N = true)
      as (Hau & e & He & Helt).
    { repeat (apply elem_of_cons in Ha as [->|Ha];
              [split; [reflexivity|eexists; split; reflexivity]|]).
      now apply elem_of_nil in Ha. }
    cbn [int_digits app] in *. rewrite Hau, He, Helt in *. now apply IH.
Qed.

Lemma digit_value_hex_digit (d : N) :
  (d < 16)%N ->
  digit_value (hex_digit d) = Some d
  /\ Ascii.eqb (hex_digit d) underscore = false.
Proof.
  intros H. destruct d as [|p]; [split; reflexivity|].
  repeat (destruct p as [p|p|]; try (split; reflexivity); try lia).
Qed.

Lemma int_digits_hex_of (k : nat) (n : N) :
  int_digits 16 (hex_of k n) 0 0 = Some (n mod 16 ^ N.of_nat k, k)%N.
Proof.
  revert n. induction k as [|k IH]; intros n.
  - cbn. now rewrite N.mod_1_r.
  - cbn [hex_of].
    destruct (digit_value_hex_digit (n mod 16)) as [Hd Hu];
      [apply N.mod_lt; lia|].
    rewrite (int_digits_snoc _ _ _ _ _ _ _ (IH _) (hex_of_digits _ _) Hd)
      by (try exact Hu; apply N.ltb_lt, N.mod_lt; lia).
    do 2 f_equal. rewrite Nat2N.inj_succ, N.pow_succ_r'.
    rewrite N.Div0.mod_mul_r. lia.
Qed.

(** [int(hex, 16)] on a run of lower-case hexadecimal digits. *)
Lemma python_int_hex_of (k : nat) (n : N) :
  k <> 0%nat ->
  python_int 16 (string_of_list_ascii (hex_of k n))
  = Some (Z.of_N (n mod 16 ^ N.of_nat k)).
Proof.
  intros Hk. unfold python_int.
  rewrite list_ascii_of_string_of_list_ascii.
  pose proof (hex_of_digits k n) as Hall.
  rewrite strip_none.
  2:{ eapply Forall_impl; [exact Hall|]. cbn. intros c Hc.
      repeat (apply elem_of_cons in Hc as [->|Hc]; [reflexivity|]).
      now apply elem_of_nil in Hc. }
  pose proof (int_digits_hex_of k n) as Hv.
  pose proof (length_hex_of k n) as Hlen.
  destruct (hex_of k n) as [|c l] eqn:Hl; [cbn in Hlen; congruence|].
  apply Forall_cons in Hall as [Hc Hall].
  assert (Ascii.eqb c "+" = false /\ Ascii.eqb c "-" = false
          /\ Ascii.eqb c underscore = false) as (-> & -> & Hu).
  { repeat (apply elem_of_cons in Hc as [->|Hc]; [repeat split|]).
    now apply elem_of_nil in Hc. }
  assert (int_unprefixed 16 (c :: l) = c :: l) as Hp.
  { destruct l as [|c1 l]; [reflexivity|].
    apply Forall_cons in Hall as [Hc1 _]. unfold int_unprefixed.
    replace (Ascii.eqb c1 "x" || Ascii.eqb c1 "X") with false;
      [now rewrite andb_false_r|].
    repeat (apply elem_of_cons in Hc1 as [->|Hc1]; [reflexivity|]).
    now apply elem_of_nil in Hc1. }
  unfold int_unsigned. rewrite Hp, Hu, Hv. reflexivity.
Qed.

Lemma UUID_parse_str (u : UUID) : uuid_wf u -> UUID_parse (uuid_str u) = Return u.
Proof.
  intros Hu. unfold UUID_parse, uuid_str.
  pose proof (hex_of_digits 32 u) as Hall.
  assert (forall c, c ∈ list_ascii_of_string ":{}" ->
                    c ∉ dashed (hex_of 32 u)) as Hout.
  { intros c Hc Hin.
    assert (Forall (fun c => c ∈ list_ascii_of_string "0123456789abcdef-")
              (dashed (hex_of 32 u))) as Hd.
    { apply Forall_dashed; [|by_compute].
      eapply Forall_impl; [exact Hall|]. cbn. intros a Ha.
      repeat (apply elem_of_cons in Ha as [->|Ha]; [by_compute|]).
      now apply elem_of_nil in Ha. }
    rewrite Forall_forall in Hd. apply Hd in Hin.
    repeat (apply elem_of_cons in Hin as [->|Hin];
            [revert Hc; apply (bool_decide_unpack _); vm_compute; exact I|]).
    now apply elem_of_nil in Hin. }
  rewrite (remove_absent ":" "urn:");
    [|by_compute
     |rewrite list_ascii_of_string_of_list_ascii; apply Hout; by_compute].
  rewrite (remove_absent ":" "uuid:");
    [|by_compute
     |rewrite list_ascii_of_string_of_list_ascii; apply Hout; by_compute].
  rewrite list_ascii_of_string_of_list_ascii.
  rewrite strip_none.
  2:{ apply Forall_forall. intros c Hc. unfold brace.
      apply orb_false_iff. split; apply Ascii.eqb_neq; intros ->;
        (eapply Hout; [|exact Hc]); by_compute. }
  unfold remove. rewrite length_string_of_list_ascii.
  rewrite list_ascii_of_string_of_list_ascii.
  change (list_ascii_of_string "-") with [dash].
  rewrite removed_char by reflexivity.
  rewrite undash_dashed.
  2:{ eapply Forall_impl; [exact Hall|]. cbn. intros a Ha.
      repeat (apply elem_of_cons in Ha as [->|Ha]; [reflexivity|]).
      now apply elem_of_nil in Ha. }
  rewrite length_hex_of.
  cbn [Nat.eqb negb]. rewrite python_int_hex_of by discriminate.
  change (16 ^ N.of_nat 32)%N with (2 ^ 128)%N.
  rewrite N.mod_small by exact Hu. unfold uuid_wf in Hu.
  replace (0 <=? Z.of_N u) with true by (symmetry; apply Z.leb_le; lia).
  replace (Z.of_N u <? 2 ^ 128) with true
    by (symmetry; apply Z.ltb_lt; change (2 ^ 128) with (Z.of_N (2 ^ 128)); lia).
  cbn [andb]. now rewrite N2Z.id.
Qed.

Lemma uuid_str_inj (u v : UUID) : uuid_wf u -> uuid_wf v -> uuid_str u = uuid_str v -> u = v.
Proof.
  intros Hu Hv H. apply UUID_parse_str in Hu, Hv. rewrite H in Hu. congruence.
Qed.

(** *** Tokens *)

Ltac map_lookups :=
  repeat (rewrite lookup_insert_eq
          || (rewrite lookup_insert_ne by discriminate)
          || rewrite lookup_empty).

Lemma Jws_inj alg key payload alg' key' payload' :
  Jws alg key payload = Jws alg' key' payload' ->
  alg = alg' /\ key = key' /\ payload = payload'.
Proof. intros H. inversion H. auto. Qed.

Lemma Some_JStr_inj (a b : string) : Some (JStr a) = Some (JStr b) -> a = b.
Proof. now intros [= ->]. Qed.

Lemma Some_JNum_inj (a b : Z) : Some (JNum a) = Some (JNum b) -> a = b.
Proof. now intros [= ->]. Qed.

Section TokenLemmas.
Context (settings : Settings).

Lemma jwt_decode_encode now payload key alg :
  claims_ok now payload = true ->
  jwt_decode now (jwt_encode payload key alg) key [alg] = Some payload.
Proof.
  intros He. unfold jwt_decode, jwt_encode.
  rewrite (bool_decide_eq_true_2 (alg ∈ [alg])) by apply list_elem_of_here.
  rewrite (bool_decide_eq_true_2 (key = key)) by reflexivity.
  now rewrite He.
Qed.

Lemma decode_token_Some now t payload :
  decode_token settings now t = Some payload ->
  t = Jws (JWT_ALGORITHM settings) (JWT_SECRET_KEY settings) payload
  /\ claims_ok now payload = true.
Proof.
  unfold decode_token, jwt_decode. destruct t as [s|alg k p]; [discriminate|].
  destruct (bool_decide (alg ∈ [JWT_ALGORITHM settings])) eqn:Ha; [|discriminate].
  destruct (bool_decide (k = JWT_SECRET_KEY settings)) eqn:Hk; [|discriminate].
  destruct (claims_ok now p) eqn:He; [|discriminate].
  simpl. intros [= <-].
  apply bool_decide_eq_true_1 in Ha, Hk.
  apply list_elem_of_singleton in Ha. subst. auto.
Qed.

Lemma decode_access_token now now' subj delta :
  now' <= expiry now delta (minutes (ACCESS_TOKEN_EXPIRE_MINUTES settings)) ->
  exists payload,
    decode_token settings now' (create_access_token settings now subj delta None)
      = Some payload
    /\ payload !! "sub" = Some (JStr (str_subject subj))
    /\ payload !! "type" = Some (JStr "access")
    /\ payload !! "exp"
         = Some (JNum (expiry now delta
                         (minutes (ACCESS_TOKEN_EXPIRE_MINUTES settings)))).
Proof.
  intros H. eexists. split; [|split; [|split]].
  - unfold decode_token, create_access_token. apply jwt_decode_encode.
    unfold claims_ok, iat_ok, nbf_ok, exp_ok, aud_ok, sub_ok, jti_ok,
      at_hash_ok. map_lookups. cbn [int_of_claim].
    rewrite bool_decide_eq_true_2 by reflexivity. cbn [andb].
    rewrite !andb_true_r. apply negb_true_iff, Z.ltb_ge. exact H.
  - now map_lookups.
  - now map_lookups.
  - now map_lookups.
Qed.

Lemma decode_refresh_token now now' subj delta :
  now' <= expiry now delta (days (REFRESH_TOKEN_EXPIRE_DAYS settings)) ->
  exists payload,
    decode_token settings now' (create_refresh_token settings now subj delta)
      = Some payload
    /\ payload !! "sub" = Some (JStr (str_subject subj))
    /\ payload !! "type" = Some (JStr "refresh")
    /\ payload !! "exp"
         = Some (JNum (expiry now delta
                         (days (REFRESH_TOKEN_EXPIRE_DAYS settings)))).
Proof.
  intros H. eexists. split; [|split; [|split]].
  - unfold decode_token, create_refresh_token. apply jwt_decode_encode.
    unfold claims_ok, iat_ok, nbf_ok, exp_ok, aud_ok, sub_ok, jti_ok,
      at_hash_ok. map_lookups. cbn [int_of_claim].
    rewrite bool_decide_eq_true_2 by reflexivity. cbn [andb].
    rewrite !andb_true_r. apply negb_true_iff, Z.ltb_ge. exact H.
  - now map_lookups.
  - now map_lookups.
  - now map_lookups.
Qed.
End TokenLemmas.

Section TokenTypeLemmas.
Context (settings : Settings).

Lemma token_type_refresh now now0 subj delta :
  decoded_type settings now (create_refresh_token settings now0 subj delta)
    <> Some (JStr "access").
Proof.
  unfold decoded_type.
  destruct (decode_token settings now _) as [payload|] eqn:Hd; [|discriminate].
  apply decode_token_Some in Hd as [Ht _].
  unfold create_refresh_token, jwt_encode in Ht.
  apply Jws_inj in Ht as (_ & _ & <-).
  map_lookups. discriminate.
Qed.

Lemma token_type_access now now0 subj delta :
  decoded_type settings now (create_access_token settings now0 subj delta None)
    <> Some (JStr "refresh").
Proof.
  unfold decoded_type.
  destruct (decode_token settings now _) as [payload|] eqn:Hd; [|discriminate].
  apply decode_token_Some in Hd as [Ht _].
  unfold create_access_token, jwt_encode in Ht.
  apply Jws_inj in Ht as (_ & _ & <-).
  map_lookups. discriminate.
Qed.

Lemma refresh_tokens_wrong_type env t device_info ip_address db :
  decoded_type settings (utcnow env) t <> Some (JStr "refresh") ->
  exists message,
    AuthService.refresh_tokens settings env t device_info ip_address db
      = (Raise (InvalidTokenError message), db).
Proof.
  unfold decoded_type, AuthService.refresh_tokens. intros H.
  destruct (decode_token settings (utcnow env) t) as [payload|];
    [|eexists; reflexivity].
  case_bool_decide; [eexists; reflexivity|].
  case_bool_decide; [eexists; reflexivity|].
  contradiction.
Qed.

Lemma get_current_user_wrong_type env t db :
  decoded_type settings (utcnow env) t <> Some (JStr "access") ->
  exists message,
    AuthService.get_current_user settings env t db
      = (Raise (InvalidTokenError message), db).
Proof.
  unfold decoded_type, AuthService.get_current_user. intros H.
  destruct (decode_token settings (utcnow env) t) as [payload|];
    [|eexists; reflexivity].
  case_bool_decide; [eexists; reflexivity|].
  case_bool_decide; [eexists; reflexivity|].
  contradiction.
Qed.
End TokenTypeLemmas.

(** Claim C1. Token types cannot be crossed at the consuming flows.
    A token whose decoded [type] claim is not ["refresh"] (a token that
    does not decode has none) makes [refresh_tokens] raise
    [InvalidTokenError] with the database untouched, so before any session
    is created; a token whose decoded [type] is not ["access"] makes
    [get_current_user] raise [InvalidTokenError], so it returns no user. In
    particular every refresh token minted by [create_refresh_token] is
    refused by [get_current_user], and every access token minted without
    extra claims is refused by [refresh_tokens]. *)
Theorem token_type_cross_use (settings : Settings) (env : Env) (t : token)
    (device_info ip_address : option string) (db : Db) :
  (decoded_type settings (utcnow env) t <> Some (JStr "refresh") ->
   exists message,
     AuthService.refresh_tokens settings env t device_info ip_address db
       = (Raise (InvalidTokenError message), db))
  /\ (decoded_type settings (utcnow env) t <> Some (JStr "access") ->
      exists message,
        AuthService.get_current_user settings env t db
          = (Raise (InvalidTokenError message), db))
  /\ (forall now0 subj delta,
        exists message,
          AuthService.get_current_user settings env
            (create_refresh_token settings now0 subj delta) db
            = (Raise (InvalidTokenError message), db))
  /\ (forall now0 subj delta,
        exists message,
          AuthService.refresh_tokens settings env
            (create_access_token settings now0 subj delta None)
            device_info ip_address db
            = (Raise (InvalidTokenError message), db)).
Proof.
  repeat split.
  - apply refresh_tokens_wrong_type.
  - apply get_current_user_wrong_type.
  - intros. apply get_current_user_wrong_type, token_type_refresh.
  - intros. apply refresh_tokens_wrong_type, token_type_access.
Qed.

(** Claim C2. Round trip of issuing and decoding. For every account id,
    the access token minted at [now] decodes, at any instant [now'] up to
    [now] plus the configured lifetime, to a payload whose subject is
    [str(id)] and whose type is ["access"]; likewise the refresh token,
    with type ["refresh"] and the refresh lifetime. *)
Theorem token_round_trip (settings : Settings) (now now' : Z) (id : UUID) :
  (now' <= now + minutes (ACCESS_TOKEN_EXPIRE_MINUTES settings) ->
   exists payload,
     decode_token settings now'
       (create_access_token settings now (SubjectUUID id) None None)
       = Some payload
     /\ payload !! "sub" = Some (JStr (uuid_str id))
     /\ payload !! "type" = Some (JStr "access"))
  /\ (now' <= now + days (REFRESH_TOKEN_EXPIRE_DAYS settings) ->
      exists payload,
        decode_token settings now'
          (create_refresh_token settings now (SubjectUUID id) None)
          = Some payload
        /\ payload !! "sub" = Some (JStr (uuid_str id))
        /\ payload !! "type" = Some (JStr "refresh")).
Proof.
  split; intros H.
  - destruct (decode_access_token settings now now' (SubjectUUID id) None H)
      as (payload & Hd & Hs & Ht & _).
    exists payload. auto.
  - destruct (decode_refresh_token settings now now' (SubjectUUID id) None H)
      as (payload & Hd & Hs & Ht & _).
    exists payload. auto.
Qed.

(** *** bcrypt: salts and the hash/verify round trip *)

Lemma substring_app_l (s t : string) (i n : nat) :
  (i + n <= String.length s)%nat ->
  substring i n (s ++ t) = substring i n s.
Proof.
  revert i n. induction s as [|c s IH]; intros i n H; simpl in H.
  - assert (i = 0%nat) by lia. assert (n = 0%nat) by lia. subst.
    simpl. now destruct t.
  - destruct i as [|i]; simpl.
    + destruct n as [|n]; [reflexivity|]. f_equal. apply IH. lia.
    + apply IH. lia.
Qed.

Lemma substring_all (s : string) : substring 0 (String.length s) s = s.
Proof. induction s as [|c s IH]; cbn; [reflexivity|now rewrite IH]. Qed.

Lemma string_app_assoc (a b c : string) : (a ++ b) ++ c = a ++ (b ++ c).
Proof.
  induction a as [|x a IH]; [reflexivity|].
  change (String x ((a ++ b) ++ c) = String x (a ++ (b ++ c))). now rewrite IH.
Qed.

Lemma fields_nonempty (sep : ascii) (s : string) :
  exists f fs, fields sep s = f :: fs.
Proof.
  induction s as [|c s (f & fs & IH)]; cbn; [eauto|].
  destruct (Ascii.eqb c sep); [eauto|]. rewrite IH. eauto.
Qed.

(** A field ends at the first separator. *)
Lemma fields_field (sep : ascii) (a b : string) :
  Forall (fun c => Ascii.eqb c sep = false) (list_ascii_of_string a) ->
  fields sep (a ++ String sep b) = a :: fields sep b.
Proof.
  induction a as [|c a IH]; intros H.
  - change (fields sep (String sep b) = EmptyString :: fields sep b).
    cbn [fields]. now rewrite Ascii.eqb_refl.
  - cbn in H. apply Forall_cons in H as [Hc H].
    change (fields sep (String c (a ++ String sep b))
            = String c a :: fields sep b).
    cbn [fields]. now rewrite Hc, IH.
Qed.

Lemma fields_head (sep : ascii) (a b : string) :
  Forall (fun c => Ascii.eqb c sep = false) (list_ascii_of_string a) ->
  exists f fs, fields sep (a ++ b) = (a ++ f) :: fs.
Proof.
  induction a as [|c a IH]; intros H.
  - apply fields_nonempty.
  - cbn in H. apply Forall_cons in H as [Hc H].
    destruct (IH H) as (f & fs & Hf). exists f, fs.
    change (fields sep (String c (a ++ b)) = String c (a ++ f) :: fs).
    cbn [fields]. now rewrite Hc, Hf.
Qed.

Lemma bcrypt_cost_two_digits (cost : N) :
  (4 <= cost <= 31)%N ->
  bcrypt_cost (two_digits cost) = Some cost
  /\ Forall (fun c => Ascii.eqb c "$" = false)
       (list_ascii_of_string (two_digits cost)).
Proof.
  intros H. destruct cost as [|p]; [lia|].
  repeat (destruct p as [p|p|]; try lia;
          try (split; [reflexivity|repeat constructor])).
Qed.

Lemma bcrypt_char_not_dollar (s : string) :
  forallb bcrypt_char (list_ascii_of_string s) = true ->
  Forall (fun c => Ascii.eqb c "$" = false) (list_ascii_of_string s).
Proof.
  intros H. apply Forall_forall. intros c Hc. apply list_elem_of_In in Hc.
  rewrite forallb_forall in H. apply H in Hc.
  apply Ascii.eqb_neq. intros ->. discriminate Hc.
Qed.

(** What [hashpw] writes in front of the digest is read back as itself. *)
Lemma bcrypt_salt_written (version salt22 rest : string) (cost : N) :
  version ∈ ["2y"; "2b"; "2a"; "2x"] -> (4 <= cost <= 31)%N ->
  bcrypt_salt22 salt22 = true ->
  bcrypt_salt ("$" ++ version ++ "$" ++ two_digits cost ++ "$" ++ salt22 ++ rest)
  = Some ("$" ++ version ++ "$" ++ two_digits cost ++ "$" ++ salt22).
Proof.
  intros Hv Hc Hs.
  destruct (bcrypt_cost_two_digits cost Hc) as [Hcost Hcd].
  pose proof Hs as Hs'. unfold bcrypt_salt22 in Hs'.
  apply andb_true_iff in Hs' as [Hs' _].
  apply andb_true_iff in Hs' as [Hlen Hchars]. apply Nat.eqb_eq in Hlen.
  destruct (fields_head "$" salt22 rest (bcrypt_char_not_dollar _ Hchars))
    as (f & fs & Hf).
  assert (Forall (fun c => Ascii.eqb c "$" = false)
            (list_ascii_of_string version)) as Hvd.
  { repeat (apply elem_of_cons in Hv as [->|Hv]; [repeat constructor|]).
    now apply elem_of_nil in Hv. }
  unfold bcrypt_salt.
  change ("$" ++ version ++ "$" ++ two_digits cost ++ "$" ++ salt22 ++ rest)
    with (String "$" (version ++ String "$"
                        (two_digits cost ++ String "$" (salt22 ++ rest)))).
  cbn [fields Ascii.eqb Bool.eqb]. cbv iota.
  rewrite (fields_field "$" version) by exact Hvd.
  rewrite (fields_field "$" (two_digits cost)) by exact Hcd.
  rewrite Hf, (bool_decide_eq_true_2 _ Hv), Hcost.
  rewrite substring_app_l by (rewrite Hlen; lia).
  replace (substring 0 22 salt22) with salt22
    by (rewrite <- Hlen; symmetry; apply substring_all).
  now rewrite Hs.
Qed.

Lemma bcrypt_salt_inv (s prefix : string) :
  bcrypt_salt s = Some prefix ->
  exists version cost salt22,
    prefix = "$" ++ version ++ "$" ++ two_digits cost ++ "$" ++ salt22
    /\ version ∈ ["2y"; "2b"; "2a"; "2x"] /\ (4 <= cost <= 31)%N
    /\ bcrypt_salt22 salt22 = true.
Proof.
  unfold bcrypt_salt.
  destruct (fields "$" s) as [|f0 [|version [|raw_cost [|remainder fs]]]];
    try discriminate.
  case_bool_decide as Hv; [|discriminate].
  destruct (bcrypt_cost raw_cost) as [cost|] eqn:Hc; [|discriminate].
  destruct (bcrypt_salt22 (substring 0 22 remainder)) eqn:Hs; [|discriminate].
  intros [= <-]. exists version, cost, (substring 0 22 remainder).
  split; [reflexivity|]. split; [exact Hv|]. split; [|exact Hs].
  unfold bcrypt_cost in Hc. case_match; [|discriminate].
  case_match eqn:Hr; [|discriminate]. injection Hc as <-.
  apply andb_true_iff in Hr as [H4 H31].
  apply N.leb_le in H4, H31. lia.
Qed.

Lemma bcrypt_salt_extend (s prefix rest : string) :
  bcrypt_salt s = Some prefix -> bcrypt_salt (prefix ++ rest) = Some prefix.
Proof.
  intros H. apply bcrypt_salt_inv in H
    as (version & cost & salt22 & -> & Hv & Hc & Hs).
  rewrite <- (bcrypt_salt_written version salt22 rest cost Hv Hc Hs).
  f_equal. now rewrite !string_app_assoc.
Qed.

Section BcryptLemmas.
Context (bcrypt_digest : string -> string -> string).

Lemma hash_password_inv salt password hashed :
  hash_password bcrypt_digest salt password = Return hashed ->
  (utf8_length password <= 72)%nat
  /\ exists prefix, bcrypt_salt salt = Some prefix
                    /\ hashed = prefix ++ bcrypt_digest prefix password.
Proof.
  unfold hash_password, bcrypt_hashpw.
  destruct (72 <? utf8_length password)%nat eqn:Hlen; [discriminate|].
  apply Nat.ltb_ge in Hlen.
  destruct (bcrypt_salt salt) as [prefix|] eqn:Hs; [|discriminate].
  intros [= <-]. eauto.
Qed.

Lemma verify_hashed salt password hashed :
  hash_password bcrypt_digest salt password = Return hashed ->
  verify_password bcrypt_digest password hashed = Return true.
Proof.
  intros H. apply hash_password_inv in H as (Hlen & prefix & Hs & ->).
  unfold verify_password, bcrypt_checkpw, bcrypt_hashpw.
  apply Nat.ltb_ge in Hlen. rewrite Hlen.
  rewrite (bcrypt_salt_extend _ _ _ Hs).
  now rewrite bool_decide_eq_true_2.
Qed.

Lemma verify_password_well_formed plain hashed :
  (utf8_length plain <= 72)%nat -> is_Some (bcrypt_salt hashed) ->
  exists b, verify_password bcrypt_digest plain hashed = Return b.
Proof.
  intros Hlen [prefix H]. apply Nat.ltb_ge in Hlen.
  unfold verify_password, bcrypt_checkpw, bcrypt_hashpw. rewrite Hlen, H.
  eexists. reflexivity.
Qed.


Lemma verify_password_too_long plain hashed :
  (72 < utf8_length plain)%nat ->
  exists message,
    verify_password bcrypt_digest plain hashed = Raise (ValueError message).
Proof.
  intros Hlen. apply Nat.ltb_lt in Hlen.
  unfold verify_password, bcrypt_checkpw, bcrypt_hashpw. rewrite Hlen.
  eexists. reflexivity.
Qed.

Lemma hash_password_too_long salt password :
  (72 < utf8_length password)%nat ->
  exists message,
    hash_password bcrypt_digest salt password = Raise (ValueError message).
Proof.
  intros Hlen. apply Nat.ltb_lt in Hlen.
  unfold hash_password, bcrypt_hashpw. rewrite Hlen.
  eexists. reflexivity.
Qed.

(** [verify_password] raises nothing but [ValueError]. *)
Lemma verify_password_cases plain hashed :
  (exists b, verify_password bcrypt_digest plain hashed = Return b)
  \/ (exists message,
        verify_password bcrypt_digest plain hashed
        = Raise (ValueError message)).
Proof.
  unfold verify_password, bcrypt_checkpw, bcrypt_hashpw.
  destruct (72 <? utf8_length plain)%nat; [right; eauto|].
  destruct (bcrypt_salt hashed); [left|right]; eauto.
Qed.

Lemma hash_password_Return salt password hashed :
  hash_password bcrypt_digest salt password = Return hashed ->
  is_Some (bcrypt_salt hashed).
Proof.
  intros H. apply hash_password_inv in H as (_ & prefix & Hs & ->).
  rewrite (bcrypt_salt_extend _ _ _ Hs). eauto.
Qed.

Lemma hash_password_ok salt password :
  (utf8_length password <= 72)%nat -> is_Some (bcrypt_salt salt) ->
  exists hashed, hash_password bcrypt_digest salt password = Return hashed
                 /\ is_Some (bcrypt_salt hashed).
Proof.
  intros Hlen [prefix H]. apply Nat.ltb_ge in Hlen.
  unfold hash_password, bcrypt_hashpw. rewrite Hlen, H.
  eexists. split; [reflexivity|]. rewrite (bcrypt_salt_extend _ _ _ H). eauto.
Qed.
End BcryptLemmas.



(** *** Selecting rows by a unique key *)

Section Select.
Context {A K : Type} `{EqDecision K} (f : A -> K).

Lemma select_none (k : K) (l : list A) :
  k ∉ f <$> l -> filter (fun x => f x = k) l = [].
Proof.
  induction l as [|a l IH]; intros Hk; [reflexivity|].
  rewrite fmap_cons, not_elem_of_cons in Hk. destruct Hk as [Hne Hk].
  rewrite filter_cons. case_decide; [congruence|]. now apply IH.
Qed.

Lemma select_one (x : A) (l : list A) :
  NoDup (f <$> l) -> x ∈ l -> filter (fun y => f y = f x) l = [x].
Proof.
  induction l as [|a l IH]; intros Hnd Hx; [now apply elem_of_nil in Hx|].
  rewrite fmap_cons in Hnd. apply NoDup_cons in Hnd as [Ha Hnd].
  rewrite filter_cons. apply elem_of_cons in Hx as [->|Hx].
  - rewrite decide_True by reflexivity. f_equal. now apply select_none.
  - rewrite decide_False; [now apply IH|].
    intros Heq. apply Ha. rewrite Heq. apply list_elem_of_fmap_2, Hx.
Qed.

Lemma select_cases (k : K) (l : list A) :
  NoDup (f <$> l) ->
  ((k ∉ f <$> l) /\ filter (fun x => f x = k) l = [])
  \/ (exists x, x ∈ l /\ f x = k /\ filter (fun y => f y = k) l = [x]).
Proof.
  intros Hnd. destruct (decide (k ∈ f <$> l)) as [Hin|Hout].
  - right. apply list_elem_of_fmap in Hin as (x & -> & Hx).
    exists x. split; [exact Hx|]. split; [reflexivity|]. now apply select_one.
  - left. split; [exact Hout|]. now apply select_none.
Qed.

Lemma filter_ne_absent (k : K) (l : list A) :
  k ∉ f <$> l -> filter (fun x => f x <> k) l = l.
Proof.
  induction l as [|a l IH]; intros Hk; [reflexivity|].
  rewrite fmap_cons, not_elem_of_cons in Hk. destruct Hk as [Hne Hk].
  rewrite filter_cons. rewrite decide_True by congruence.
  f_equal. now apply IH.
Qed.

Lemma filter_ne_gone (k : K) (l : list A) :
  k ∉ f <$> (filter (fun x => f x <> k) l).
Proof.
  intros Hin. apply list_elem_of_fmap in Hin as (x & -> & Hx).
  apply list_elem_of_filter in Hx as [Hx _]. now apply Hx.
Qed.
End Select.

(** *** The repository calls on a well-formed database *)

Ltac run := unfold mbind, M_bind, mret, M_ret, query, modify, raise, lift.

Lemma run_bind {A B} (m : M A) (k : A -> M B) (db : Db) :
  (m ≫= k) db
  = match m db with
    | (Return a, db') => k a db'
    | (Raise e, db') => (Raise e, db')
    end.
Proof. reflexivity. Qed.

Lemma with_user_sessions_id db : with_user_sessions (user_sessions db) db = db.
Proof. now destruct db. Qed.

Lemma with_users_id db : with_users (users db) db = db.
Proof. now destruct db. Qed.

Lemma get_by_email_found db (u : User.t) (email : string) :
  NoDup (User.email <$> users db) -> u ∈ users db ->
  User.email u = lower email ->
  UserRepository.get_by_email email db = (Return (Some u), db).
Proof.
  intros Hnd Hu He. unfold UserRepository.get_by_email.
  run. rewrite <- He. now rewrite (select_one User.email u) by assumption.
Qed.

Lemma get_by_email_missing db (email : string) :
  lower email ∉ User.email <$> users db ->
  UserRepository.get_by_email email db = (Return None, db).
Proof.
  intros H. unfold UserRepository.get_by_email. run.
  now rewrite (select_none User.email) by assumption.
Qed.

Lemma get_by_id_found db (u : User.t) :
  NoDup (User.id <$> users db) -> u ∈ users db ->
  UserRepository.get_by_id (User.id u) db = (Return (Some u), db).
Proof.
  intros Hnd Hu. unfold UserRepository.get_by_id. run.
  now rewrite (select_one User.id u) by assumption.
Qed.

Lemma get_by_id_missing db (user_id : UUID) :
  user_id ∉ User.id <$> users db ->
  UserRepository.get_by_id user_id db = (Return None, db).
Proof.
  intros H. unfold UserRepository.get_by_id. run.
  now rewrite (select_none User.id) by assumption.
Qed.

Lemma get_session_by_token_found db (s : UserSession.t) :
  sessions_ok db -> s ∈ user_sessions db ->
  UserRepository.get_session_by_token (UserSession.session_token s) db
    = (Return (Some s), db).
Proof.
  intros Hnd Hs. unfold UserRepository.get_session_by_token. run.
  now rewrite (select_one UserSession.session_token s) by assumption.
Qed.

Lemma get_session_by_token_missing db (t : token) :
  t ∉ UserSession.session_token <$> user_sessions db ->
  UserRepository.get_session_by_token t db = (Return None, db).
Proof.
  intros H. unfold UserRepository.get_session_by_token. run.
  now rewrite (select_none UserSession.session_token) by assumption.
Qed.

(** *** Logout *)

Lemma logout_absent (t : token) (db : Db) :
  t ∉ UserSession.session_token <$> user_sessions db ->
  AuthService.logout t db = (Return tt, db).
Proof.
  intros H. unfold AuthService.logout. run.
  now rewrite get_session_by_token_missing.
Qed.

Lemma logout_present (s : UserSession.t) (db : Db) :
  sessions_ok db -> s ∈ user_sessions db ->
  AuthService.logout (UserSession.session_token s) db
  = (Return tt,
     with_user_sessions
       (filter (fun x => UserSession.session_token x
                         <> UserSession.session_token s) (user_sessions db)) db).
Proof.
  intros Hok Hs. unfold AuthService.logout. run.
  now rewrite get_session_by_token_found.
Qed.

(** Claim C7. With unique session tokens, [logout] never fails: for
    every token it returns, having removed the session row keyed by the
    token and no other row; when no such row exists the database is
    unchanged; and a second [logout] with the same token returns and changes
    nothing more. *)
Theorem logout_never_fails (session_token : token) (db : Db) :
  sessions_ok db ->
  let db' :=
    with_user_sessions
      (filter (fun s => UserSession.session_token s <> session_token)
         (user_sessions db)) db in
  AuthService.logout session_token db = (Return tt, db')
  /\ (session_token ∉ UserSession.session_token <$> user_sessions db')
  /\ (session_token ∉ UserSession.session_token <$> user_sessions db -> db' = db)
  /\ AuthService.logout session_token db' = (Return tt, db').
Proof.
  intros Hok db'.
  assert (Hgone : session_token ∉ UserSession.session_token <$> user_sessions db').
  { subst db'. cbn [user_sessions with_user_sessions].
    apply (filter_ne_gone UserSession.session_token). }
  assert (Hsame : session_token ∉ UserSession.session_token <$> user_sessions db
                  -> db' = db).
  { intros Habs. subst db'.
    rewrite (filter_ne_absent UserSession.session_token) by assumption.
    apply with_user_sessions_id. }
  split; [|split; [exact Hgone|split; [exact Hsame|now apply logout_absent]]].
  destruct (select_cases UserSession.session_token session_token
              (user_sessions db) Hok) as [[Habs _]|(s & Hs & <- & _)].
  - rewrite (Hsame Habs). now apply logout_absent.
  - now apply logout_present.
Qed.

(** *** Resolving the current account *)

Section CurrentUser.
Context (settings : Settings).

Lemma truthy_JStr (s : string) : s <> "" -> truthy (Some (JStr s)) = true.
Proof.
  intros H. simpl. apply negb_true_iff, String.eqb_neq. exact H.
Qed.

(** Past the three token guards, the call is the account lookup. *)
Lemma get_current_user_lookup env t db payload s :
  decode_token settings (utcnow env) t = Some payload ->
  payload !! "type" = Some (JStr "access") ->
  payload !! "sub" = Some (JStr s) -> s <> "" ->
  AuthService.get_current_user settings env t db
  = match UUID_parse s with
    | Raise e => (Raise e, db)
    | Return user_id =>
        match UserRepository.get_by_id user_id db with
        | (Return None, db') => (Raise UserNotFoundError_, db')
        | (Return (Some user), db') =>
            if User.is_active user then (Return user, db')
            else (Raise (InvalidTokenError "Account is deactivated"), db')
        | (Raise e, db') => (Raise e, db')
        end
    end.
Proof.
  intros Hd Ht Hs Hne. unfold AuthService.get_current_user. rewrite Hd.
  assert (payload <> ∅) as Hp.
  { intros ->. rewrite lookup_empty in Ht. discriminate. }
  rewrite bool_decide_eq_false_2 by exact Hp.
  rewrite bool_decide_eq_false_2 by (intros H; now apply H).
  rewrite Hs, truthy_JStr by exact Hne. cbn [negb UUID_of_claim]. run.
  destruct (UUID_parse s) as [e|user_id]; [reflexivity|].
  destruct (UserRepository.get_by_id user_id db) as [[e|[user|]] db'];
    try reflexivity.
  now destruct (User.is_active user).
Qed.

Lemma get_current_user_no_subject env t db payload :
  decode_token settings (utcnow env) t = Some payload ->
  truthy (payload !! "sub") = false ->
  exists message,
    AuthService.get_current_user settings env t db
      = (Raise (InvalidTokenError message), db).
Proof.
  intros Hd Hs. unfold AuthService.get_current_user. rewrite Hd, Hs.
  case_bool_decide; [eexists; reflexivity|].
  case_bool_decide; eexists; reflexivity.
Qed.
End CurrentUser.

(** Extra X23. The failures of [get_current_user], cause by cause. With
    unique primary keys it fails with [InvalidTokenError] when the token
    does not decode, when its type is not ["access"], or when its subject
    is missing or empty; when [uuid.UUID] reads the subject it fails with
    [UserNotFoundError] if no stored account has that id, with
    [InvalidTokenError] ("Account is deactivated") if the account's
    [is_active] is false, and returns the account otherwise; when
    [uuid.UUID] refuses the subject, its exception is what the call
    raises. In every case the database is untouched. *)
Theorem get_current_user_errors (settings : Settings) (env : Env) (t : token)
    (db : Db) :
  NoDup (User.id <$> users db) ->
  (decode_token settings (utcnow env) t = None ->
   AuthService.get_current_user settings env t db
     = (Raise InvalidTokenError_, db))
  /\ (decoded_type settings (utcnow env) t <> Some (JStr "access") ->
      exists message,
        AuthService.get_current_user settings env t db
          = (Raise (InvalidTokenError message), db))
  /\ (forall payload,
        decode_token settings (utcnow env) t = Some payload ->
        truthy (payload !! "sub") = false ->
        exists message,
          AuthService.get_current_user settings env t db
            = (Raise (InvalidTokenError message), db))
  /\ (forall payload s user_id,
        decode_token settings (utcnow env) t = Some payload ->
        payload !! "type" = Some (JStr "access") ->
        payload !! "sub" = Some (JStr s) -> s <> "" ->
        UUID_parse s = Return user_id ->
        ((user_id ∉ User.id <$> users db) ->
         AuthService.get_current_user settings env t db
           = (Raise UserNotFoundError_, db))
        /\ (forall user,
              user ∈ users db -> User.id user = user_id ->
              AuthService.get_current_user settings env t db
              = (if User.is_active user then Return user
                 else Raise (InvalidTokenError "Account is deactivated"), db)))
  /\ (forall payload s e,
        decode_token settings (utcnow env) t = Some payload ->
        payload !! "type" = Some (JStr "access") ->
        payload !! "sub" = Some (JStr s) -> s <> "" ->
        UUID_parse s = Raise e ->
        AuthService.get_current_user settings env t db = (Raise e, db)).
Proof.
  intros Hnd. split; [|split; [|split; [|split]]].
  - intros Hd. unfold AuthService.get_current_user. now rewrite Hd.
  - apply get_current_user_wrong_type.
  - intros payload. apply get_current_user_no_subject.
  - intros payload s user_id Hd Ht Hs Hne Hu.
    rewrite (get_current_user_lookup settings env t db payload s) by assumption.
    rewrite Hu. split.
    + intros Habs. now rewrite get_by_id_missing.
    + intros user Hin <-. rewrite get_by_id_found by assumption.
      now destruct (User.is_active user).
  - intros payload s e Hd Ht Hs Hne Hu.
    rewrite (get_current_user_lookup settings env t db payload s) by assumption.
    now rewrite Hu.
Qed.

Lemma UUID_parse_raises (s : string) (e : exn) :
  UUID_parse s = Raise e -> exists message, e = ValueError message.
Proof.
  unfold UUID_parse. case_match; [intros [= <-]; eauto|].
  case_match; [|intros [= <-]; eauto].
  case_match; [discriminate|intros [= <-]; eauto].
Qed.


(** *** Minting a token pair and its session *)

Section Sessions.
Context (settings : Settings).

Lemma create_tokens_and_session_fresh env user device_info ip_address db :
  (create_refresh_token settings (utcnow env) (SubjectUUID (User.id user)) None
     ∉ UserSession.session_token <$> user_sessions db) ->
  AuthService._create_tokens_and_session settings env user device_info
    ip_address db
  = (Return (new_tokens settings env user),
     with_user_sessions
       (user_sessions db ++ [new_session settings env user device_info ip_address]) db).
Proof.
  intros H. unfold AuthService._create_tokens_and_session,
    UserRepository.create_session, UserRepository.add_session. run.
  cbn [UserSession.session_token].
  now rewrite bool_decide_eq_false_2 by exact H.
Qed.

Lemma create_tokens_and_session_stored env user device_info ip_address db :
  (create_refresh_token settings (utcnow env) (SubjectUUID (User.id user)) None
     ∈ UserSession.session_token <$> user_sessions db) ->
  AuthService._create_tokens_and_session settings env user device_info
    ip_address db
  = (Raise (IntegrityError "user_sessions.session_token"), db).
Proof.
  intros H. unfold AuthService._create_tokens_and_session,
    UserRepository.create_session, UserRepository.add_session. run.
  cbn [UserSession.session_token].
  now rewrite bool_decide_eq_true_2 by exact H.
Qed.

Lemma refresh_token_subject now now' (u v : UUID) :
  uuid_wf u -> uuid_wf v ->
  create_refresh_token settings now (SubjectUUID u) None
    = create_refresh_token settings now' (SubjectUUID v) None ->
  u = v /\ now = now'.
Proof.
  intros Hu Hv H. unfold create_refresh_token, jwt_encode in H.
  apply Jws_inj in H as (_ & _ & H).
  pose proof (f_equal (fun m => m !! "sub") H) as Hs.
  pose proof (f_equal (fun m => m !! "exp") H) as He.
  cbv beta in Hs, He. revert Hs He. map_lookups.
  intros Hs He. apply Some_JStr_inj in Hs. apply Some_JNum_inj in He.
  split.
  - now apply uuid_str_inj.
  - unfold expiry in He. lia.
Qed.

(** A key not yet in [users] has no stored refresh token. *)
Lemma unused_key_token_absent db now (key : UUID) :
  sessions_minted settings db ->
  Forall (fun u => uuid_wf (User.id u)) (users db) ->
  uuid_wf key -> (key ∉ User.id <$> users db) ->
  create_refresh_token settings now (SubjectUUID key) None
    ∉ UserSession.session_token <$> user_sessions db.
Proof.
  intros Hm Hwf Hk Hfresh Hin.
  apply list_elem_of_fmap in Hin as (s & Ht & Hs).
  unfold sessions_minted in Hm. rewrite Forall_forall in Hm.
  destruct (Hm s Hs) as [Hu Hmint]. unfold minted_for in Hmint.
  rewrite Hmint in Ht.
  assert (uuid_wf (UserSession.user_id s)) as Hwfs.
  { apply list_elem_of_fmap in Hu as (u & -> & Hu).
    rewrite Forall_forall in Hwf. now apply Hwf. }
  apply refresh_token_subject in Ht as [-> _]; [|assumption..].
  contradiction.
Qed.
End Sessions.

(** *** Registration *)

Lemma ascii_lower_idem (c : ascii) : ascii_lower (ascii_lower c) = ascii_lower c.
Proof. destruct c as [[] [] [] [] [] [] [] []]; reflexivity. Qed.

Lemma lower_idem (s : string) : lower (lower s) = lower s.
Proof.
  induction s as [|c s IH]; [reflexivity|].
  cbn [lower]. now rewrite ascii_lower_idem, IH.
Qed.

Lemma add_user_fresh (user : User.t) (db : Db) :
  (User.id user ∉ User.id <$> users db) ->
  (User.email user ∉ User.email <$> users db) ->
  UserRepository.add_user user db
  = (Return tt, with_users (users db ++ [user]) db).
Proof.
  intros Hi He. unfold UserRepository.add_user.
  rewrite bool_decide_eq_false_2 by exact Hi.
  now rewrite bool_decide_eq_false_2 by exact He.
Qed.

(** Under the stored-lower-case invariant, matching an address whatever
    its case is matching its lower-cased form. *)
Lemma email_taken_iff (db : Db) (email : string) :
  Forall (fun u => User.email u = lower (User.email u)) (users db) ->
  (exists u, u ∈ users db /\ lower (User.email u) = lower email)
  <-> lower email ∈ User.email <$> users db.
Proof.
  intros Hl. rewrite Forall_forall in Hl. split.
  - intros (u & Hu & He). rewrite <- He, <- (Hl u Hu).
    now apply list_elem_of_fmap_2.
  - intros Hin. apply list_elem_of_fmap in Hin as (u & He & Hu).
    exists u. split; [exact Hu|]. now rewrite <- He, lower_idem.
Qed.

Section Register.
Context (settings : Settings).
Context (bcrypt_digest : string -> string -> string).

Lemma register_existing env email password device_info ip_address db user :
  users_ok db -> user ∈ users db ->
  lower (User.email user) = lower email ->
  AuthService.register settings bcrypt_digest env email password
    device_info ip_address db
  = (Raise UserAlreadyExistsError_, db).
Proof.
  intros (_ & Hnd & Hl & _) Hu He. unfold AuthService.register. run.
  rewrite (get_by_email_found db user); [reflexivity|assumption..|].
  rewrite Forall_forall in Hl. now rewrite (Hl user Hu).
Qed.

Lemma register_new env email password device_info ip_address db :
  users_ok db -> sessions_minted settings db -> env_ok db env ->
  ~ (exists u, u ∈ users db /\ lower (User.email u) = lower email) ->
  (utf8_length password <= 72)%nat ->
  exists password_hash,
    hash_password bcrypt_digest (gensalt env) password = Return password_hash
    /\ let user := registered_user env email password_hash in
       AuthService.register settings bcrypt_digest env email password
         device_info ip_address db
       = (Return {| access_token := (new_tokens settings env user).1;
                    refresh_token := (new_tokens settings env user).2;
                    token_type := "bearer";
                    is_new_user := true |},
          with_user_sessions
            (user_sessions db
               ++ [new_session settings env user device_info ip_address])
            (with_users (users db ++ [user]) db)).
Proof.
  intros (Hid & Hnd & Hl & Hwf & _) Hm (Hk & Hfresh & Hsalt) Hnew Hlen.
  rewrite email_taken_iff in Hnew by exact Hl.
  destruct (hash_password_ok bcrypt_digest (gensalt env) password Hlen Hsalt)
    as (password_hash & Hh & _).
  exists password_hash. split; [exact Hh|]. cbv zeta.
  unfold AuthService.register. run.
  rewrite get_by_email_missing by exact Hnew. rewrite Hh.
  unfold UserRepository.create. run.
  rewrite add_user_fresh by assumption.
  rewrite create_tokens_and_session_fresh; [reflexivity|].
  cbn [User.id user_sessions with_users].
  now apply unused_key_token_absent.
Qed.

Lemma register_too_long env email password device_info ip_address db :
  Forall (fun u => User.email u = lower (User.email u)) (users db) ->
  ~ (exists u, u ∈ users db /\ lower (User.email u) = lower email) ->
  (72 < utf8_length password)%nat ->
  exists message,
    AuthService.register settings bcrypt_digest env email password
      device_info ip_address db
    = (Raise (ValueError message), db).
Proof.
  intros Hl Hnew Hlen. rewrite email_taken_iff in Hnew by exact Hl.
  destruct (hash_password_too_long bcrypt_digest (gensalt env) password Hlen)
    as [message Hh].
  exists message. unfold AuthService.register. run.
  rewrite get_by_email_missing by exact Hnew. now rewrite Hh.
Qed.
End Register.

(** Claim C4 as worded fails: a password of more than 72 bytes that the
    password policy accepts, for an address no account has, makes
    [register] raise bcrypt's [ValueError]; no account and no session
    are stored. *)
Lemma register_long_password :
  validate_password sample_long_password = (true, None)
  /\ (72 < utf8_length sample_long_password)%nat
  /\ exists message,
       AuthService.register sample_settings sample_digest
         (sample_env 1000 17%N) "alice@example.com" sample_long_password
         None None empty_db
       = (Raise (ValueError message), empty_db).
Proof.
  split; [reflexivity|]. split; [by_compute|]. eexists. reflexivity.
Qed.

(** Claim C4, amended. On a well-formed database, with a fresh key and
    the salt of [gensalt]: [register] raises [UserAlreadyExistsError],
    leaving the database as it was, whenever a stored account has the
    same address up to letter case; otherwise, for a password of at most
    72 bytes (in UTF-8), it inserts exactly one account, with the
    lower-cased address and [email_verified = false], and exactly one
    session row, and returns the minted pair with [is_new_user = true];
    for a longer password bcrypt's [ValueError] leaves [register] and the
    database is as it was. *)
Theorem register_spec (settings : Settings)
    (bcrypt_digest : string -> string -> string) (env : Env)
    (email password : string) (device_info ip_address : option string)
    (db : Db) :
  users_ok db -> sessions_minted settings db -> env_ok db env ->
  ((exists u, u ∈ users db /\ lower (User.email u) = lower email) ->
   AuthService.register settings bcrypt_digest env email password
     device_info ip_address db
   = (Raise UserAlreadyExistsError_, db))
  /\ (~ (exists u, u ∈ users db /\ lower (User.email u) = lower email) ->
      (utf8_length password <= 72)%nat ->
      exists password_hash,
        hash_password bcrypt_digest (gensalt env) password
          = Return password_hash
        /\ let user := registered_user env email password_hash in
           AuthService.register settings bcrypt_digest env email password
             device_info ip_address db
           = (Return {| access_token := (new_tokens settings env user).1;
                        refresh_token := (new_tokens settings env user).2;
                        token_type := "bearer";
                        is_new_user := true |},
              with_user_sessions
                (user_sessions db
                   ++ [new_session settings env user device_info ip_address])
                (with_users (users db ++ [user]) db))
           /\ User.email user = lower email
           /\ User.email_verified user = false)
  /\ (~ (exists u, u ∈ users db /\ lower (User.email u) = lower email) ->
      (72 < utf8_length password)%nat ->
      exists message,
        AuthService.register settings bcrypt_digest env email password
          device_info ip_address db
        = (Raise (ValueError message), db)).
Proof.
  intros Hu Hm He. split; [|split].
  - intros (u & Hin & Heq). now apply (register_existing _ _ _ _ _ _ _ _ u).
  - intros Hnew Hlen.
    destruct (register_new settings bcrypt_digest env email password
                device_info ip_address db Hu Hm He Hnew Hlen) as (h & Hh & Hr).
    exists h. split; [exact Hh|]. cbv zeta in *. rewrite Hr. auto.
  - intros Hnew Hlen. destruct Hu as (_ & _ & Hl & _).
    now apply register_too_long.
Qed.

(** *** Refreshing *)

Lemma scalar_one_or_none_frame {A} (rows : list A) db o db' :
  scalar_one_or_none rows db = (o, db') -> db' = db.
Proof.
  destruct rows as [|x [|y rows]]; cbn; now intros [= _ <-].
Qed.

Lemma get_by_id_frame user_id db o db' :
  UserRepository.get_by_id user_id db = (o, db') -> db' = db.
Proof. unfold UserRepository.get_by_id. run. apply scalar_one_or_none_frame. Qed.

Lemma get_by_id_sound user_id db user db' :
  UserRepository.get_by_id user_id db = (Return (Some user), db') ->
  user ∈ users db /\ User.id user = user_id.
Proof.
  unfold UserRepository.get_by_id. run.
  destruct (filter _ (users db)) as [|x [|y rows]] eqn:Hf; cbn; try discriminate.
  intros [= <- _].
  assert (x ∈ filter (fun u => User.id u = user_id) (users db)) as Hx
    by (rewrite Hf; apply list_elem_of_here).
  apply list_elem_of_filter in Hx. tauto.
Qed.

Section Refresh.
Context (settings : Settings).

Lemma create_tokens_and_session_cases env user device_info ip_address db :
  ((create_refresh_token settings (utcnow env)
      (SubjectUUID (User.id user)) None
      ∉ UserSession.session_token <$> user_sessions db)
   /\ AuthService._create_tokens_and_session settings env user device_info
        ip_address db
      = (Return (new_tokens settings env user),
         with_user_sessions
           (user_sessions db
              ++ [new_session settings env user device_info ip_address]) db))
  \/ AuthService._create_tokens_and_session settings env user device_info
       ip_address db
     = (Raise (IntegrityError "user_sessions.session_token"), db).
Proof.
  destruct (decide (create_refresh_token settings (utcnow env)
                      (SubjectUUID (User.id user)) None
                    ∈ UserSession.session_token <$> user_sessions db)).
  - right. now apply create_tokens_and_session_stored.
  - left. split; [assumption|]. now apply create_tokens_and_session_fresh.
Qed.

(** Past the three token guards, refreshing is the account lookup
    followed by the minting. *)
Lemma refresh_tokens_lookup env t device_info ip_address db payload s :
  decode_token settings (utcnow env) t = Some payload ->
  payload !! "type" = Some (JStr "refresh") ->
  payload !! "sub" = Some (JStr s) -> s <> "" ->
  AuthService.refresh_tokens settings env t device_info ip_address db
  = match UUID_parse s with
    | Raise e => (Raise e, db)
    | Return user_id =>
        match UserRepository.get_by_id user_id db with
        | (Return None, db') => (Raise InvalidTokenError_, db')
        | (Return (Some user), db') =>
            if User.is_active user then
              match AuthService._create_tokens_and_session settings env user
                      device_info ip_address db' with
              | (Return tokens, db'') =>
                  (Return (AuthService.response tokens false), db'')
              | (Raise e, db'') => (Raise e, db'')
              end
            else (Raise InvalidTokenError_, db')
        | (Raise e, db') => (Raise e, db')
        end
    end.
Proof.
  intros Hd Ht Hs Hne. unfold AuthService.refresh_tokens. rewrite Hd.
  assert (payload <> ∅) as Hp.
  { intros ->. rewrite lookup_empty in Ht. discriminate. }
  rewrite bool_decide_eq_false_2 by exact Hp.
  rewrite bool_decide_eq_false_2 by (intros H; now apply H).
  rewrite Hs, truthy_JStr by exact Hne. cbn [negb UUID_of_claim]. run.
  destruct (UUID_parse s) as [e|user_id]; [reflexivity|].
  destruct (UserRepository.get_by_id user_id db) as [[e|[user|]] db'];
    try reflexivity.
  now destruct (User.is_active user).
Qed.

(** Whatever is presented, the call leaves every stored row as it is
    and appends at most the one session of the pair it returns. *)
Lemma refresh_tokens_frame env t device_info ip_address db o db' :
  AuthService.refresh_tokens settings env t device_info ip_address db
    = (o, db') ->
  match o with
  | Return resp =>
      exists user,
        user ∈ users db /\ User.is_active user = true
        /\ (create_refresh_token settings (utcnow env)
              (SubjectUUID (User.id user)) None
              ∉ UserSession.session_token <$> user_sessions db)
        /\ resp = AuthService.response (new_tokens settings env user) false
        /\ db' = with_user_sessions
                   (user_sessions db
                      ++ [new_session settings env user device_info
                            ip_address]) db
  | Raise _ => db' = db
  end.
Proof.
  unfold AuthService.refresh_tokens.
  destruct (decode_token settings (utcnow env) t) as [payload|];
    [|now intros [= <- <-]].
  case_bool_decide; [now intros [= <- <-]|].
  case_bool_decide; [now intros [= <- <-]|].
  destruct (truthy (payload !! "sub")); [|now intros [= <- <-]].
  cbn [negb]. run.
  destruct (UUID_of_claim (payload !! "sub")) as [e|user_id];
    [now intros [= <- <-]|].
  destruct (UserRepository.get_by_id user_id db) as [[e|[user|]] db1] eqn:Hg;
    pose proof (get_by_id_frame _ _ _ _ Hg) as ->;
    try (now intros [= <- <-]).
  apply get_by_id_sound in Hg as [Hu _].
  destruct (User.is_active user) eqn:Ha; [|now intros [= <- <-]].
  cbn [negb].
  destruct (create_tokens_and_session_cases env user device_info ip_address db)
    as [[Hfresh ->] | ->]; intros [= <- <-]; [|reflexivity].
  exists user. auto.
Qed.

Lemma refresh_tokens_valid env t device_info ip_address db payload s user :
  NoDup (User.id <$> users db) ->
  decode_token settings (utcnow env) t = Some payload ->
  payload !! "type" = Some (JStr "refresh") ->
  payload !! "sub" = Some (JStr s) -> s <> "" ->
  UUID_parse s = Return (User.id user) ->
  user ∈ users db -> User.is_active user = true ->
  (create_refresh_token settings (utcnow env) (SubjectUUID (User.id user)) None
     ∉ UserSession.session_token <$> user_sessions db) ->
  AuthService.refresh_tokens settings env t device_info ip_address db
  = (Return (AuthService.response (new_tokens settings env user) false),
     with_user_sessions
       (user_sessions db
          ++ [new_session settings env user device_info ip_address]) db).
Proof.
  intros Hnd Hd Ht Hs Hne Hp Hu Ha Hfresh.
  rewrite (refresh_tokens_lookup env t _ _ db payload s) by assumption.
  rewrite Hp, get_by_id_found, Ha by assumption.
  now rewrite create_tokens_and_session_fresh.
Qed.
End Refresh.

(** *** Google login *)

Lemma get_auth_provider_select (provider provider_user_id : string) (db : Db) :
  UserRepository.get_auth_provider provider provider_user_id db
  = scalar_one_or_none
      (filter (fun a => link_key a = (provider, provider_user_id))
         (auth_providers db)) db.
Proof.
  unfold UserRepository.get_auth_provider. run. f_equal.
  apply list_filter_iff. intros a. unfold link_key. split.
  - now intros [-> ->].
  - now intros [= -> ->].
Qed.

Lemma get_auth_provider_missing (provider provider_user_id : string) db :
  ((provider, provider_user_id) ∉ link_key <$> auth_providers db) ->
  UserRepository.get_auth_provider provider provider_user_id db
  = (Return None, db).
Proof.
  intros H. rewrite get_auth_provider_select.
  now rewrite (select_none link_key) by assumption.
Qed.

Lemma get_auth_provider_unique (provider provider_user_id : string) db :
  link_unique db provider provider_user_id ->
  exists o,
    UserRepository.get_auth_provider provider provider_user_id db
      = (Return o, db)
    /\ (is_Some o <->
        (provider, provider_user_id) ∈ link_key <$> auth_providers db).
Proof.
  unfold link_unique. intros Hle. rewrite get_auth_provider_select.
  destruct (filter _ (auth_providers db)) as [|a [|b rows]] eqn:Hf.
  - exists None. split; [reflexivity|]. split; [now intros [? [=]]|].
    intros Hin. apply list_elem_of_fmap in Hin as (a & Hk & Ha).
    assert (a ∈ filter (fun a => link_key a = (provider, provider_user_id))
                  (auth_providers db)) as Hin
      by (apply list_elem_of_filter; auto).
    rewrite Hf in Hin. now apply elem_of_nil in Hin.
  - exists (Some a). split; [reflexivity|]. split; [|eauto].
    intros _.
    assert (a ∈ filter (fun a => link_key a = (provider, provider_user_id))
                  (auth_providers db)) as Hin
      by (rewrite Hf; apply list_elem_of_here).
    apply list_elem_of_filter in Hin as [Hk Ha]. rewrite <- Hk.
    now apply list_elem_of_fmap_2.
  - cbn [length] in Hle. lia.
Qed.

Lemma nonempty_Some (v : option string) :
  nonempty v = true -> exists s, v = Some s /\ s <> "".
Proof.
  destruct v as [s|]; [|discriminate]. simpl. intros H.
  exists s. split; [reflexivity|].
  now apply String.eqb_neq, negb_true_iff.
Qed.

Section GoogleLogin.
Context (settings : Settings).
Context (verify_oauth2_token : string -> string -> outcome IdInfo).

(** A verified identity whose address is an account's: the account is
    linked if this Google subject is not linked yet, its last login is
    stamped, and a pair is minted. The account's [is_active] flag is not
    consulted. *)
Lemma google_login_existing env id_token device_info ip_address db g user :
  users_ok db ->
  verify_google_token settings verify_oauth2_token id_token = Return g ->
  nonempty (gu_email g) = true -> nonempty (gu_sub g) = true ->
  link_unique db "google" (default "" (gu_sub g)) ->
  user ∈ users db ->
  User.email user = lower (default "" (gu_email g)) ->
  (create_refresh_token settings (utcnow env) (SubjectUUID (User.id user)) None
     ∉ UserSession.session_token <$> user_sessions db) ->
  AuthService.google_login settings verify_oauth2_token env id_token
    device_info ip_address db
  = (Return (AuthService.response (new_tokens settings env user) false),
     with_user_sessions
       (user_sessions db
          ++ [new_session settings env user device_info ip_address])
       (touch_user env user (google_linked user g db))).
Proof.
  intros (_ & Hnd & _) Hv He Hs Hl Hu Hmail Hfresh.
  unfold AuthService.google_login. run. rewrite Hv, He, Hs. cbn [negb orb].
  rewrite (get_by_email_found db user) by assumption.
  unfold google_linked.
  destruct (decide (("google", default "" (gu_sub g))
                      ∈ link_key <$> auth_providers db)) as [Hin|Hout].
  - destruct (get_auth_provider_unique _ _ db Hl) as (o & Hrun & Ho).
    rewrite Hrun. destruct (proj2 Ho Hin) as [a Ha]. rewrite Ha.
    unfold UserRepository.update_last_login. run.
    now rewrite create_tokens_and_session_fresh.
  - rewrite get_auth_provider_missing by exact Hout.
    unfold UserRepository.create_auth_provider,
      UserRepository.update_last_login. run.
    now rewrite create_tokens_and_session_fresh.
Qed.
End GoogleLogin.

Lemma uuid_str_nonempty (u : UUID) : uuid_wf u -> uuid_str u <> "".
Proof.
  intros Hu He. apply UUID_parse_str in Hu. rewrite He in Hu. discriminate.
Qed.

Section RefreshUsable.
Context (settings : Settings).

(** A refresh token minted for a stored, active account is accepted
    until it expires. *)
Lemma refresh_tokens_minted env now0 user device_info ip_address db :
  NoDup (User.id <$> users db) ->
  user ∈ users db -> User.is_active user = true -> uuid_wf (User.id user) ->
  utcnow env <= now0 + days (REFRESH_TOKEN_EXPIRE_DAYS settings) ->
  (create_refresh_token settings (utcnow env) (SubjectUUID (User.id user)) None
     ∉ UserSession.session_token <$> user_sessions db) ->
  AuthService.refresh_tokens settings env
    (create_refresh_token settings now0 (SubjectUUID (User.id user)) None)
    device_info ip_address db
  = (Return (AuthService.response (new_tokens settings env user) false),
     with_user_sessions
       (user_sessions db
          ++ [new_session settings env user device_info ip_address]) db).
Proof.
  intros Hnd Hu Ha Hwf Hexp Hfresh.
  destruct (decode_refresh_token settings now0 (utcnow env)
              (SubjectUUID (User.id user)) None Hexp)
    as (payload & Hd & Hs & Ht & _).
  apply (refresh_tokens_valid settings env _ _ _ db payload
           (uuid_str (User.id user)) user); try assumption.
  - now apply uuid_str_nonempty.
  - now apply UUID_parse_str.
Qed.
End RefreshUsable.

(** Claim C6, amended. Whatever token is presented, [refresh_tokens]
    deletes and modifies no row: a call that raises leaves the database as
    it was, and a call that returns has appended exactly one session row,
    the one of the refresh token it returns, to an otherwise unchanged
    database. For a valid refresh token (it decodes, its type is
    ["refresh"], its subject is the id of a stored active account) the call
    returns, provided the refresh token it mints is not already stored; the
    presented token and the new one are then both accepted again, under the
    same proviso, until they expire. *)
Theorem refresh_tokens_keeps_sessions (settings : Settings) (env : Env)
    (t : token) (device_info ip_address : option string) (db : Db) :
  (forall o db',
     AuthService.refresh_tokens settings env t device_info ip_address db
       = (o, db') ->
     match o with
     | Return resp =>
         exists user,
           user ∈ users db /\ User.is_active user = true
           /\ (create_refresh_token settings (utcnow env)
                 (SubjectUUID (User.id user)) None
                 ∉ UserSession.session_token <$> user_sessions db)
           /\ resp = AuthService.response (new_tokens settings env user) false
           /\ db' = with_user_sessions
                      (user_sessions db
                         ++ [new_session settings env user device_info
                               ip_address]) db
     | Raise _ => db' = db
     end)
  /\ (forall payload s user,
        NoDup (User.id <$> users db) ->
        decode_token settings (utcnow env) t = Some payload ->
        payload !! "type" = Some (JStr "refresh") ->
        payload !! "sub" = Some (JStr s) -> s <> "" ->
        UUID_parse s = Return (User.id user) ->
        user ∈ users db -> User.is_active user = true ->
        (create_refresh_token settings (utcnow env)
           (SubjectUUID (User.id user)) None
           ∉ UserSession.session_token <$> user_sessions db) ->
        let db' :=
          with_user_sessions
            (user_sessions db
               ++ [new_session settings env user device_info ip_address]) db in
        AuthService.refresh_tokens settings env t device_info ip_address db
          = (Return (AuthService.response (new_tokens settings env user) false),
             db')
        /\ (forall env',
              decode_token settings (utcnow env') t = Some payload ->
              (create_refresh_token settings (utcnow env')
                 (SubjectUUID (User.id user)) None
                 ∉ UserSession.session_token <$> user_sessions db') ->
              AuthService.refresh_tokens settings env' t device_info
                ip_address db'
              = (Return (AuthService.response (new_tokens settings env' user)
                           false),
                 with_user_sessions
                   (user_sessions db'
                      ++ [new_session settings env' user device_info
                            ip_address]) db'))
        /\ (forall env',
              uuid_wf (User.id user) ->
              utcnow env'
                <= utcnow env + days (REFRESH_TOKEN_EXPIRE_DAYS settings) ->
              (create_refresh_token settings (utcnow env')
                 (SubjectUUID (User.id user)) None
                 ∉ UserSession.session_token <$> user_sessions db') ->
              AuthService.refresh_tokens settings env'
                (new_tokens settings env user).2 device_info ip_address db'
              = (Return (AuthService.response (new_tokens settings env' user)
                           false),
                 with_user_sessions
                   (user_sessions db'
                      ++ [new_session settings env' user device_info
                            ip_address]) db'))).
Proof.
  split.
  - intros o db'. apply refresh_tokens_frame.
  - intros payload s user Hnd Hd Ht Hs Hne Hp Hu Ha Hfresh db'.
    split; [|split].
    + now apply (refresh_tokens_valid settings env t _ _ db payload s user).
    + intros env' Hd' Hfresh'.
      now apply (refresh_tokens_valid settings env' t _ _ db' payload s user).
    + intros env' Hwf Hexp Hfresh'.
      now apply (refresh_tokens_minted settings env' (utcnow env) user).
Qed.

(** *** Inactive accounts *)

Section Inactive.
Context (settings : Settings).
Context (bcrypt_digest : string -> string -> string).

Lemma login_inactive env email password device_info ip_address db user :
  users_ok db -> user ∈ users db -> User.email user = lower email ->
  User.is_active user = false ->
  exists e,
    AuthService.login settings bcrypt_digest env email password device_info
      ip_address db
    = (Raise e, db)
    /\ ((utf8_length password <= 72)%nat ->
        exists message, e = InvalidCredentialsError message).
Proof.
  intros (_ & Hnd & _ & _ & Hh) Hu He Ha. unfold AuthService.login. run.
  rewrite (get_by_email_found db user) by assumption.
  destruct (nonempty (User.password_hash user)) eqn:Hn;
    [|eexists; split; [reflexivity|eauto]].
  cbn [negb]. rewrite Forall_forall in Hh. specialize (Hh user Hu).
  destruct (User.password_hash user) as [h|]; [|discriminate].
  change (default "" (Some h)) with h.
  destruct (le_lt_dec (utf8_length password) 72) as [Hlen|Hlen].
  - destruct (verify_password_well_formed bcrypt_digest password h Hlen Hh)
      as [b Hb].
    rewrite Hb. destruct b; cbn [negb];
      [|eexists; split; [reflexivity|eauto]].
    rewrite Ha. eexists. split; [reflexivity|eauto].
  - destruct (verify_password_too_long bcrypt_digest password h Hlen)
      as [message Hb].
    rewrite Hb. eexists. split; [reflexivity|]. lia.
Qed.

Lemma refresh_tokens_inactive env t device_info ip_address db payload s user :
  NoDup (User.id <$> users db) ->
  decode_token settings (utcnow env) t = Some payload ->
  payload !! "sub" = Some (JStr s) ->
  UUID_parse s = Return (User.id user) ->
  user ∈ users db -> User.is_active user = false ->
  exists message,
    AuthService.refresh_tokens settings env t device_info ip_address db
    = (Raise (InvalidTokenError message), db).
Proof.
  intros Hnd Hd Hs Hp Hu Ha.
  destruct (decide (payload !! "type" = Some (JStr "refresh"))) as [Ht|Ht].
  - assert (s <> "") as Hne by (intros ->; discriminate).
    rewrite (refresh_tokens_lookup settings env t _ _ db payload s)
      by assumption.
    rewrite Hp, get_by_id_found, Ha by assumption. eexists. reflexivity.
  - apply refresh_tokens_wrong_type. unfold decoded_type. now rewrite Hd.
Qed.

Lemma get_current_user_inactive env t db payload s user :
  NoDup (User.id <$> users db) ->
  decode_token settings (utcnow env) t = Some payload ->
  payload !! "sub" = Some (JStr s) ->
  UUID_parse s = Return (User.id user) ->
  user ∈ users db -> User.is_active user = false ->
  exists message,
    AuthService.get_current_user settings env t db
    = (Raise (InvalidTokenError message), db).
Proof.
  intros Hnd Hd Hs Hp Hu Ha.
  destruct (decide (payload !! "type" = Some (JStr "access"))) as [Ht|Ht].
  - assert (s <> "") as Hne by (intros ->; discriminate).
    rewrite (get_current_user_lookup settings env t db payload s)
      by assumption.
    rewrite Hp, get_by_id_found, Ha by assumption. eexists. reflexivity.
  - apply get_current_user_wrong_type. unfold decoded_type. now rewrite Hd.
Qed.
End Inactive.

Lemma touch_user_stamped env user db :
  user ∈ users db ->
  User.with_last_login_at (Some (utcnow env)) user ∈ users (touch_user env user db).
Proof.
  intros Hu. unfold touch_user. cbn [users with_users].
  apply list_elem_of_fmap. exists user. split; [|exact Hu].
  now rewrite decide_True.
Qed.

Lemma users_google_linked user g db : users (google_linked user g db) = users db.
Proof. unfold google_linked. now case_decide. Qed.

(** Claim C10, amended. [google_login] does not consult [is_active]: for
    a stored account whose [is_active] is false and a verified Google
    identity carrying its address, the call stamps [last_login_at] and
    returns a minted access/refresh pair, provided the Google subject is
    linked at most once and the minted refresh token is not already stored;
    whereas [login] with that address raises for every password, leaving
    the database as it was ([InvalidCredentialsError] for every password
    of at most 72 bytes; the password is verified before [is_active] is
    read, so a longer one can meet bcrypt's [ValueError] first), and
    [refresh_tokens] and [get_current_user] raise [InvalidTokenError] for
    every token whose subject is that account. *)
Theorem google_login_ignores_is_active (settings : Settings)
    (bcrypt_digest : string -> string -> string)
    (verify_oauth2_token : string -> string -> outcome IdInfo)
    (env : Env) (id_token : string) (device_info ip_address : option string)
    (db : Db) (g : GoogleUser) (user : User.t) :
  users_ok db ->
  verify_google_token settings verify_oauth2_token id_token = Return g ->
  nonempty (gu_email g) = true -> nonempty (gu_sub g) = true ->
  link_unique db "google" (default "" (gu_sub g)) ->
  user ∈ users db ->
  User.email user = lower (default "" (gu_email g)) ->
  User.is_active user = false ->
  (create_refresh_token settings (utcnow env) (SubjectUUID (User.id user)) None
     ∉ UserSession.session_token <$> user_sessions db) ->
  let db' :=
    with_user_sessions
      (user_sessions db
         ++ [new_session settings env user device_info ip_address])
      (touch_user env user (google_linked user g db)) in
  AuthService.google_login settings verify_oauth2_token env id_token
    device_info ip_address db
  = (Return (AuthService.response (new_tokens settings env user) false), db')
  /\ User.with_last_login_at (Some (utcnow env)) user ∈ users db'
  /\ (forall password,
        exists e,
          AuthService.login settings bcrypt_digest env
            (default "" (gu_email g)) password device_info ip_address db
          = (Raise e, db)
          /\ ((utf8_length password <= 72)%nat ->
              exists message, e = InvalidCredentialsError message))
  /\ (forall t payload s,
        decode_token settings (utcnow env) t = Some payload ->
        payload !! "sub" = Some (JStr s) ->
        UUID_parse s = Return (User.id user) ->
        (exists message,
           AuthService.refresh_tokens settings env t device_info ip_address db
           = (Raise (InvalidTokenError message), db))
        /\ (exists message,
              AuthService.get_current_user settings env t db
              = (Raise (InvalidTokenError message), db))).
Proof.
  intros Hok Hv He Hs Hl Hu Hmail Ha Hfresh db'.
  split; [|split; [|split]].
  - now apply google_login_existing.
  - subst db'. cbn [users with_user_sessions].
    apply touch_user_stamped. now rewrite users_google_linked.
  - intros password. now apply (login_inactive _ _ _ _ _ _ _ _ user).
  - intros t payload s Hd Hsub Hp. destruct Hok as (Hnd & _). split.
    + now apply (refresh_tokens_inactive settings env t _ _ db payload s user).
    + now apply (get_current_user_inactive settings env t db payload s user).
Qed.

(** *** Google links per account *)

Lemma links_of_google_login (user : User.t) (g : GoogleUser) (env : Env)
    (sessions : list UserSession.t) (db : Db) :
  (("google", default "" (gu_sub g)) ∉ link_key <$> auth_providers db) ->
  links_of
    (with_user_sessions sessions (touch_user env user (google_linked user g db)))
    (User.id user) "google"
  = (links_of db (User.id user) "google" ++ [google_link user g])%list.
Proof.
  intros Hout. unfold links_of, google_linked.
  rewrite decide_False by exact Hout.
  cbn [auth_providers with_user_sessions touch_user with_users
       with_auth_providers].
  rewrite filter_app. f_equal.
  rewrite filter_cons, decide_True by (now split). reflexivity.
Qed.

(** Claim C9, as the code behaves. When an account already has a Google
    link and a verified Google identity with the account's address but a
    subject that is not linked yet signs in, [google_login] returns and the
    account has one more Google link than before, so at least two. *)
Theorem google_login_second_link (settings : Settings)
    (verify_oauth2_token : string -> string -> outcome IdInfo)
    (env : Env) (id_token : string) (device_info ip_address : option string)
    (db : Db) (g : GoogleUser) (user : User.t) (linked : AuthProvider.t) :
  users_ok db ->
  verify_google_token settings verify_oauth2_token id_token = Return g ->
  nonempty (gu_email g) = true -> nonempty (gu_sub g) = true ->
  user ∈ users db ->
  User.email user = lower (default "" (gu_email g)) ->
  (create_refresh_token settings (utcnow env) (SubjectUUID (User.id user)) None
     ∉ UserSession.session_token <$> user_sessions db) ->
  linked ∈ links_of db (User.id user) "google" ->
  (("google", default "" (gu_sub g)) ∉ link_key <$> auth_providers db) ->
  exists resp db',
    AuthService.google_login settings verify_oauth2_token env id_token
      device_info ip_address db = (Return resp, db')
    /\ links_of db' (User.id user) "google"
       = (links_of db (User.id user) "google" ++ [google_link user g])%list
    /\ (2 <= length (links_of db' (User.id user) "google"))%nat.
Proof.
  intros Hok Hv He Hs Hu Hmail Hfresh Hlinked Hout.
  eexists _, _. split.
  { apply google_login_existing; try eassumption.
    unfold link_unique.
    rewrite (select_none link_key) by exact Hout. cbn [length]. lia. }
  rewrite links_of_google_login by exact Hout. split; [reflexivity|].
  rewrite length_app. cbn [length].
  destruct (links_of db (User.id user) "google");
    [now apply elem_of_nil in Hlinked|cbn [length]; lia].
Qed.

(** *** Onboarding *)

Lemma replace_profile_user_ids p rows :
  UserProfile.user_id <$> replace_profile p rows = UserProfile.user_id <$> rows.
Proof.
  unfold replace_profile. rewrite <- list_fmap_compose.
  apply list_fmap_ext. intros i q _. cbn. now case_decide.
Qed.

Lemma replace_profile_others p rows :
  filter (fun q => UserProfile.user_id q <> UserProfile.user_id p)
    (replace_profile p rows)
  = filter (fun q => UserProfile.user_id q <> UserProfile.user_id p) rows.
Proof.
  induction rows as [|q rows IH]; [reflexivity|].
  unfold replace_profile in *. rewrite fmap_cons, !filter_cons, IH.
  destruct (decide (UserProfile.user_id q = UserProfile.user_id p)) as [He|Hne].
  - rewrite decide_False by (intros H; now apply H).
    now rewrite decide_False by (intros H; now apply H).
  - now rewrite !decide_True by exact Hne.
Qed.

Lemma replace_profile_name_free p rows user_id player_name :
  UserProfile.user_id p = user_id ->
  name_free rows user_id player_name ->
  name_free (replace_profile p rows) user_id player_name.
Proof.
  intros Hp Hfree q Hq Hn. unfold replace_profile in Hq.
  apply list_elem_of_fmap in Hq as (q0 & -> & Hq0).
  case_decide; [exact Hp|]. now apply Hfree.
Qed.

Lemma replace_profile_elem p rows q :
  q ∈ rows -> UserProfile.user_id q = UserProfile.user_id p ->
  p ∈ replace_profile p rows.
Proof.
  intros Hq He. unfold replace_profile. apply list_elem_of_fmap.
  exists q. split; [|exact Hq]. now rewrite decide_True.
Qed.

Lemma store_profile_free p db :
  name_free (user_profiles db) (UserProfile.user_id p) (UserProfile.player_name p) ->
  ProfileRepository.store_profile p db
  = (Return tt, with_user_profiles (replace_profile p (user_profiles db)) db).
Proof.
  intros Hfree. unfold ProfileRepository.store_profile.
  rewrite bool_decide_eq_false_2; [reflexivity|].
  intros Hin. apply list_elem_of_fmap in Hin as (q & Hn & Hq).
  apply list_elem_of_filter in Hq as [Hne Hq].
  apply Hne. now apply Hfree.
Qed.

Lemma add_profile_fresh p db :
  (UserProfile.user_id p ∉ UserProfile.user_id <$> user_profiles db) ->
  (UserProfile.player_name p ∉ UserProfile.player_name <$> user_profiles db) ->
  ProfileRepository.add_profile p db
  = (Return tt, with_user_profiles (user_profiles db ++ [p]) db).
Proof.
  intros Hu Hn. unfold ProfileRepository.add_profile.
  rewrite bool_decide_eq_false_2 by exact Hu.
  now rewrite bool_decide_eq_false_2 by exact Hn.
Qed.

Lemma get_by_user_id_found db (p : UserProfile.t) :
  NoDup (UserProfile.user_id <$> user_profiles db) -> p ∈ user_profiles db ->
  ProfileRepository.get_by_user_id (UserProfile.user_id p) db
  = (Return (Some p), db).
Proof.
  intros Hnd Hp. unfold ProfileRepository.get_by_user_id. run.
  now rewrite (select_one UserProfile.user_id p) by assumption.
Qed.

Lemma get_by_user_id_missing db (user_id : UUID) :
  (user_id ∉ UserProfile.user_id <$> user_profiles db) ->
  ProfileRepository.get_by_user_id user_id db = (Return None, db).
Proof.
  intros H. unfold ProfileRepository.get_by_user_id. run.
  now rewrite (select_none UserProfile.user_id) by assumption.
Qed.

Lemma get_by_player_name_cases db (player_name : string) :
  NoDup (UserProfile.player_name <$> user_profiles db) ->
  exists o,
    ProfileRepository.get_by_player_name player_name db = (Return o, db)
    /\ match o with
       | Some q => q ∈ user_profiles db
                   /\ UserProfile.player_name q = player_name
       | None => player_name ∉ UserProfile.player_name <$> user_profiles db
       end.
Proof.
  intros Hnd. unfold ProfileRepository.get_by_player_name. run.
  destruct (select_cases UserProfile.player_name player_name _ Hnd)
    as [[Habs ->]|(q & Hq & Hn & ->)].
  - exists None. auto.
  - exists (Some q). auto.
Qed.

Lemma get_archetype_by_id_found db (archetype_id : UUID) :
  NoDup (Archetype.id <$> archetypes db) ->
  archetype_id ∈ Archetype.id <$> archetypes db ->
  exists a, ProfileRepository.get_archetype_by_id archetype_id db
            = (Return (Some a), db).
Proof.
  intros Hnd Hin. apply list_elem_of_fmap in Hin as (a & -> & Ha).
  exists a. unfold ProfileRepository.get_archetype_by_id. run.
  now rewrite (select_one Archetype.id a) by assumption.
Qed.

Lemma get_life_mode_by_id_found db (life_mode_id : UUID) :
  NoDup (LifeMode.id <$> life_modes db) ->
  life_mode_id ∈ LifeMode.id <$> life_modes db ->
  exists a, ProfileRepository.get_life_mode_by_id life_mode_id db
            = (Return (Some a), db).
Proof.
  intros Hnd Hin. apply list_elem_of_fmap in Hin as (a & -> & Ha).
  exists a. unfold ProfileRepository.get_life_mode_by_id. run.
  now rewrite (select_one LifeMode.id a) by assumption.
Qed.

Lemma validate_life_areas_ok db (life_area_ids : list UUID) :
  NoDup (LifeArea.id <$> life_areas db) ->
  Forall (fun i => i ∈ LifeArea.id <$> life_areas db) life_area_ids ->
  ProfileService.validate_life_areas life_area_ids db = (Return tt, db).
Proof.
  intros Hnd. induction life_area_ids as [|i ids IH]; intros Hall;
    [reflexivity|].
  apply Forall_cons in Hall as [Hi Hall].
  cbn [ProfileService.validate_life_areas]. run.
  apply list_elem_of_fmap in Hi as (a & -> & Ha).
  unfold ProfileRepository.get_life_area_by_id. run.
  rewrite (select_one LifeArea.id a) by assumption. cbn.
  now apply IH.
Qed.

Lemma set_user_life_areas_run env user_id life_area_ids db :
  exists rows areas,
    ProfileRepository.set_user_life_areas env user_id life_area_ids db
    = (Return rows, with_user_life_areas areas db).
Proof.
  unfold ProfileRepository.set_user_life_areas,
    ProfileRepository.get_user_life_areas. run.
  eexists _, _. destruct db; reflexivity.
Qed.

Lemma complete_onboarding_already env user_id data db p :
  NoDup (UserProfile.user_id <$> user_profiles db) ->
  p ∈ user_profiles db -> UserProfile.user_id p = user_id ->
  UserProfile.onboarding_completed p = true ->
  ProfileService.complete_onboarding env user_id data db
  = (Raise (ValidationError "Onboarding already completed"), db).
Proof.
  intros Hnd Hp <- Hc. unfold ProfileService.complete_onboarding. run.
  rewrite get_by_user_id_found by assumption. now rewrite Hc.
Qed.

(** The tail of the flow, from the life areas on: the profile object is
    stored with the flag and the lock, and read back. *)
Lemma finish_onboarding env user_id data db profile q :
  NoDup (UserProfile.user_id <$> user_profiles db) ->
  q ∈ user_profiles db ->
  UserProfile.user_id q = user_id -> UserProfile.user_id profile = user_id ->
  name_free (user_profiles db) user_id (UserProfile.player_name profile) ->
  exists db',
    (ProfileRepository.set_user_life_areas env user_id (req_life_area_ids data);;
     ProfileRepository.mark_onboarding_complete env profile;;
     profile ← ProfileRepository.get_by_user_id user_id;
     match profile with
     | Some profile =>
         mret {| resp_profile := profile;
                 resp_message :=
                   "Onboarding completed successfully! Your identity is locked for 30 days." |}
     | None => raise PydanticValidationError
     end) db
    = (Return {| resp_profile := marked env profile;
                 resp_message :=
                   "Onboarding completed successfully! Your identity is locked for 30 days." |},
       db')
    /\ marked env profile ∈ user_profiles db'.
Proof.
  intros Hnd Hq Hqu Hpu Hfree. run.
  destruct (set_user_life_areas_run env user_id (req_life_area_ids data) db)
    as (rows & areas & ->).
  unfold ProfileRepository.mark_onboarding_complete. run.
  fold (marked env profile).
  rewrite store_profile_free.
  2:{ cbn [user_profiles with_user_life_areas marked UserProfile.user_id
           UserProfile.player_name]. now rewrite Hpu. }
  cbn [user_profiles with_user_life_areas].
  assert (marked env profile
            ∈ replace_profile (marked env profile) (user_profiles db)) as Hin.
  { apply (replace_profile_elem _ _ q); [exact Hq|].
    cbn [marked UserProfile.user_id]. congruence. }
  eexists. split.
  - replace user_id with (UserProfile.user_id (marked env profile)) at 1
      by exact Hpu.
    rewrite get_by_user_id_found; [reflexivity| |exact Hin].
    cbn [user_profiles with_user_profiles].
    now rewrite replace_profile_user_ids.
  - exact Hin.
Qed.

Lemma complete_onboarding_first_time env user_id data db :
  profiles_ok db ->
  (forall p, p ∈ user_profiles db -> UserProfile.user_id p = user_id ->
             UserProfile.onboarding_completed p = false) ->
  name_free (user_profiles db) user_id (req_player_name data) ->
  req_archetype_id data ∈ Archetype.id <$> archetypes db ->
  req_life_mode_id data ∈ LifeMode.id <$> life_modes db ->
  Forall (fun i => i ∈ LifeArea.id <$> life_areas db) (req_life_area_ids data) ->
  exists profile db',
    ProfileService.complete_onboarding env user_id data db
    = (Return {| resp_profile := marked env profile;
                 resp_message :=
                   "Onboarding completed successfully! Your identity is locked for 30 days." |},
       db')
    /\ marked env profile ∈ user_profiles db'
    /\ UserProfile.user_id profile = user_id
    /\ UserProfile.player_name profile = req_player_name data
    /\ UserProfile.archetype_id profile = Some (req_archetype_id data)
    /\ UserProfile.life_mode_id profile = Some (req_life_mode_id data).
Proof.
  intros (Hnu & Hnn & Hna & Hnm & Hnl) Hfirst Hfree Harch Hmode Hareas.
  destruct (get_by_player_name_cases db (req_player_name data) Hnn)
    as (oname & Hname & Honame).
  destruct (get_archetype_by_id_found db _ Hna Harch) as (a & Ha).
  destruct (get_life_mode_by_id_found db _ Hnm Hmode) as (m & Hm).
  pose proof (validate_life_areas_ok db _ Hnl Hareas) as Hv.
  assert (Hnotaken :
    match oname with
    | Some p => bool_decide (UserProfile.user_id p <> user_id)
    | None => false
    end = false).
  { destruct oname as [q|]; [|reflexivity]. destruct Honame as [Hq Hqn].
    apply bool_decide_eq_false_2. intros Hne. apply Hne. now apply Hfree. }
  unfold ProfileService.complete_onboarding. rewrite run_bind.
  destruct (select_cases UserProfile.user_id user_id _ Hnu)
    as [[Habs _]|(p & Hp & Hpu & _)].
  - rewrite get_by_user_id_missing by exact Habs. cbv beta iota.
    rewrite run_bind, Hname. cbv beta iota. rewrite Hnotaken.
    rewrite run_bind, Ha. cbv beta iota.
    rewrite (bool_decide_eq_true_2 (is_Some (Some a))) by eauto. cbn [negb].
    rewrite run_bind, Hm. cbv beta iota.
    rewrite (bool_decide_eq_true_2 (is_Some (Some m))) by eauto. cbn [negb].
    rewrite run_bind, Hv. cbv beta iota. rewrite run_bind.
    unfold ProfileRepository.create. rewrite run_bind.
    set (p0 := UserProfile.mk _ _ _ _ _ _ _ _ _ _ _).
    rewrite add_profile_fresh.
    + cbv beta iota. unfold mret at 1, M_ret at 1.
      destruct (finish_onboarding env user_id data
                  (with_user_profiles (user_profiles db ++ [p0]) db) p0 p0)
        as (db' & Hrun & Hin).
      * cbn [user_profiles with_user_profiles]. rewrite fmap_app.
        apply NoDup_app. split; [exact Hnu|]. split; [|apply NoDup_singleton].
        intros x Hx Hx'. apply list_elem_of_singleton in Hx'. now subst.
      * cbn [user_profiles with_user_profiles].
        apply elem_of_app. right. apply list_elem_of_here.
      * reflexivity.
      * reflexivity.
      * cbn [user_profiles with_user_profiles]. intros q Hq Hqn.
        apply elem_of_app in Hq as [Hq|Hq]; [now apply Hfree|].
        apply list_elem_of_singleton in Hq. now subst.
      * exists p0, db'. rewrite Hrun. auto 10.
    + exact Habs.
    + cbn [p0 UserProfile.player_name]. intros Hin.
      apply list_elem_of_fmap in Hin as (q & Hqn & Hq).
      apply Habs. rewrite <- (Hfree q Hq) by (now symmetry).
      now apply list_elem_of_fmap_2.
  - subst user_id. rewrite get_by_user_id_found by assumption. cbv beta iota.
    rewrite (Hfirst p Hp eq_refl).
    rewrite run_bind, Hname. cbv beta iota. rewrite Hnotaken.
    rewrite run_bind, Ha. cbv beta iota.
    rewrite (bool_decide_eq_true_2 (is_Some (Some a))) by eauto. cbn [negb].
    rewrite run_bind, Hm. cbv beta iota.
    rewrite (bool_decide_eq_true_2 (is_Some (Some m))) by eauto. cbn [negb].
    rewrite run_bind, Hv. cbv beta iota. rewrite run_bind.
    rewrite run_bind. unfold ProfileRepository.update. rewrite run_bind.
    set (p1 := UserProfile.mk _ _ _ _ _ _ _ _ _ _ _).
    rewrite store_profile_free by exact Hfree. cbv beta iota.
    unfold mret at 1, M_ret at 1. cbv beta iota. rewrite run_bind.
    set (p2 := ProfileRepository.with_identity _ _ p1).
    assert (name_free (replace_profile p1 (user_profiles db))
              (UserProfile.user_id p) (req_player_name data)) as Hfree1
      by now apply replace_profile_name_free.
    rewrite store_profile_free by exact Hfree1. cbv beta iota.
    unfold mret at 1, M_ret at 1. cbv beta iota.
    cbn [user_profiles with_user_profiles].
    assert (p1 ∈ replace_profile p1 (user_profiles db)) as Hp1
      by now apply (replace_profile_elem _ _ p).
    assert (p2 ∈ replace_profile p2 (replace_profile p1 (user_profiles db)))
      as Hp2 by now apply (replace_profile_elem _ _ p1).
    destruct (finish_onboarding env (UserProfile.user_id p) data
                (with_user_profiles
                   (replace_profile p2 (replace_profile p1 (user_profiles db)))
                   (with_user_profiles (replace_profile p1 (user_profiles db)) db))
                p2 p2)
      as (db' & Hrun & Hin).
    + cbn [user_profiles with_user_profiles].
      now rewrite !replace_profile_user_ids.
    + exact Hp2.
    + reflexivity.
    + reflexivity.
    + cbn [user_profiles with_user_profiles].
      now apply replace_profile_name_free.
    + exists p2, db'. rewrite Hrun. auto 10.
Qed.

(** *** The services keep the database well formed *)

Lemma scalar_filter_sound {A} (P : A -> Prop) `{forall x, Decision (P x)}
    (l : list A) db o db' :
  scalar_one_or_none (filter P l) db = (o, db') ->
  db' = db /\ forall x, o = Return (Some x) -> x ∈ l /\ P x.
Proof.
  intros Hrun. split; [now apply scalar_one_or_none_frame in Hrun|].
  intros x ->. destruct (filter P l) as [|y [|z rows]] eqn:Hf;
    cbn in Hrun; try discriminate.
  injection Hrun as <- _.
  assert (y ∈ filter P l) as Hy by (rewrite Hf; apply list_elem_of_here).
  apply list_elem_of_filter in Hy. tauto.
Qed.

Lemma get_by_email_sound email db o db' :
  UserRepository.get_by_email email db = (o, db') ->
  db' = db /\ forall u, o = Return (Some u) -> u ∈ users db.
Proof.
  unfold UserRepository.get_by_email. run. intros Hrun.
  apply scalar_filter_sound in Hrun as [-> Hs]. split; [reflexivity|].
  intros u Hu. now apply Hs.
Qed.

Lemma get_by_email_None email db db' :
  Forall (fun u => User.email u = lower (User.email u)) (users db) ->
  UserRepository.get_by_email email db = (Return None, db') ->
  lower email ∉ User.email <$> users db.
Proof.
  unfold UserRepository.get_by_email. run. intros Hl Hrun Hin.
  apply list_elem_of_fmap in Hin as (u & He & Hu).
  assert (u ∈ filter (fun u => User.email u = lower email) (users db)) as Hf
    by (apply list_elem_of_filter; auto).
  destruct (filter _ (users db)) as [|y [|z rows]]; cbn in Hrun;
    try discriminate.
  now apply elem_of_nil in Hf.
Qed.

Section Preservation.
Context (settings : Settings).

Lemma db_ok_add_user db user :
  db_ok settings db ->
  (User.id user ∉ User.id <$> users db) ->
  (User.email user ∉ User.email <$> users db) ->
  User.email user = lower (User.email user) ->
  uuid_wf (User.id user) -> hash_ok (User.password_hash user) ->
  db_ok settings (with_users (users db ++ [user]) db).
Proof.
  intros ((Hid & Hem & Hlo & Hwf & Hh) & Hs & Hm) Hi He Hl Hw Hp.
  split; [|split].
  - unfold users_ok. cbn [users with_users]. rewrite !fmap_app.
    repeat split.
    + apply NoDup_app. split; [exact Hid|]. split; [|apply NoDup_singleton].
      intros x Hx Hx'. apply list_elem_of_singleton in Hx'. now subst.
    + apply NoDup_app. split; [exact Hem|]. split; [|apply NoDup_singleton].
      intros x Hx Hx'. apply list_elem_of_singleton in Hx'. now subst.
    + apply Forall_app. split; [exact Hlo|]. now apply Forall_singleton.
    + apply Forall_app. split; [exact Hwf|]. now apply Forall_singleton.
    + apply Forall_app. split; [exact Hh|]. now apply Forall_singleton.
  - exact Hs.
  - unfold sessions_minted in *. cbn [users user_sessions with_users].
    eapply Forall_impl; [exact Hm|]. cbv beta. intros s [Hu Hmint].
    split; [|exact Hmint]. rewrite fmap_app. apply elem_of_app. now left.
Qed.

Lemma touch_user_ids env user db :
  User.id <$> users (touch_user env user db) = User.id <$> users db.
Proof.
  unfold touch_user. cbn [users with_users]. rewrite <- list_fmap_compose.
  apply list_fmap_ext. intros i u _. cbn. now case_decide.
Qed.

Lemma db_ok_touch_user env user db :
  db_ok settings db -> db_ok settings (touch_user env user db).
Proof.
  intros ((Hid & Hem & Hlo & Hwf & Hh) & Hs & Hm). split; [|split].
  - unfold users_ok. rewrite touch_user_ids.
    unfold touch_user. cbn [users with_users]. repeat split.
    + exact Hid.
    + rewrite <- list_fmap_compose.
      erewrite list_fmap_ext; [exact Hem|]. intros i u _. cbn.
      now case_decide.
    + apply Forall_fmap. eapply Forall_impl; [exact Hlo|].
      intros u Hu. cbn. now case_decide.
    + apply Forall_fmap. eapply Forall_impl; [exact Hwf|].
      intros u Hu. cbn. now case_decide.
    + apply Forall_fmap. eapply Forall_impl; [exact Hh|].
      intros u Hu. cbn. now case_decide.
  - exact Hs.
  - unfold sessions_minted in *. rewrite touch_user_ids. exact Hm.
Qed.

Lemma db_ok_add_session env user device_info ip_address db :
  db_ok settings db ->
  User.id user ∈ User.id <$> users db ->
  (create_refresh_token settings (utcnow env) (SubjectUUID (User.id user)) None
     ∉ UserSession.session_token <$> user_sessions db) ->
  db_ok settings
    (with_user_sessions
       (user_sessions db
          ++ [new_session settings env user device_info ip_address]) db).
Proof.
  intros (Hu & Hs & Hm) Hin Hfresh. split; [exact Hu|split].
  - unfold sessions_ok in *. cbn [user_sessions with_user_sessions].
    rewrite fmap_app. apply NoDup_app. split; [exact Hs|].
    split; [|apply NoDup_singleton].
    intros x Hx Hx'. apply list_elem_of_singleton in Hx'. now subst.
  - unfold sessions_minted in *.
    cbn [users user_sessions with_user_sessions].
    apply Forall_app. split; [exact Hm|]. apply Forall_singleton.
    split; [exact Hin|reflexivity].
Qed.

Lemma db_ok_with_auth_providers links db :
  db_ok settings db -> db_ok settings (with_auth_providers links db).
Proof. intros H. exact H. Qed.

Lemma db_ok_filter_sessions (P : UserSession.t -> Prop)
    `{forall s, Decision (P s)} db :
  db_ok settings db ->
  db_ok settings (with_user_sessions (filter P (user_sessions db)) db).
Proof.
  intros (Hu & Hs & Hm). split; [exact Hu|split].
  - unfold sessions_ok in *. cbn [user_sessions with_user_sessions].
    eapply sublist_NoDup; [exact Hs|].
    apply fmap_sublist, sublist_filter.
  - unfold sessions_minted in *.
    cbn [users user_sessions with_user_sessions].
    rewrite Forall_forall in *. intros s Hs'.
    apply list_elem_of_filter in Hs' as [_ Hs']. now apply Hm.
Qed.

Lemma create_tokens_and_session_ok env user device_info ip_address db o db' :
  db_ok settings db -> User.id user ∈ User.id <$> users db ->
  AuthService._create_tokens_and_session settings env user device_info
    ip_address db = (o, db') ->
  db_ok settings db'.
Proof.
  intros Hok Hin.
  destruct (decide (create_refresh_token settings (utcnow env)
                      (SubjectUUID (User.id user)) None
                    ∈ UserSession.session_token <$> user_sessions db)).
  - rewrite create_tokens_and_session_stored by assumption.
    now intros [= _ <-].
  - rewrite create_tokens_and_session_fresh by assumption.
    intros [= _ <-]. now apply db_ok_add_session.
Qed.

Lemma create_ok env email password_hash email_verified db o db' :
  db_ok settings db -> uuid_wf (uuid4 env) -> hash_ok password_hash ->
  UserRepository.create env email password_hash email_verified db = (o, db') ->
  db_ok settings db'
  /\ forall user, o = Return user -> User.id user ∈ User.id <$> users db'.
Proof.
  intros Hok Hwf Hh. unfold UserRepository.create, UserRepository.add_user.
  run. cbn [User.id User.email].
  case_bool_decide; [intros [= <- <-]; split; [exact Hok|discriminate]|].
  case_bool_decide; [intros [= <- <-]; split; [exact Hok|discriminate]|].
  intros [= <- <-]. split.
  - apply db_ok_add_user; try assumption. cbn [User.email].
    now rewrite lower_idem.
  - intros user [= <-]. cbn [users with_users User.id]. rewrite fmap_app.
    apply elem_of_app. right. apply list_elem_of_here.
Qed.
End Preservation.

Section Flows.
Context (settings : Settings).
Context (bcrypt_digest : string -> string -> string).
Context (verify_oauth2_token : string -> string -> outcome IdInfo).

Lemma register_db_ok env email password device_info ip_address db o db' :
  db_ok settings db -> uuid_wf (uuid4 env) ->
  AuthService.register settings bcrypt_digest env email password
    device_info ip_address db = (o, db') ->
  db_ok settings db'.
Proof.
  intros Hok Hwf. unfold AuthService.register. rewrite run_bind.
  destruct (UserRepository.get_by_email email db) as [o1 db1] eqn:H1.
  destruct (get_by_email_sound _ _ _ _ H1) as [-> _].
  destruct o1 as [e|[u|]]; try (now intros [= _ <-]).
  rewrite run_bind. unfold lift at 1.
  destruct (hash_password bcrypt_digest (gensalt env) password)
    as [e|h] eqn:Hh; [now intros [= _ <-]|].
  apply hash_password_Return in Hh.
  rewrite run_bind.
  destruct (UserRepository.create env email (Some h) false db)
    as [o2 db2] eqn:H2.
  destruct (create_ok settings env email (Some h) false db o2 db2
              Hok Hwf Hh H2) as [Hok2 Hin].
  destruct o2 as [e|user]; [now intros [= _ <-]|].
  rewrite run_bind.
  destruct (AuthService._create_tokens_and_session settings env user
              device_info ip_address db2) as [o3 db3] eqn:H3.
  apply create_tokens_and_session_ok in H3; [|exact Hok2|now apply Hin].
  destruct o3; now intros [= _ <-].
Qed.

Lemma update_last_login_run env user db :
  UserRepository.update_last_login env user db
  = (Return (User.with_last_login_at (Some (utcnow env)) user),
     touch_user env user db).
Proof. reflexivity. Qed.

Lemma login_db_ok env email password device_info ip_address db o db' :
  db_ok settings db ->
  AuthService.login settings bcrypt_digest env email password
    device_info ip_address db = (o, db') ->
  db_ok settings db'.
Proof.
  intros Hok. unfold AuthService.login. rewrite run_bind.
  destruct (UserRepository.get_by_email email db) as [o1 db1] eqn:H1.
  destruct (get_by_email_sound _ _ _ _ H1) as [-> Hs].
  destruct o1 as [e|[user|]]; try (now intros [= _ <-]).
  specialize (Hs user eq_refl).
  destruct (negb (nonempty (User.password_hash user)));
    [now intros [= _ <-]|].
  rewrite run_bind. unfold lift at 1.
  destruct (verify_password _ _ _) as [e|[|]]; try (now intros [= _ <-]).
  cbn [negb].
  destruct (negb (User.is_active user)); [now intros [= _ <-]|].
  rewrite run_bind, update_last_login_run, run_bind.
  destruct (AuthService._create_tokens_and_session _ _ _ _ _ _)
    as [o3 db3] eqn:H3.
  apply create_tokens_and_session_ok in H3.
  - destruct o3; now intros [= _ <-].
  - now apply db_ok_touch_user.
  - rewrite touch_user_ids. cbn [User.id User.with_last_login_at].
    now apply list_elem_of_fmap_2.
Qed.

Lemma refresh_tokens_db_ok env t device_info ip_address db o db' :
  db_ok settings db ->
  AuthService.refresh_tokens settings env t device_info ip_address db
    = (o, db') ->
  db_ok settings db'.
Proof.
  intros Hok Hrun. apply refresh_tokens_frame in Hrun.
  destruct o as [e|resp]; [now subst|].
  destruct Hrun as (user & Hu & _ & Hout & _ & ->).
  apply db_ok_add_session; [exact Hok| |exact Hout].
  now apply list_elem_of_fmap_2.
Qed.

Lemma logout_db_ok t db o db' :
  db_ok settings db -> AuthService.logout t db = (o, db') ->
  db_ok settings db'.
Proof.
  intros Hok. unfold AuthService.logout. rewrite run_bind.
  destruct (UserRepository.get_session_by_token t db) as [o1 db1] eqn:H1.
  unfold UserRepository.get_session_by_token in H1. rewrite run_bind in H1.
  unfold query in H1. apply scalar_one_or_none_frame in H1 as ->.
  destruct o1 as [e|[s|]]; try (now intros [= _ <-]).
  unfold UserRepository.delete_session, modify. intros [= _ <-].
  now apply db_ok_filter_sessions.
Qed.

Lemma logout_all_db_ok user_id db o db' :
  db_ok settings db -> AuthService.logout_all user_id db = (o, db') ->
  db_ok settings db'.
Proof.
  intros Hok. unfold AuthService.logout_all,
    UserRepository.delete_all_user_sessions, modify.
  intros [= _ <-]. now apply db_ok_filter_sessions.
Qed.

Lemma google_login_db_ok env id_token device_info ip_address db o db' :
  db_ok settings db -> uuid_wf (uuid4 env) ->
  AuthService.google_login settings verify_oauth2_token env id_token
    device_info ip_address db = (o, db') ->
  db_ok settings db'.
Proof.
  intros Hok Hwf. unfold AuthService.google_login. rewrite run_bind.
  unfold lift at 1.
  destruct (verify_google_token settings verify_oauth2_token id_token)
    as [e|g]; [now intros [= _ <-]|].
  destruct (negb (nonempty (gu_email g)) || negb (nonempty (gu_sub g)));
    [now intros [= _ <-]|].
  rewrite run_bind.
  destruct (UserRepository.get_by_email _ db) as [o1 db1] eqn:H1.
  destruct (get_by_email_sound _ _ _ _ H1) as [-> Hs].
  destruct o1 as [e|ouser]; [now intros [= _ <-]|].
  rewrite run_bind.
  match goal with
  | |- match ?m with _ => _ end = _ -> _ => destruct m as [o2 db2] eqn:H2
  end.
  assert (db_ok settings db2
          /\ forall user b, o2 = Return (user, b) ->
                            User.id user ∈ User.id <$> users db2)
    as [Hok2 Hin].
  { revert H2. destruct ouser as [user|].
    - specialize (Hs user eq_refl). rewrite run_bind.
      destruct (UserRepository.get_auth_provider _ _ db) as [o3 db3] eqn:H3.
      rewrite get_auth_provider_select in H3.
      apply scalar_one_or_none_frame in H3 as ->.
      destruct o3 as [e|[a|]].
      + intros [= <- <-]. split; [exact Hok|discriminate].
      + intros [= <- <-]. split; [exact Hok|].
        intros ? ? [= <- <-]. now apply list_elem_of_fmap_2.
      + intros [= <- <-]. split; [exact Hok|].
        intros ? ? [= <- <-]. now apply list_elem_of_fmap_2.
    - rewrite run_bind.
      destruct (UserRepository.create env _ None _ db) as [o3 db3] eqn:H3.
      destruct (create_ok settings env _ None _ db o3 db3 Hok Hwf I H3)
        as [Hok3 Hin].
      destruct o3 as [e|user].
      + intros [= <- <-]. split; [exact Hok3|discriminate].
      + intros [= <- <-]. split; [exact Hok3|].
        intros ? ? [= <- <-]. now apply Hin. }
  destruct o2 as [e|[user b]]; [now intros [= _ <-]|].
  specialize (Hin user b eq_refl). cbv beta iota.
  rewrite run_bind, update_last_login_run, run_bind.
  destruct (AuthService._create_tokens_and_session _ _ _ _ _ _)
    as [o3 db3] eqn:H3.
  apply create_tokens_and_session_ok in H3.
  - destruct o3; now intros [= _ <-].
  - now apply db_ok_touch_user.
  - now rewrite touch_user_ids.
Qed.
End Flows.

(** *** Onboarding keeps the profile keys unique *)

Lemma replace_profile_absent p rows :
  (UserProfile.user_id p ∉ UserProfile.user_id <$> rows) ->
  replace_profile p rows = rows.
Proof.
  induction rows as [|q rows IH]; intros Habs; [reflexivity|].
  rewrite fmap_cons, not_elem_of_cons in Habs. destruct Habs as [Hne Habs].
  unfold replace_profile in *. rewrite fmap_cons, IH by exact Habs.
  now rewrite decide_False by congruence.
Qed.

Lemma replace_profile_names p rows :
  NoDup (UserProfile.user_id <$> rows) ->
  NoDup (UserProfile.player_name <$> rows) ->
  (UserProfile.player_name p
     ∉ UserProfile.player_name
         <$> filter (fun q => UserProfile.user_id q <> UserProfile.user_id p)
               rows) ->
  NoDup (UserProfile.player_name <$> replace_profile p rows).
Proof.
  induction rows as [|q rows IH]; intros Hu Hn Hfree; [apply NoDup_nil_2|].
  rewrite fmap_cons in Hu. rewrite fmap_cons in Hn.
  apply NoDup_cons in Hu as [Hqu Hu]. apply NoDup_cons in Hn as [Hqn Hn].
  rewrite filter_cons in Hfree.
  unfold replace_profile. rewrite fmap_cons. fold (replace_profile p rows).
  destruct (decide (UserProfile.user_id q = UserProfile.user_id p)) as [He|Hne].
  - rewrite decide_False in Hfree by (intros H; now apply H).
    rewrite replace_profile_absent by (now rewrite <- He).
    rewrite fmap_cons. apply NoDup_cons. split; [|exact Hn].
    intros Hin. apply Hfree.
    apply list_elem_of_fmap in Hin as (r & Hr & Hrin).
    apply list_elem_of_fmap. exists r. split; [exact Hr|].
    apply list_elem_of_filter. split; [|exact Hrin].
    intros Hru. apply Hqu. rewrite He, <- Hru.
    now apply list_elem_of_fmap_2.
  - rewrite decide_True in Hfree by exact Hne.
    rewrite fmap_cons, not_elem_of_cons in Hfree. destruct Hfree as [Hpq Hfree].
    rewrite fmap_cons. apply NoDup_cons. split; [|now apply IH].
    intros Hin. apply list_elem_of_fmap in Hin as (r & Hr & Hrin).
    unfold replace_profile in Hrin.
    apply list_elem_of_fmap in Hrin as (r0 & -> & Hr0).
    case_decide.
    + now apply Hpq.
    + apply Hqn. rewrite Hr. now apply list_elem_of_fmap_2.
Qed.

Lemma keeps_bind {A B} (m : M A) (k : A -> M B) :
  keeps_profiles m -> (forall a, keeps_profiles (k a)) ->
  keeps_profiles (m ≫= k).
Proof.
  intros Hm Hk db o db' Hok. rewrite run_bind.
  destruct (m db) as [[e|a] db1] eqn:H1.
  - intros [= _ <-]. now apply (Hm db _ _ Hok H1).
  - apply Hk. now apply (Hm db _ _ Hok H1).
Qed.

Lemma keeps_ret {A} (a : A) : keeps_profiles (mret a).
Proof. now intros db o db' Hok [= _ <-]. Qed.

Lemma keeps_raise {A} (e : exn) : keeps_profiles (@raise A e).
Proof. now intros db o db' Hok [= _ <-]. Qed.

Lemma keeps_query {A} (f : Db -> A) : keeps_profiles (query f).
Proof. now intros db o db' Hok [= _ <-]. Qed.

Lemma keeps_scalar {A} (rows : list A) : keeps_profiles (scalar_one_or_none rows).
Proof.
  intros db o db' Hok Hrun. now apply scalar_one_or_none_frame in Hrun as ->.
Qed.

Lemma keeps_add_profile p : keeps_profiles (ProfileRepository.add_profile p).
Proof.
  intros db o db' (Hu & Hn & Hrest). unfold ProfileRepository.add_profile.
  case_bool_decide as H1; [now intros [= _ <-]|].
  case_bool_decide as H2; [now intros [= _ <-]|].
  intros [= _ <-]. unfold profiles_ok. cbn. rewrite !fmap_app.
  split; [|split; [|exact Hrest]].
  - apply NoDup_app. split; [exact Hu|]. split; [|apply NoDup_singleton].
    intros x Hx Hx'. apply list_elem_of_singleton in Hx'. now subst.
  - apply NoDup_app. split; [exact Hn|]. split; [|apply NoDup_singleton].
    intros x Hx Hx'. apply list_elem_of_singleton in Hx'. now subst.
Qed.

Lemma keeps_store_profile p : keeps_profiles (ProfileRepository.store_profile p).
Proof.
  intros db o db' (Hu & Hn & Hrest). unfold ProfileRepository.store_profile.
  case_bool_decide as H1; [now intros [= _ <-]|].
  intros [= _ <-]. unfold profiles_ok. cbn.
  fold (replace_profile p (user_profiles db)).
  split; [|split; [|exact Hrest]].
  - now rewrite replace_profile_user_ids.
  - now apply replace_profile_names.
Qed.

Lemma keeps_modify_life_areas (f : Db -> list UserLifeArea.t) :
  keeps_profiles (modify (fun db => with_user_life_areas (f db) db)).
Proof. now intros db o db' Hok [= _ <-]. Qed.

Lemma keeps_validate_life_areas ids :
  keeps_profiles (ProfileService.validate_life_areas ids).
Proof.
  induction ids as [|i ids IH]; [apply keeps_ret|].
  cbn [ProfileService.validate_life_areas]. apply keeps_bind.
  - unfold ProfileRepository.get_life_area_by_id.
    apply keeps_bind; [apply keeps_query|intros; apply keeps_scalar].
  - intros [a|]; [exact IH|apply keeps_raise].
Qed.

Ltac keeps :=
  repeat first
    [ apply keeps_ret | apply keeps_raise | apply keeps_query
    | apply keeps_scalar | apply keeps_add_profile | apply keeps_store_profile
    | apply keeps_modify_life_areas | apply keeps_validate_life_areas
    | apply keeps_bind | intros ? ].

(** The onboarding flow leaves the profile keys unique, in every outcome. *)
Theorem complete_onboarding_profiles_ok env user_id data :
  keeps_profiles (ProfileService.complete_onboarding env user_id data).
Proof.
  unfold ProfileService.complete_onboarding,
    ProfileRepository.get_by_user_id, ProfileRepository.get_by_player_name,
    ProfileRepository.get_archetype_by_id, ProfileRepository.get_life_mode_by_id,
    ProfileRepository.set_user_life_areas, ProfileRepository.get_user_life_areas,
    ProfileRepository.mark_onboarding_complete, ProfileRepository.update,
    ProfileRepository.create.
  apply keeps_bind; [keeps|]. intros existing.
  destruct (match existing with Some p => _ | None => _ end); [keeps|].
  apply keeps_bind; [keeps|]. intros taken.
  destruct (match taken with Some p => _ | None => _ end); [keeps|].
  apply keeps_bind; [keeps|]. intros archetype.
  destruct (negb _); [keeps|].
  apply keeps_bind; [keeps|]. intros life_mode.
  destruct (negb _); [keeps|].
  apply keeps_bind; [keeps|]. intros _.
  apply keeps_bind; [destruct existing; keeps|]. intros profile.
  apply keeps_bind; [keeps|]. intros _.
  apply keeps_bind; [keeps|]. intros _.
  apply keeps_bind; [keeps|]. intros [p|]; keeps.
Qed.

(** Claim C8. On a database with unique profile keys: if the user's
    profile is already marked [onboarding_completed], [complete_onboarding]
    raises [ValidationError] and leaves the database, hence the profile, as
    it was; on a first completion (the name is not another user's, the
    archetype, life mode and life areas exist) it returns the user's stored
    profile with [onboarding_completed = true] and [identity_locked_until]
    exactly thirty days after the current instant. *)
Theorem complete_onboarding_locks (env : Env) (user_id : UUID)
    (data : OnboardingRequest) (db : Db) :
  profiles_ok db ->
  (forall p,
     p ∈ user_profiles db -> UserProfile.user_id p = user_id ->
     UserProfile.onboarding_completed p = true ->
     ProfileService.complete_onboarding env user_id data db
     = (Raise (ValidationError "Onboarding already completed"), db))
  /\ ((forall p,
         p ∈ user_profiles db -> UserProfile.user_id p = user_id ->
         UserProfile.onboarding_completed p = false) ->
      name_free (user_profiles db) user_id (req_player_name data) ->
      req_archetype_id data ∈ Archetype.id <$> archetypes db ->
      req_life_mode_id data ∈ LifeMode.id <$> life_modes db ->
      Forall (fun i => i ∈ LifeArea.id <$> life_areas db)
        (req_life_area_ids data) ->
      exists profile db',
        ProfileService.complete_onboarding env user_id data db
        = (Return {| resp_profile := profile;
                     resp_message :=
                       "Onboarding completed successfully! Your identity is locked for 30 days." |},
           db')
        /\ profile ∈ user_profiles db'
        /\ UserProfile.user_id profile = user_id
        /\ UserProfile.onboarding_completed profile = true
        /\ UserProfile.identity_locked_until profile
           = Some (utcnow env + days 30)).
Proof.
  intros Hok. split.
  - intros p Hp Hu Hc. destruct Hok as (Hnd & _).
    now apply (complete_onboarding_already env user_id data db p).
  - intros Hfirst Hfree Ha Hm Hl.
    destruct (complete_onboarding_first_time env user_id data db
                Hok Hfirst Hfree Ha Hm Hl)
      as (profile & db' & Hrun & Hin & Hu & _).
    exists (marked env profile), db'. auto.
Qed.

(** *** Reachable databases *)

Section Reachable.
Context (settings : Settings).
Context (bcrypt_digest : string -> string -> string).
Context (verify_oauth2_token : string -> string -> outcome IdInfo).
Context (rollback : bool).

Lemma settle_db_ok {A} db (r : outcome A * Db) :
  db_ok settings db -> db_ok settings r.2 ->
  db_ok settings (settle rollback db r).
Proof.
  intros Hdb Hr. destruct r as [[e|a] db']; cbn in *; [|exact Hr].
  now destruct rollback.
Qed.

Lemma handle_db_ok r db :
  request_ok r -> db_ok settings db ->
  db_ok settings (handle settings bcrypt_digest verify_oauth2_token rollback r db).
Proof.
  intros Hr Hok.
  destruct r; cbn [handle]; apply settle_db_ok; try exact Hok.
  - destruct (AuthService.register _ _ _ _ _ _ _ _) as [o db'] eqn:Hrun.
    now apply register_db_ok in Hrun.
  - destruct (AuthService.login _ _ _ _ _ _ _ _) as [o db'] eqn:Hrun.
    now apply login_db_ok in Hrun.
  - destruct (AuthService.refresh_tokens _ _ _ _ _ _) as [o db'] eqn:Hrun.
    now apply refresh_tokens_db_ok in Hrun.
  - destruct (AuthService.logout _ _) as [o db'] eqn:Hrun.
    now apply (logout_db_ok settings) in Hrun.
  - destruct (AuthService.logout_all _ _) as [o db'] eqn:Hrun.
    now apply (logout_all_db_ok settings) in Hrun.
  - destruct (AuthService.google_login _ _ _ _ _ _ _) as [o db'] eqn:Hrun.
    now apply google_login_db_ok in Hrun.
Qed.

(** Extra X21. Every database the authentication service builds from a
    well-formed one, by any sequence of register, login, refresh,
    logout, logout-all and Google sign-in requests (failed requests
    rolled back or not), is well formed: user ids and addresses are
    unique, addresses are stored lower-cased, stored hashes are
    well-formed bcrypt hashes, session tokens are unique, and every
    session row belongs to a stored user and holds the refresh token
    minted for that user at the row's creation instant. In particular
    every database built from the empty one. *)
Theorem serve_db_ok requests db :
  Forall request_ok requests -> db_ok settings db ->
  db_ok settings
    (serve settings bcrypt_digest verify_oauth2_token rollback requests db).
Proof.
  unfold serve. revert db.
  induction requests as [|r requests IH]; intros db Hall Hok; [exact Hok|].
  apply Forall_cons in Hall as [Hr Hall]. cbn [fold_left].
  apply IH; [exact Hall|]. now apply handle_db_ok.
Qed.

Lemma empty_db_ok : db_ok settings empty_db.
Proof.
  repeat split; cbn; try apply NoDup_nil_2; apply Forall_nil_2.
Qed.
End Reachable.

(** *** Worked examples *)

Lemma token_type_cross_use_witness :
  decoded_type sample_settings 1200 sample_refresh_token
    <> Some (JStr "access")
  /\ exists message,
       AuthService.get_current_user sample_settings (sample_env 1200 1%N)
         sample_refresh_token sample_registration.2
       = (Raise (InvalidTokenError message), sample_registration.2).
Proof.
  split; [by_compute|].
  apply (proj1 (proj2 (token_type_cross_use sample_settings
                         (sample_env 1200 1%N) sample_refresh_token
                         None None sample_registration.2))).
  by_compute.
Defined.

Lemma token_round_trip_witness :
  1200 <= 1000 + minutes (ACCESS_TOKEN_EXPIRE_MINUTES sample_settings)
  /\ exists payload,
       decode_token sample_settings 1200
         (create_access_token sample_settings 1000 (SubjectUUID 17%N) None None)
       = Some payload
       /\ payload !! "sub" = Some (JStr (uuid_str 17%N))
       /\ payload !! "type" = Some (JStr "access").
Proof.
  split; [by_compute|].
  apply (proj1 (token_round_trip sample_settings 1000 1200 17%N)).
  by_compute.
Defined.

Lemma get_current_user_errors_witness :
  NoDup (User.id <$> users sample_registration.2)
  /\ AuthService.get_current_user sample_settings (sample_env 1200 1%N)
       sample_access_token sample_registration.2
     = (Return sample_user, sample_registration.2).
Proof.
  assert (NoDup (User.id <$> users sample_registration.2)) as Hnd
    by by_compute.
  split; [exact Hnd|].
  refine (proj2 (proj1 (proj2 (proj2 (proj2 (get_current_user_errors
            sample_settings (sample_env 1200 1%N) sample_access_token
            sample_registration.2 Hnd)))) sample_access_payload
            "00000000-0000-0000-0000-000000000011" 17%N _ _ _ _ _)
          sample_user _ _).
  - vm_compute. reflexivity.
  - vm_compute. reflexivity.
  - vm_compute. reflexivity.
  - discriminate.
  - vm_compute. reflexivity.
  - by_compute.
  - reflexivity.
Defined.


Lemma register_spec_witness :
  users_ok empty_db
  /\ sessions_minted sample_settings empty_db
  /\ env_ok empty_db (sample_env 1000 17%N)
  /\ (utf8_length "correct horse!" <= 72)%nat
  /\ exists password_hash,
       hash_password sample_digest sample_salt "correct horse!"
       = Return password_hash
       /\ let user :=
            registered_user (sample_env 1000 17%N) "Alice@Example.com"
              password_hash in
          AuthService.register sample_settings sample_digest
            (sample_env 1000 17%N) "Alice@Example.com" "correct horse!"
            None None empty_db
          = (Return {| access_token :=
                         (new_tokens sample_settings (sample_env 1000 17%N)
                            user).1;
                       refresh_token :=
                         (new_tokens sample_settings (sample_env 1000 17%N)
                            user).2;
                       token_type := "bearer";
                       is_new_user := true |},
             with_user_sessions
               [new_session sample_settings (sample_env 1000 17%N) user
                  None None]
               (with_users [user] empty_db))
          /\ User.email user = "alice@example.com"
          /\ User.email_verified user = false.
Proof.
  assert (users_ok empty_db) as Hu by by_compute.
  assert (sessions_minted sample_settings empty_db) as Hm by by_compute.
  assert (env_ok empty_db (sample_env 1000 17%N)) as He by by_compute.
  assert (utf8_length "correct horse!" <= 72)%nat as Hlen by by_compute.
  split; [exact Hu|]. split; [exact Hm|]. split; [exact He|].
  split; [exact Hlen|].
  refine (proj1 (proj2 (register_spec sample_settings sample_digest
                  (sample_env 1000 17%N) "Alice@Example.com" "correct horse!"
                  None None empty_db Hu Hm He)) _ Hlen).
  intros (u & Hin & _). now apply elem_of_nil in Hin.
Defined.


Lemma refresh_tokens_keeps_sessions_witness :
  AuthService.refresh_tokens sample_settings (sample_env 1001 18%N)
    sample_refresh_token None None sample_registration.2
  = (Return (AuthService.response
               (new_tokens sample_settings (sample_env 1001 18%N) sample_user)
               false),
     with_user_sessions
       (user_sessions sample_registration.2
          ++ [new_session sample_settings (sample_env 1001 18%N) sample_user
                None None]) sample_registration.2).
Proof.
  refine (proj1 (proj2 (refresh_tokens_keeps_sessions sample_settings
            (sample_env 1001 18%N) sample_refresh_token None None
            sample_registration.2) sample_refresh_payload
            "00000000-0000-0000-0000-000000000011" sample_user
            _ _ _ _ _ _ _ _ _)).
  - by_compute.
  - vm_compute. reflexivity.
  - vm_compute. reflexivity.
  - vm_compute. reflexivity.
  - discriminate.
  - vm_compute. reflexivity.
  - by_compute.
  - reflexivity.
  - by_compute.
Defined.

Lemma logout_never_fails_witness :
  sessions_ok sample_registration.2
  /\ AuthService.logout sample_refresh_token sample_registration.2
     = (Return tt, with_user_sessions [] sample_registration.2)
  /\ AuthService.logout sample_refresh_token
       (with_user_sessions [] sample_registration.2)
     = (Return tt, with_user_sessions [] sample_registration.2).
Proof.
  assert (sessions_ok sample_registration.2) as Hs by by_compute.
  split; [exact Hs|].
  pose proof (logout_never_fails sample_refresh_token sample_registration.2 Hs)
    as (H1 & _ & _ & H4).
  split; [exact H1|exact H4].
Defined.

Lemma complete_onboarding_locks_witness :
  profiles_ok sample_catalogue
  /\ exists profile db',
       ProfileService.complete_onboarding (sample_env 1000 1%N) 17%N
         sample_onboarding sample_catalogue
       = (Return {| resp_profile := profile;
                    resp_message :=
                      "Onboarding completed successfully! Your identity is locked for 30 days." |},
          db')
       /\ profile ∈ user_profiles db'
       /\ UserProfile.user_id profile = 17%N
       /\ UserProfile.onboarding_completed profile = true
       /\ UserProfile.identity_locked_until profile = Some (1000 + days 30).
Proof.
  assert (profiles_ok sample_catalogue) as Hok by by_compute.
  split; [exact Hok|].
  apply (proj2 (complete_onboarding_locks (sample_env 1000 1%N) 17%N
                  sample_onboarding sample_catalogue Hok)).
  - intros p Hp. now apply elem_of_nil in Hp.
  - intros p Hp. now apply elem_of_nil in Hp.
  - by_compute.
  - by_compute.
  - by_compute.
Defined.

Lemma google_login_second_link_witness :
  exists resp db',
    AuthService.google_login sample_settings sample_verifier
      (sample_env 2000 18%N) "id-token-2" None None sample_google_login.2
    = (Return resp, db')
    /\ links_of db' 17%N "google"
       = [google_link sample_google_account (sample_google_user "google-subject-1");
          google_link sample_google_account (sample_google_user "google-subject-2")]
    /\ (2 <= length (links_of db' 17%N "google"))%nat.
Proof.
  refine (google_login_second_link sample_settings sample_verifier
            (sample_env 2000 18%N) "id-token-2" None None sample_google_login.2
            (sample_google_user "google-subject-2") sample_google_account
            (google_link sample_google_account
               (sample_google_user "google-subject-1"))
            _ _ _ _ _ _ _ _ _).
  - by_compute.
  - vm_compute. reflexivity.
  - reflexivity.
  - reflexivity.
  - by_compute.
  - vm_compute. reflexivity.
  - by_compute.
  - by_compute.
  - by_compute.
Defined.

Lemma google_login_ignores_is_active_witness :
  User.is_active sample_inactive_user = false
  /\ AuthService.google_login sample_settings sample_verifier
       (sample_env 1000 99%N) "id-token-1" None None sample_inactive_db
     = (Return (AuthService.response
                  (new_tokens sample_settings (sample_env 1000 99%N)
                     sample_inactive_user) false),
        with_user_sessions
          (user_sessions sample_inactive_db
             ++ [new_session sample_settings (sample_env 1000 99%N)
                   sample_inactive_user None None])
          (touch_user (sample_env 1000 99%N) sample_inactive_user
             (google_linked sample_inactive_user
                (sample_google_user "google-subject-1") sample_inactive_db))).
Proof.
  split; [reflexivity|].
  refine (proj1 (google_login_ignores_is_active sample_settings sample_digest
            sample_verifier (sample_env 1000 99%N) "id-token-1" None None
            sample_inactive_db (sample_google_user "google-subject-1")
            sample_inactive_user _ _ _ _ _ _ _ _ _)).
  - by_compute.
  - vm_compute. reflexivity.
  - reflexivity.
  - reflexivity.
  - by_compute.
  - by_compute.
  - vm_compute. reflexivity.
  - reflexivity.
  - by_compute.
Defined.

(** *** Where the claims as worded fail *)

(** Claim C6 as worded fails: the refresh token that a registration has
    just minted is valid, yet presenting it within the same second mints
    the very same token again, the unique index refuses the row, and no
    session is added. *)
Lemma refresh_tokens_same_second :
  sample_registration.1
    = Return (AuthService.response
                (new_tokens sample_settings (sample_env 1000 17%N) sample_user)
                true)
  /\ (new_tokens sample_settings (sample_env 1000 17%N) sample_user).2
     = sample_refresh_token
  /\ decoded_type sample_settings 1000 sample_refresh_token
     = Some (JStr "refresh")
  /\ sample_user ∈ users sample_registration.2
  /\ User.is_active sample_user = true
  /\ AuthService.refresh_tokens sample_settings (sample_env 1000 18%N)
       sample_refresh_token None None sample_registration.2
     = (Raise (IntegrityError "user_sessions.session_token"),
        sample_registration.2).
Proof.
  repeat split; try (vm_compute; reflexivity). by_compute.
Qed.

(** Claim C10 as worded fails: a second Google login of the deactivated
    account within the same second returns no pair. *)
Lemma google_login_same_second :
  User.is_active sample_inactive_user = false
  /\ sample_inactive_user ∈ users sample_inactive_db
  /\ returns
       (AuthService.google_login sample_settings sample_verifier
          (sample_env 1000 99%N) "id-token-1" None None sample_inactive_db).1
     = true
  /\ (AuthService.google_login sample_settings sample_verifier
        (sample_env 1000 99%N) "id-token-1" None None
        (AuthService.google_login sample_settings sample_verifier
           (sample_env 1000 99%N) "id-token-1" None None sample_inactive_db).2).1
     = Raise (IntegrityError "user_sessions.session_token").
Proof.
  repeat split; try (vm_compute; reflexivity). by_compute.
Qed.

(** [login] verifies the password before it reads [is_active]: for a
    deactivated account that has a password hash, a password of more than
    72 bytes meets bcrypt's [ValueError], not [InvalidCredentialsError]. *)
Lemma login_inactive_long_password :
  User.is_active sample_inactive_password_user = false
  /\ exists message,
       AuthService.login sample_settings sample_digest (sample_env 2000 18%N)
         "alice@example.com" sample_long_password None None
         (with_users [sample_inactive_password_user] empty_db)
       = (Raise (ValueError message),
          with_users [sample_inactive_password_user] empty_db).
Proof. split; [reflexivity|]. eexists. vm_compute. reflexivity. Qed.

(** The key the Google flow looks links up by is not kept unique: a
    subject that signs in under a new address gets a second account and a
    second link with the same key, after which every login of that
    subject to a stored account fails in the lookup. *)
Lemma google_login_duplicates_link_key :
  returns sample_moved_login.1 = true
  /\ ~ link_unique sample_moved_login.2 "google" "google-subject-1"
  /\ (AuthService.google_login sample_settings sample_verifier
        (sample_env 3000 19%N) "id-token-1" None None sample_moved_login.2).1
     = Raise MultipleResultsFound.
Proof.
  split; [vm_compute; reflexivity|]. split; [by_compute|].
  vm_compute. reflexivity.
Qed.

(** ** Further properties of the authentication flows *)

(** *** Who an access token authenticates *)

Section Authenticate.
Context (settings : Settings).

Lemma get_current_user_inv env t db user db' :
  AuthService.get_current_user settings env t db = (Return user, db') ->
  exists payload s,
    decode_token settings (utcnow env) t = Some payload
    /\ payload !! "type" = Some (JStr "access")
    /\ payload !! "sub" = Some (JStr s)
    /\ UUID_parse s = Return (User.id user)
    /\ db' = db /\ user ∈ users db /\ User.is_active user = true.
Proof.
  unfold AuthService.get_current_user.
  destruct (decode_token settings (utcnow env) t) as [payload|] eqn:Hd;
    [|discriminate].
  case_bool_decide as Hp; [discriminate|].
  case_bool_decide as Ht; [discriminate|].
  destruct (truthy (payload !! "sub")) eqn:Hs; [|discriminate].
  cbn [negb]. run.
  destruct (payload !! "sub") as [[| |z|s]|] eqn:Hsub; try discriminate.
  cbn [UUID_of_claim].
  destruct (UUID_parse s) as [e|user_id] eqn:Hparse; [discriminate|].
  destruct (UserRepository.get_by_id user_id db) as [[e|[u|]] db1] eqn:Hget;
    try discriminate.
  destruct (User.is_active u) eqn:Ha; cbn [negb]; [|discriminate].
  intros [= -> ->].
  pose proof (get_by_id_frame _ _ _ _ Hget) as ->.
  apply get_by_id_sound in Hget as [Hin Hid].
  exists payload, s. split; [reflexivity|]. split.
  { destruct (decide (payload !! "type" = Some (JStr "access")));
      [assumption|contradiction]. }
  split; [exact Hsub|]. split; [now rewrite Hid|]. auto.
Qed.

(** The outcome is a function of the [users] table alone. *)
Lemma get_current_user_users env t db1 db2 :
  users db1 = users db2 ->
  (AuthService.get_current_user settings env t db1).1
  = (AuthService.get_current_user settings env t db2).1.
Proof.
  intros Hu. unfold AuthService.get_current_user.
  destruct (decode_token settings (utcnow env) t) as [payload|];
    [|reflexivity].
  case_bool_decide; [reflexivity|].
  case_bool_decide; [reflexivity|].
  destruct (truthy (payload !! "sub")); [|reflexivity].
  cbn [negb]. run.
  destruct (UUID_of_claim (payload !! "sub")) as [e|user_id]; [reflexivity|].
  unfold UserRepository.get_by_id. run. rewrite Hu.
  destruct (filter _ (users db2)) as [|u [|u' rows]]; cbn; try reflexivity.
  now destruct (User.is_active u).
Qed.

Lemma logout_users t db : users (AuthService.logout t db).2 = users db.
Proof.
  unfold AuthService.logout, UserRepository.get_session_by_token. run.
  destruct (filter _ (user_sessions db)) as [|s [|s' rows]]; reflexivity.
Qed.

Lemma access_token_valid env env' user db :
  NoDup (User.id <$> users db) -> user ∈ users db ->
  uuid_wf (User.id user) ->
  utcnow env' <= utcnow env + minutes (ACCESS_TOKEN_EXPIRE_MINUTES settings) ->
  AuthService.get_current_user settings env'
    (create_access_token settings (utcnow env) (SubjectUUID (User.id user))
       None None) db
  = (if User.is_active user then Return user
     else Raise (InvalidTokenError "Account is deactivated"), db).
Proof.
  intros Hnd Hin Hwf Hle.
  destruct (decode_access_token settings (utcnow env) (utcnow env')
              (SubjectUUID (User.id user)) None Hle)
    as (payload & Hd & Hsub & Htype & _).
  rewrite (get_current_user_lookup settings env' _ db payload
             (uuid_str (User.id user)) Hd Htype Hsub
             (uuid_str_nonempty _ Hwf)).
  rewrite UUID_parse_str by exact Hwf.
  rewrite get_by_id_found by assumption.
  now destruct (User.is_active user).
Qed.

Lemma decode_expired now' alg key payload e :
  payload !! "exp" = Some (JNum e) -> e < now' ->
  jwt_decode now' (Jws alg key payload) (JWT_SECRET_KEY settings)
    [JWT_ALGORITHM settings] = None.
Proof.
  intros He Hlt. unfold jwt_decode, claims_ok, exp_ok. rewrite He.
  cbn [int_of_claim].
  replace (e <? now') with true by (symmetry; now apply Z.ltb_lt).
  cbn [negb]. rewrite andb_false_r. cbn [andb]. now rewrite andb_false_r.
Qed.

Lemma access_token_expired now now' subj delta :
  expiry now delta (minutes (ACCESS_TOKEN_EXPIRE_MINUTES settings)) < now' ->
  decode_token settings now' (create_access_token settings now subj delta None)
  = None.
Proof.
  intros Hlt. unfold decode_token, create_access_token, jwt_encode.
  eapply decode_expired; [|exact Hlt]. now map_lookups.
Qed.

Lemma refresh_token_expired now now' subj delta :
  expiry now delta (days (REFRESH_TOKEN_EXPIRE_DAYS settings)) < now' ->
  decode_token settings now' (create_refresh_token settings now subj delta)
  = None.
Proof.
  intros Hlt. unfold decode_token, create_refresh_token, jwt_encode.
  eapply decode_expired; [|exact Hlt]. now map_lookups.
Qed.
End Authenticate.

(** Extra X1. Whenever [get_current_user] returns a user, the database is
    unchanged, the user is a stored row with [is_active] set, and the
    token is a JWS signed with the configured key and algorithm whose
    registered claims pass the checks of [jwt.decode] at the instant of
    the call (so its [exp], if it has one, reads as an integer that has
    not passed), whose [type] is "access" and whose [sub] is a string
    that [uuid.UUID] reads as that row's id. *)
Theorem get_current_user_sound (settings : Settings) (env : Env) (t : token)
    (db db' : Db) (user : User.t) :
  AuthService.get_current_user settings env t db = (Return user, db') ->
  db' = db /\ user ∈ users db /\ User.is_active user = true
  /\ exists payload s,
       t = Jws (JWT_ALGORITHM settings) (JWT_SECRET_KEY settings) payload
       /\ claims_ok (utcnow env) payload = true
       /\ (forall v, payload !! "exp" = Some v ->
                     exists exp, int_of_claim v = Some exp
                                 /\ utcnow env <= exp)
       /\ payload !! "type" = Some (JStr "access")
       /\ payload !! "sub" = Some (JStr s)
       /\ UUID_parse s = Return (User.id user).
Proof.
  intros Hrun.
  apply get_current_user_inv in Hrun
    as (payload & s & Hd & Ht & Hs & Hp & -> & Hin & Ha).
  apply decode_token_Some in Hd as (-> & He).
  repeat split; try assumption. exists payload, s.
  split; [reflexivity|]. split; [exact He|]. split; [|auto].
  intros v Hv. unfold claims_ok in He.
  do 4 (apply andb_true_iff in He as [He _]).
  apply andb_true_iff in He as [_ He]. unfold exp_ok in He. rewrite Hv in He.
  destruct (int_of_claim v) as [exp|]; [|discriminate].
  exists exp. split; [reflexivity|].
  apply negb_true_iff, Z.ltb_ge in He. exact He.
Qed.

Lemma get_current_user_sound_witness :
  sample_registration.2 = sample_registration.2
  /\ sample_user ∈ users sample_registration.2
  /\ User.is_active sample_user = true
  /\ exists payload s,
       sample_access_token
       = Jws (JWT_ALGORITHM sample_settings) (JWT_SECRET_KEY sample_settings)
           payload
       /\ claims_ok 1200 payload = true
       /\ (forall v, payload !! "exp" = Some v ->
                     exists exp, int_of_claim v = Some exp /\ 1200 <= exp)
       /\ payload !! "type" = Some (JStr "access")
       /\ payload !! "sub" = Some (JStr s)
       /\ UUID_parse s = Return (User.id sample_user).
Proof.
  apply (get_current_user_sound sample_settings (sample_env 1200 1%N)
           sample_access_token sample_registration.2 sample_registration.2
           sample_user).
  vm_compute. reflexivity.
Defined.

(** Extra X2. Access tokens are not tied to sessions: after [logout] of
    any session token, and after [logout_all] of any account, every token
    gets from [get_current_user] the outcome it got before. *)
Theorem access_token_survives_logout (settings : Settings) (env : Env)
    (t session_token : token) (user_id : UUID) (db : Db) :
  (AuthService.get_current_user settings env t
     (AuthService.logout session_token db).2).1
  = (AuthService.get_current_user settings env t db).1
  /\ (AuthService.get_current_user settings env t
        (AuthService.logout_all user_id db).2).1
     = (AuthService.get_current_user settings env t db).1.
Proof.
  split; apply get_current_user_users; [apply logout_users|reflexivity].
Qed.

(** Extra X3. The access token minted for a stored account at one instant
    authenticates that account at every instant up to the mint instant
    plus ACCESS_TOKEN_EXPIRE_MINUTES (returning the row, or "Account is
    deactivated" when [is_active] is off), and is refused with the
    default [InvalidTokenError] at every later instant; the database is
    never changed. *)
Theorem access_token_lifetime (settings : Settings) (env env' : Env)
    (user : User.t) (db : Db) :
  NoDup (User.id <$> users db) -> user ∈ users db -> uuid_wf (User.id user) ->
  AuthService.get_current_user settings env'
    (create_access_token settings (utcnow env) (SubjectUUID (User.id user))
       None None) db
  = if bool_decide
         (utcnow env'
          <= utcnow env + minutes (ACCESS_TOKEN_EXPIRE_MINUTES settings))
    then (if User.is_active user then Return user
          else Raise (InvalidTokenError "Account is deactivated"), db)
    else (Raise InvalidTokenError_, db).
Proof.
  intros Hnd Hin Hwf. case_bool_decide as Hle.
  - now apply access_token_valid.
  - unfold AuthService.get_current_user.
    rewrite access_token_expired; [reflexivity|]. cbn [expiry]. lia.
Qed.

Lemma access_token_lifetime_witness :
  AuthService.get_current_user sample_settings (sample_env 2801 1%N)
    sample_access_token sample_registration.2
  = (Raise InvalidTokenError_, sample_registration.2).
Proof.
  refine (access_token_lifetime sample_settings (sample_env 1000 17%N)
            (sample_env 2801 1%N) sample_user sample_registration.2 _ _ _);
    by_compute.
Defined.

(** Extra X4. [get_token_subject] of a token minted by
    [create_access_token] or [create_refresh_token] is the text of the
    subject at every instant up to the token's expiry and [None] after
    it (a zero [expires_delta] counts as no delta); it is [None] for
    every token signed with another key. *)
Theorem get_token_subject_lifetime (settings : Settings) (now now' : Z)
    (subj : subject) (delta : option Z) :
  get_token_subject settings now'
    (create_access_token settings now subj delta None)
  = (if bool_decide
          (now' <= expiry now delta
                     (minutes (ACCESS_TOKEN_EXPIRE_MINUTES settings)))
     then Some (JStr (str_subject subj)) else None)
  /\ get_token_subject settings now'
       (create_refresh_token settings now subj delta)
     = (if bool_decide
             (now' <= expiry now delta
                        (days (REFRESH_TOKEN_EXPIRE_DAYS settings)))
        then Some (JStr (str_subject subj)) else None)
  /\ (forall alg key payload,
        key <> JWT_SECRET_KEY settings ->
        get_token_subject settings now' (Jws alg key payload) = None).
Proof.
  unfold get_token_subject. split; [|split].
  - case_bool_decide as Hle.
    + destruct (decode_access_token settings now now' subj delta Hle)
        as (payload & -> & Hs & _). exact Hs.
    + rewrite access_token_expired by lia. reflexivity.
  - case_bool_decide as Hle.
    + destruct (decode_refresh_token settings now now' subj delta Hle)
        as (payload & -> & Hs & _). exact Hs.
    + rewrite refresh_token_expired by lia. reflexivity.
  - intros alg key payload Hk. unfold decode_token, jwt_decode.
    rewrite (bool_decide_eq_false_2 (key = _)) by exact Hk.
    now rewrite andb_false_r.
Qed.

(** *** Password login *)

Lemma hash_ok_nonempty (h : string) : hash_ok (Some h) -> h <> "".
Proof.
  intros [prefix Hp] ->. vm_compute in Hp. discriminate.
Qed.

Section Login.
Context (settings : Settings).
Context (bcrypt_digest : string -> string -> string).

Lemma login_valid env email password device_info ip_address db user h :
  users_ok db -> user ∈ users db -> User.email user = lower email ->
  User.password_hash user = Some h ->
  verify_password bcrypt_digest password h = Return true ->
  User.is_active user = true ->
  (create_refresh_token settings (utcnow env) (SubjectUUID (User.id user)) None
     ∉ UserSession.session_token <$> user_sessions db) ->
  AuthService.login settings bcrypt_digest env email password device_info
    ip_address db
  = (Return (AuthService.response (new_tokens settings env user) false),
     with_user_sessions
       (user_sessions db
          ++ [new_session settings env user device_info ip_address])
       (touch_user env user db)).
Proof.
  intros (_ & Hnd & _ & _ & Hh) Hin He Hp Hv Ha Hfresh.
  unfold AuthService.login. run.
  rewrite (get_by_email_found db user) by assumption.
  rewrite Forall_forall in Hh. specialize (Hh user Hin). rewrite Hp in Hh.
  apply hash_ok_nonempty in Hh. rewrite Hp. cbn [nonempty].
  rewrite (proj2 (String.eqb_neq h "") Hh). cbn [negb].
  change (default "" (Some h)) with h. rewrite Hv, Ha. cbn [negb].
  unfold UserRepository.update_last_login. run.
  now rewrite create_tokens_and_session_fresh.
Qed.

Lemma login_no_password env email password device_info ip_address db user :
  NoDup (User.email <$> users db) -> user ∈ users db ->
  User.email user = lower email -> User.password_hash user = None ->
  AuthService.login settings bcrypt_digest env email password device_info
    ip_address db
  = (Raise InvalidCredentialsError_, db).
Proof.
  intros Hnd Hin He Hp. unfold AuthService.login. run.
  rewrite (get_by_email_found db user) by assumption.
  now rewrite Hp.
Qed.
End Login.

(** Extra X5. On a well-formed [users] table, [login] fails with the
    default [InvalidCredentialsError] ("Invalid email or password") and
    leaves the database unchanged whenever the stored account with the
    lower-cased address, if there is one and it has a password hash, has
    a hash the password verifies as false against: an unknown address,
    an account without a password and a wrong password are answered
    alike. (A password [verify_password] raises on, such as one of more
    than 72 bytes, is not among them.) *)
Theorem login_rejects_alike (settings : Settings)
    (bcrypt_digest : string -> string -> string) (env : Env)
    (email password : string) (device_info ip_address : option string)
    (db : Db) :
  users_ok db ->
  (forall user h,
     user ∈ users db -> User.email user = lower email ->
     User.password_hash user = Some h ->
     verify_password bcrypt_digest password h = Return false) ->
  AuthService.login settings bcrypt_digest env email password device_info
    ip_address db
  = (Raise InvalidCredentialsError_, db).
Proof.
  intros (_ & Hnd & _ & _ & Hh) Hno.
  destruct (select_cases User.email (lower email) (users db) Hnd)
    as [[Hout Hf]|(u & Hin & He & Hf)].
  - unfold AuthService.login. run.
    now rewrite get_by_email_missing by exact Hout.
  - unfold AuthService.login. run.
    rewrite (get_by_email_found db u) by assumption.
    destruct (User.password_hash u) as [h|] eqn:Hp; [|reflexivity].
    rewrite Forall_forall in Hh. specialize (Hh u Hin). rewrite Hp in Hh.
    pose proof (hash_ok_nonempty _ Hh) as Hne. cbn [nonempty].
    rewrite (proj2 (String.eqb_neq h "") Hne). cbn [negb].
    change (default "" (Some h)) with h.
    now rewrite (Hno u h Hin He Hp).
Qed.

Lemma login_rejects_alike_witness :
  AuthService.login sample_settings sample_digest (sample_env 2000 18%N)
    "alice@example.com" "wrong horse!" None None sample_registration.2
  = (Raise InvalidCredentialsError_, sample_registration.2)
  /\ AuthService.login sample_settings sample_digest (sample_env 2000 18%N)
       "bob@example.com" "correct horse!" None None sample_registration.2
     = (Raise InvalidCredentialsError_, sample_registration.2).
Proof.
  assert (users_ok sample_registration.2) as Hu by by_compute.
  split.
  - refine (login_rejects_alike sample_settings sample_digest
              (sample_env 2000 18%N) "alice@example.com" "wrong horse!"
              None None sample_registration.2 Hu _).
    intros user h Hin _ Hp. apply list_elem_of_singleton in Hin.
    subst user. injection Hp as <-. vm_compute. reflexivity.
  - refine (login_rejects_alike sample_settings sample_digest
              (sample_env 2000 18%N) "bob@example.com" "correct horse!"
              None None sample_registration.2 Hu _).
    intros user h Hin He. apply list_elem_of_singleton in Hin.
    subst user. vm_compute in He. discriminate.
Defined.

(** Extra X6. [login] with the address of a stored active account (in
    any letter case) and a password that verifies against its hash
    returns the pair minted for that account with [is_new_user = false],
    stamps the account's [last_login_at] with the current instant, adds
    exactly one session row and changes nothing else, provided the
    refresh token it mints is not stored yet. *)
Theorem login_accepts (settings : Settings)
    (bcrypt_digest : string -> string -> string) (env : Env)
    (email password : string) (device_info ip_address : option string)
    (db : Db) (user : User.t) (h : string) :
  users_ok db -> user ∈ users db -> User.email user = lower email ->
  User.password_hash user = Some h ->
  verify_password bcrypt_digest password h = Return true ->
  User.is_active user = true ->
  (create_refresh_token settings (utcnow env) (SubjectUUID (User.id user)) None
     ∉ UserSession.session_token <$> user_sessions db) ->
  let db' :=
    with_user_sessions
      (user_sessions db ++ [new_session settings env user device_info ip_address])
      (touch_user env user db) in
  AuthService.login settings bcrypt_digest env email password device_info
    ip_address db
  = (Return {| access_token := (new_tokens settings env user).1;
               refresh_token := (new_tokens settings env user).2;
               token_type := "bearer";
               is_new_user := false |}, db')
  /\ User.with_last_login_at (Some (utcnow env)) user ∈ users db'
  /\ User.id <$> users db' = User.id <$> users db
  /\ auth_providers db' = auth_providers db.
Proof.
  intros Hok Hin He Hp Hv Ha Hfresh db'. split; [|split; [|split]].
  - now apply (login_valid settings bcrypt_digest env email password
                 device_info ip_address db user h).
  - now apply touch_user_stamped.
  - apply touch_user_ids.
  - reflexivity.
Qed.

Lemma login_accepts_witness :
  AuthService.login sample_settings sample_digest (sample_env 2000 18%N)
    "ALICE@example.com" "correct horse!" None None sample_registration.2
  = (Return {| access_token :=
                 (new_tokens sample_settings (sample_env 2000 18%N) sample_user).1;
               refresh_token :=
                 (new_tokens sample_settings (sample_env 2000 18%N) sample_user).2;
               token_type := "bearer";
               is_new_user := false |},
     with_user_sessions
       (user_sessions sample_registration.2
          ++ [new_session sample_settings (sample_env 2000 18%N) sample_user
                None None])
       (touch_user (sample_env 2000 18%N) sample_user sample_registration.2)).
Proof.
  refine (proj1 (login_accepts sample_settings sample_digest
                   (sample_env 2000 18%N) "ALICE@example.com" "correct horse!"
                   None None sample_registration.2 sample_user
                   "$2b$12$abcdefghijklmnopqrstuu!esroh tcerroc"
                   _ _ _ _ _ _ _)).
  - by_compute.
  - by_compute.
  - vm_compute. reflexivity.
  - reflexivity.
  - vm_compute. reflexivity.
  - reflexivity.
  - by_compute.
Defined.

Section RegisterLogin.
Context (settings : Settings).
Context (bcrypt_digest : string -> string -> string).

Lemma register_Return env email password device_info ip_address db resp db1 :
  users_ok db -> sessions_minted settings db -> env_ok db env ->
  AuthService.register settings bcrypt_digest env email password
    device_info ip_address db = (Return resp, db1) ->
  exists password_hash,
    hash_password bcrypt_digest (gensalt env) password = Return password_hash
    /\ (lower email ∉ User.email <$> users db)
    /\ let user := registered_user env email password_hash in
       resp = AuthService.response (new_tokens settings env user) true
       /\ db1 = with_user_sessions
                  (user_sessions db
                     ++ [new_session settings env user device_info ip_address])
                  (with_users (users db ++ [user]) db).
Proof.
  intros Hu Hm He Hrun.
  destruct (decide (lower email ∈ User.email <$> users db)) as [Hin|Hout].
  - apply (email_taken_iff db email) in Hin; [|apply Hu].
    destruct Hin as (u & Hin & Hl).
    rewrite (register_existing settings bcrypt_digest env email password
               device_info ip_address db u Hu Hin Hl) in Hrun.
    discriminate.
  - assert (~ (exists u, u ∈ users db /\ lower (User.email u) = lower email))
      as Hno.
    { intros Hex. apply Hout. apply (email_taken_iff db email); [apply Hu|].
      exact Hex. }
    destruct (le_lt_dec (utf8_length password) 72) as [Hlen|Hlen].
    2:{ destruct (register_too_long settings bcrypt_digest env email
                    password device_info ip_address db
                    (proj1 (proj2 (proj2 Hu))) Hno Hlen) as [message Hr].
        rewrite Hr in Hrun. discriminate. }
    destruct (register_new settings bcrypt_digest env email password
                device_info ip_address db Hu Hm He Hno Hlen)
      as (password_hash & Hh & Hreg).
    exists password_hash. split; [exact Hh|]. split; [exact Hout|].
    cbv zeta in Hreg |- *. rewrite Hreg in Hrun.
    injection Hrun as <- <-. split; reflexivity.
Qed.

Lemma fresh_after_mint env env' user device_info ip_address db :
  sessions_minted settings db ->
  Forall (fun u => uuid_wf (User.id u)) (users db) ->
  uuid_wf (User.id user) -> (User.id user ∉ User.id <$> users db) ->
  utcnow env' <> utcnow env ->
  create_refresh_token settings (utcnow env') (SubjectUUID (User.id user)) None
    ∉ UserSession.session_token
        <$> (user_sessions db
               ++ [new_session settings env user device_info ip_address])%list.
Proof.
  intros Hm Hwf Hu Hout Hne. rewrite fmap_app. apply not_elem_of_app. split.
  - now apply unused_key_token_absent.
  - cbn. intros Hin. apply list_elem_of_singleton in Hin.
    apply refresh_token_subject in Hin as [_ Hnow]; auto.
Qed.
End RegisterLogin.

(** Extra X7. Registration followed by login: after [register] returned
    for an address and a password, [login] at any other second with the
    same password and the address in any letter case returns the pair
    minted for the registered account (the row keyed by the [uuid4] drawn
    at registration), with [is_new_user = false], and adds one session. *)
Theorem register_then_login (settings : Settings)
    (bcrypt_digest : string -> string -> string) (env env' : Env)
    (email email' password : string)
    (device_info ip_address device_info' ip_address' : option string)
    (db db1 : Db) (resp : TokenResponse) :
  db_ok settings db -> env_ok db env ->
  AuthService.register settings bcrypt_digest env email password
    device_info ip_address db = (Return resp, db1) ->
  lower email' = lower email -> utcnow env' <> utcnow env ->
  exists user,
    user ∈ users db1 /\ User.id user = uuid4 env
    /\ User.email user = lower email
    /\ AuthService.login settings bcrypt_digest env' email' password
         device_info' ip_address' db1
       = (Return {| access_token := (new_tokens settings env' user).1;
                    refresh_token := (new_tokens settings env' user).2;
                    token_type := "bearer";
                    is_new_user := false |},
          with_user_sessions
            (user_sessions db1
               ++ [new_session settings env' user device_info' ip_address'])
            (touch_user env' user db1)).
Proof.
  intros Hok He Hrun Hl Hne.
  pose proof (register_db_ok settings bcrypt_digest env email password
                device_info ip_address db (Return resp) db1 Hok
                (proj1 He) Hrun) as (Hu1 & _).
  destruct Hok as (Hu & Hs & Hm).
  destruct (register_Return settings bcrypt_digest env email password
              device_info ip_address db resp db1 Hu Hm He Hrun)
    as (password_hash & Hh & Hout & _ & Hdb).
  cbv zeta in Hdb. set (user := registered_user env email password_hash) in *.
  exists user. split; [|split; [reflexivity|split; [reflexivity|]]].
  { subst db1. cbn. apply elem_of_app. right. apply list_elem_of_here. }
  apply (login_valid settings bcrypt_digest env' email' password device_info'
           ip_address' db1 user password_hash); try reflexivity.
  - exact Hu1.
  - subst db1. cbn. apply elem_of_app. right. apply list_elem_of_here.
  - cbn. now rewrite Hl.
  - eapply verify_hashed. exact Hh.
  - subst db1. cbn [user_sessions with_user_sessions].
    apply fresh_after_mint; try assumption; try apply Hu; apply He.
Qed.

Lemma register_then_login_witness :
  exists user,
    user ∈ users sample_registration.2 /\ User.id user = 17%N
    /\ User.email user = "alice@example.com"
    /\ AuthService.login sample_settings sample_digest (sample_env 1001 18%N)
         "ALICE@EXAMPLE.COM" "correct horse!" None None sample_registration.2
       = (Return {| access_token :=
                      (new_tokens sample_settings (sample_env 1001 18%N) user).1;
                    refresh_token :=
                      (new_tokens sample_settings (sample_env 1001 18%N) user).2;
                    token_type := "bearer";
                    is_new_user := false |},
          with_user_sessions
            (user_sessions sample_registration.2
               ++ [new_session sample_settings (sample_env 1001 18%N) user
                     None None])
            (touch_user (sample_env 1001 18%N) user sample_registration.2)).
Proof.
  refine (register_then_login sample_settings sample_digest
            (sample_env 1000 17%N) (sample_env 1001 18%N)
            "Alice@Example.com" "ALICE@EXAMPLE.COM" "correct horse!"
            None None None None empty_db sample_registration.2
            (AuthService.response
               (new_tokens sample_settings (sample_env 1000 17%N) sample_user)
               true)
            _ _ _ _ _).
  - by_compute.
  - by_compute.
  - vm_compute. reflexivity.
  - vm_compute. reflexivity.
  - vm_compute. discriminate.
Defined.

(** *** Logging out everywhere *)

Section LogoutAll.
Context (settings : Settings).

Lemma fresh_after_logout_all now user db :
  db_ok settings db -> uuid_wf (User.id user) ->
  create_refresh_token settings now (SubjectUUID (User.id user)) None
    ∉ UserSession.session_token
        <$> filter (fun s => UserSession.user_id s <> User.id user)
              (user_sessions db).
Proof.
  intros (Hu & _ & Hm) Hwf Hin.
  apply list_elem_of_fmap in Hin as (s & Hs & Hin).
  apply list_elem_of_filter in Hin as [Hne Hin].
  unfold sessions_minted in Hm. rewrite Forall_forall in Hm.
  destruct (Hm s Hin) as [Hid Hmint]. unfold minted_for in Hmint.
  rewrite Hmint in Hs.
  apply list_elem_of_fmap in Hid as (u & Hid & Huin).
  destruct Hu as (_ & _ & _ & Hwfs & _). rewrite Forall_forall in Hwfs.
  apply refresh_token_subject in Hs as [Heq _]; auto.
  rewrite Hid. now apply Hwfs.
Qed.
End LogoutAll.

(** Extra X8. [logout_all] never fails and deletes exactly the session
    rows of the given account; it revokes nothing: on a well-formed
    database, the refresh token minted earlier for a stored active
    account is still accepted by [refresh_tokens] right after that
    account's [logout_all], at every instant up to the token's expiry,
    and a new pair is minted and a new session stored for it. *)
Theorem logout_all_keeps_refresh_tokens (settings : Settings) (env : Env)
    (now0 : Z) (user : User.t) (device_info ip_address : option string)
    (db : Db) :
  db_ok settings db -> user ∈ users db -> User.is_active user = true ->
  utcnow env <= now0 + days (REFRESH_TOKEN_EXPIRE_DAYS settings) ->
  let db' :=
    with_user_sessions
      (filter (fun s => UserSession.user_id s <> User.id user)
         (user_sessions db)) db in
  AuthService.logout_all (User.id user) db = (Return tt, db')
  /\ AuthService.refresh_tokens settings env
       (create_refresh_token settings now0 (SubjectUUID (User.id user)) None)
       device_info ip_address db'
     = (Return {| access_token := (new_tokens settings env user).1;
                  refresh_token := (new_tokens settings env user).2;
                  token_type := "bearer";
                  is_new_user := false |},
        with_user_sessions
          (user_sessions db'
             ++ [new_session settings env user device_info ip_address]) db').
Proof.
  intros Hok Hin Ha Hle db'. split; [reflexivity|].
  assert (uuid_wf (User.id user)) as Hwf.
  { destruct Hok as ((_ & _ & _ & Hwfs & _) & _).
    rewrite Forall_forall in Hwfs. now apply Hwfs. }
  apply (refresh_tokens_minted settings env now0 user device_info ip_address
           db'); try assumption.
  - apply Hok.
  - now apply fresh_after_logout_all.
Qed.

Lemma logout_all_keeps_refresh_tokens_witness :
  AuthService.logout_all 17%N sample_registration.2
  = (Return tt, with_user_sessions [] sample_registration.2)
  /\ AuthService.refresh_tokens sample_settings (sample_env 1000 18%N)
       sample_refresh_token None None
       (with_user_sessions [] sample_registration.2)
     = (Return {| access_token :=
                    (new_tokens sample_settings (sample_env 1000 18%N)
                       sample_user).1;
                  refresh_token :=
                    (new_tokens sample_settings (sample_env 1000 18%N)
                       sample_user).2;
                  token_type := "bearer";
                  is_new_user := false |},
        with_user_sessions
          [new_session sample_settings (sample_env 1000 18%N) sample_user
             None None]
          (with_user_sessions [] sample_registration.2)).
Proof.
  refine (logout_all_keeps_refresh_tokens sample_settings
            (sample_env 1000 18%N) 1000 sample_user None None
            sample_registration.2 _ _ _ _).
  - by_compute.
  - by_compute.
  - reflexivity.
  - by_compute.
Defined.

(** Extra X20. The refresh token minted for a stored active account is
    accepted by [refresh_tokens] at every instant up to the mint instant
    plus REFRESH_TOKEN_EXPIRE_DAYS (a new pair is returned and one
    session row added, when the token minted now is not stored yet), and
    is refused with the default [InvalidTokenError], the database
    unchanged, at every later instant. *)
Theorem refresh_token_lifetime (settings : Settings) (env env' : Env)
    (user : User.t) (device_info ip_address : option string) (db : Db) :
  NoDup (User.id <$> users db) -> user ∈ users db ->
  uuid_wf (User.id user) -> User.is_active user = true ->
  (create_refresh_token settings (utcnow env') (SubjectUUID (User.id user)) None
     ∉ UserSession.session_token <$> user_sessions db) ->
  AuthService.refresh_tokens settings env'
    (create_refresh_token settings (utcnow env) (SubjectUUID (User.id user))
       None) device_info ip_address db
  = if bool_decide
         (utcnow env'
          <= utcnow env + days (REFRESH_TOKEN_EXPIRE_DAYS settings))
    then (Return {| access_token := (new_tokens settings env' user).1;
                    refresh_token := (new_tokens settings env' user).2;
                    token_type := "bearer";
                    is_new_user := false |},
          with_user_sessions
            (user_sessions db
               ++ [new_session settings env' user device_info ip_address]) db)
    else (Raise InvalidTokenError_, db).
Proof.
  intros Hnd Hin Hwf Ha Hfresh. case_bool_decide as Hle.
  - now apply (refresh_tokens_minted settings env' (utcnow env) user).
  - unfold AuthService.refresh_tokens.
    rewrite refresh_token_expired; [reflexivity|]. cbn [expiry]. lia.
Qed.

Lemma refresh_token_lifetime_witness :
  AuthService.refresh_tokens sample_settings (sample_env 605801 18%N)
    sample_refresh_token None None sample_registration.2
  = (Raise InvalidTokenError_, sample_registration.2).
Proof.
  refine (refresh_token_lifetime sample_settings (sample_env 1000 17%N)
            (sample_env 605801 18%N) sample_user None None
            sample_registration.2 _ _ _ _ _).
  - by_compute.
  - by_compute.
  - by_compute.
  - reflexivity.
  - by_compute.
Defined.

(** *** Signing in with Google *)

Section GoogleSignUp.
Context (settings : Settings).
Context (verify_oauth2_token : string -> string -> outcome IdInfo).

Lemma google_login_new env id_token device_info ip_address db g :
  users_ok db -> sessions_minted settings db ->
  uuid_wf (uuid4 env) -> (uuid4 env ∉ User.id <$> users db) ->
  verify_google_token settings verify_oauth2_token id_token = Return g ->
  nonempty (gu_email g) = true -> nonempty (gu_sub g) = true ->
  (lower (default "" (gu_email g)) ∉ User.email <$> users db) ->
  AuthService.google_login settings verify_oauth2_token env id_token
    device_info ip_address db
  = (Return (AuthService.response
               (new_tokens settings env (google_account env g)) true),
     google_signed_up settings env g device_info ip_address db).
Proof.
  intros Hu Hm Hwf Hid Hv He Hs Hout.
  unfold AuthService.google_login. run. rewrite Hv, He, Hs. cbn [negb orb].
  rewrite get_by_email_missing by exact Hout.
  unfold UserRepository.create. run.
  rewrite add_user_fresh by assumption.
  unfold UserRepository.create_auth_provider,
    UserRepository.update_last_login. run.
  rewrite create_tokens_and_session_fresh; [reflexivity|].
  cbn. apply unused_key_token_absent; try assumption. apply Hu.
Qed.

Lemma google_signed_up_users env g device_info ip_address db :
  users (google_signed_up settings env g device_info ip_address db)
  = users (touch_user env (google_account env g)
             (with_users (users db ++ [google_account env g]) db)).
Proof. reflexivity. Qed.

Lemma google_account_stored env g device_info ip_address db :
  User.with_last_login_at (Some (utcnow env)) (google_account env g)
    ∈ users (google_signed_up settings env g device_info ip_address db).
Proof.
  rewrite google_signed_up_users. apply touch_user_stamped. cbn.
  apply elem_of_app. right. apply list_elem_of_here.
Qed.

Lemma link_unique_after env g db :
  (("google", default "" (gu_sub g)) ∉ link_key <$> auth_providers db) ->
  link_unique
    (with_auth_providers
       (auth_providers db ++ [google_link (google_account env g) g]) db)
    "google" (default "" (gu_sub g)).
Proof.
  intros Hout. unfold link_unique. cbn [auth_providers with_auth_providers].
  rewrite filter_app, length_app.
  rewrite (select_none link_key _ _ Hout). cbn [length].
  rewrite filter_cons, filter_nil. case_decide; cbn; lia.
Qed.
End GoogleSignUp.

(** Extra X9. A first Google sign-in: for a verified identity with an
    address and a subject, whose lower-cased address no stored account
    has, [google_login] inserts an account with that address, no password
    hash, [email_verified] as Google reports it and [is_active] set, links
    it to the Google subject, stamps its [last_login_at], stores one
    session and returns its pair with [is_new_user = true]. No password
    opens the new account: [login] with its address fails with the
    default [InvalidCredentialsError] for every password. *)
Theorem google_login_new_account (settings : Settings)
    (bcrypt_digest : string -> string -> string)
    (verify_oauth2_token : string -> string -> outcome IdInfo)
    (env : Env) (id_token : string) (device_info ip_address : option string)
    (db : Db) (g : GoogleUser) :
  db_ok settings db ->
  uuid_wf (uuid4 env) -> (uuid4 env ∉ User.id <$> users db) ->
  verify_google_token settings verify_oauth2_token id_token = Return g ->
  nonempty (gu_email g) = true -> nonempty (gu_sub g) = true ->
  (lower (default "" (gu_email g)) ∉ User.email <$> users db) ->
  let user := google_account env g in
  let db' := google_signed_up settings env g device_info ip_address db in
  AuthService.google_login settings verify_oauth2_token env id_token
    device_info ip_address db
  = (Return {| access_token := (new_tokens settings env user).1;
               refresh_token := (new_tokens settings env user).2;
               token_type := "bearer";
               is_new_user := true |}, db')
  /\ users db'
     = (users db ++ [User.with_last_login_at (Some (utcnow env)) user])%list
  /\ auth_providers db' = (auth_providers db ++ [google_link user g])%list
  /\ (forall env' password device_info' ip_address',
        AuthService.login settings bcrypt_digest env'
          (default "" (gu_email g)) password device_info' ip_address' db'
        = (Raise InvalidCredentialsError_, db')).
Proof.
  intros Hok Hwf Hid Hv He Hs Hout user db'.
  assert (AuthService.google_login settings verify_oauth2_token env id_token
            device_info ip_address db
          = (Return (AuthService.response (new_tokens settings env user) true),
             db')) as Hrun
    by (apply google_login_new; try assumption; apply Hok).
  split; [exact Hrun|]. split; [|split; [reflexivity|]].
  - unfold db'. rewrite google_signed_up_users. unfold touch_user.
    cbn [users with_users]. rewrite fmap_app. f_equal.
    + rewrite <- (list_fmap_id (users db)) at 2. apply list_fmap_ext.
      intros i u Hu. case_decide as Hd; [|reflexivity].
      exfalso. apply Hid. cbn in Hd. rewrite <- Hd.
      apply list_elem_of_fmap_2. now apply list_elem_of_lookup_2 in Hu.
    + cbn. now rewrite decide_True by reflexivity.
  - intros env' password device_info' ip_address'.
    apply (login_no_password settings bcrypt_digest env' _ password
             device_info' ip_address' db'
             (User.with_last_login_at (Some (utcnow env)) user)).
    + pose proof (google_login_db_ok settings verify_oauth2_token env id_token
                    device_info ip_address db _ db' Hok Hwf Hrun) as Hok'.
      apply Hok'.
    + apply google_account_stored.
    + reflexivity.
    + reflexivity.
Qed.

Lemma google_login_new_account_witness :
  AuthService.google_login sample_settings sample_verifier
    (sample_env 1000 17%N) "id-token-1" None None empty_db
  = (Return {| access_token := sample_access_token;
               refresh_token := sample_refresh_token;
               token_type := "bearer";
               is_new_user := true |},
     google_signed_up sample_settings (sample_env 1000 17%N)
       (sample_google_user "google-subject-1") None None empty_db)
  /\ forall env' password device_info' ip_address',
       AuthService.login sample_settings sample_digest env'
         "alice@example.com" password device_info' ip_address'
         (google_signed_up sample_settings (sample_env 1000 17%N)
            (sample_google_user "google-subject-1") None None empty_db)
       = (Raise InvalidCredentialsError_,
          google_signed_up sample_settings (sample_env 1000 17%N)
            (sample_google_user "google-subject-1") None None empty_db).
Proof.
  pose proof (google_login_new_account sample_settings sample_digest
                sample_verifier (sample_env 1000 17%N) "id-token-1" None None
                empty_db (sample_google_user "google-subject-1")) as H.
  destruct H as (H1 & _ & _ & H4).
  - by_compute.
  - by_compute.
  - by_compute.
  - vm_compute. reflexivity.
  - reflexivity.
  - reflexivity.
  - by_compute.
  - split; [exact H1|exact H4].
Defined.

(** Extra X10. A returning Google identity: when the first sign-in of a
    verified identity created the account (its address and its Google
    subject were unknown before), a second sign-in of the same identity
    at another second returns the pair minted for that same account with
    [is_new_user = false], creates no account and adds no link: the
    [auth_providers] table and the stored account ids are as the first
    sign-in left them. *)
Theorem google_login_twice (settings : Settings)
    (verify_oauth2_token : string -> string -> outcome IdInfo)
    (env env' : Env) (id_token : string)
    (device_info ip_address device_info' ip_address' : option string)
    (db : Db) (g : GoogleUser) :
  db_ok settings db ->
  uuid_wf (uuid4 env) -> (uuid4 env ∉ User.id <$> users db) ->
  verify_google_token settings verify_oauth2_token id_token = Return g ->
  nonempty (gu_email g) = true -> nonempty (gu_sub g) = true ->
  (lower (default "" (gu_email g)) ∉ User.email <$> users db) ->
  (("google", default "" (gu_sub g)) ∉ link_key <$> auth_providers db) ->
  utcnow env' <> utcnow env ->
  let user := google_account env g in
  let db1 := google_signed_up settings env g device_info ip_address db in
  exists db2,
    AuthService.google_login settings verify_oauth2_token env id_token
      device_info ip_address db
    = (Return {| access_token := (new_tokens settings env user).1;
                 refresh_token := (new_tokens settings env user).2;
                 token_type := "bearer";
                 is_new_user := true |}, db1)
    /\ AuthService.google_login settings verify_oauth2_token env' id_token
         device_info' ip_address' db1
       = (Return {| access_token := (new_tokens settings env' user).1;
                    refresh_token := (new_tokens settings env' user).2;
                    token_type := "bearer";
                    is_new_user := false |}, db2)
    /\ auth_providers db2 = auth_providers db1
    /\ auth_providers db1 = (auth_providers db ++ [google_link user g])%list
    /\ User.id <$> users db2 = User.id <$> users db1.
Proof.
  intros Hok Hwf Hid Hv He Hs Hout Hlink Hne user db1.
  assert (AuthService.google_login settings verify_oauth2_token env id_token
            device_info ip_address db
          = (Return (AuthService.response (new_tokens settings env user) true),
             db1)) as Hrun
    by (apply google_login_new; try assumption; apply Hok).
  pose proof (google_login_db_ok settings verify_oauth2_token env id_token
                device_info ip_address db _ db1 Hok Hwf Hrun) as Hok1.
  set (user1 := User.with_last_login_at (Some (utcnow env)) user).
  assert (link_unique db1 "google" (default "" (gu_sub g))) as Hl1
    by (apply (link_unique_after env g db Hlink)).
  assert (create_refresh_token settings (utcnow env')
            (SubjectUUID (User.id user1)) None
          ∉ UserSession.session_token <$> user_sessions db1) as Hfresh.
  { unfold db1, google_signed_up. cbn [user_sessions with_user_sessions].
    destruct Hok as (Hu & _ & Hm).
    apply (fresh_after_mint settings env env' user device_info ip_address db);
      try assumption. apply Hu. }
  pose proof (google_login_existing settings verify_oauth2_token env' id_token
                device_info' ip_address' db1 g user1 (proj1 Hok1) Hv He Hs Hl1
                (google_account_stored settings env g device_info ip_address db)
                eq_refl Hfresh) as Hrun2.
  eexists. split; [exact Hrun|]. split; [exact Hrun2|].
  assert (google_linked user1 g db1 = db1) as Hsame.
  { unfold google_linked. rewrite decide_True; [reflexivity|].
    unfold db1, google_signed_up.
    cbn [auth_providers with_user_sessions touch_user with_users
         with_auth_providers].
    rewrite fmap_app. apply elem_of_app. right. cbn.
    apply list_elem_of_here. }
  rewrite Hsame. split; [reflexivity|]. split; [reflexivity|].
  cbn [users with_user_sessions]. apply touch_user_ids.
Qed.

Lemma google_login_twice_witness :
  exists db2,
    AuthService.google_login sample_settings sample_verifier
      (sample_env 1000 17%N) "id-token-1" None None empty_db
    = (Return {| access_token :=
                   (new_tokens sample_settings (sample_env 1000 17%N)
                      (google_account (sample_env 1000 17%N)
                         (sample_google_user "google-subject-1"))).1;
                 refresh_token :=
                   (new_tokens sample_settings (sample_env 1000 17%N)
                      (google_account (sample_env 1000 17%N)
                         (sample_google_user "google-subject-1"))).2;
                 token_type := "bearer";
                 is_new_user := true |},
       google_signed_up sample_settings (sample_env 1000 17%N)
         (sample_google_user "google-subject-1") None None empty_db)
    /\ AuthService.google_login sample_settings sample_verifier
         (sample_env 2000 18%N) "id-token-1" None None
         (google_signed_up sample_settings (sample_env 1000 17%N)
            (sample_google_user "google-subject-1") None None empty_db)
       = (Return {| access_token :=
                      (new_tokens sample_settings (sample_env 2000 18%N)
                         (google_account (sample_env 1000 17%N)
                            (sample_google_user "google-subject-1"))).1;
                    refresh_token :=
                      (new_tokens sample_settings (sample_env 2000 18%N)
                         (google_account (sample_env 1000 17%N)
                            (sample_google_user "google-subject-1"))).2;
                    token_type := "bearer";
                    is_new_user := false |}, db2)
    /\ length (auth_providers db2) = 1%nat.
Proof.
  destruct (google_login_twice sample_settings sample_verifier
              (sample_env 1000 17%N) (sample_env 2000 18%N) "id-token-1"
              None None None None empty_db
              (sample_google_user "google-subject-1"))
    as (db2 & H1 & H2 & H3 & H4 & _).
  - by_compute.
  - by_compute.
  - by_compute.
  - vm_compute. reflexivity.
  - reflexivity.
  - reflexivity.
  - by_compute.
  - by_compute.
  - vm_compute. discriminate.
  - exists db2. split; [exact H1|]. split; [exact H2|].
    rewrite H3, H4. reflexivity.
Defined.

(** Extra X11. The gate of the Google flow: unless the Google verifier
    vouches for the ID token with an issuer that is one of
    [accounts.google.com] and [https://accounts.google.com], a non-empty
    address and a non-empty subject, [google_login] raises
    [GoogleOAuthError] or [InvalidCredentialsError] and leaves the
    database as it was: no account, link or session is written. *)
Theorem google_login_gate (settings : Settings)
    (verify_oauth2_token : string -> string -> outcome IdInfo)
    (env : Env) (id_token : string) (device_info ip_address : option string)
    (db : Db) :
  ~ (exists idinfo,
       verify_oauth2_token id_token (GOOGLE_CLIENT_ID settings) = Return idinfo
       /\ (iss idinfo = Some "accounts.google.com"
           \/ iss idinfo = Some "https://accounts.google.com")
       /\ nonempty (g_email idinfo) = true
       /\ nonempty (g_sub idinfo) = true) ->
  (exists message,
     AuthService.google_login settings verify_oauth2_token env id_token
       device_info ip_address db
     = (Raise (GoogleOAuthError message), db))
  \/ AuthService.google_login settings verify_oauth2_token env id_token
       device_info ip_address db
     = (Raise (InvalidCredentialsError
                 "Invalid Google token: missing email or user ID"), db).
Proof.
  intros Hno. unfold AuthService.google_login, verify_google_token. run.
  destruct (verify_oauth2_token id_token (GOOGLE_CLIENT_ID settings))
    as [e|idinfo] eqn:Hv.
  - left. destruct e; eexists; reflexivity.
  - destruct (iss idinfo) as [issuer|] eqn:Hi; [|left; eexists; reflexivity].
    case_bool_decide as Hin; [|left; eexists; reflexivity].
    cbn [gu_email gu_sub].
    destruct (nonempty (g_email idinfo)) eqn:He; [|right; reflexivity].
    destruct (nonempty (g_sub idinfo)) eqn:Hs; [|right; reflexivity].
    exfalso. apply Hno. exists idinfo. split; [reflexivity|].
    split; [|split; [exact He|exact Hs]].
    rewrite Hi. apply elem_of_cons in Hin as [->|Hin]; [now left|].
    apply list_elem_of_singleton in Hin as ->. now right.
Qed.

Lemma google_login_gate_witness :
  (exists message,
     AuthService.google_login sample_settings sample_verifier
       (sample_env 1000 17%N) "not-an-id-token" None None empty_db
     = (Raise (GoogleOAuthError message), empty_db))
  \/ AuthService.google_login sample_settings sample_verifier
       (sample_env 1000 17%N) "not-an-id-token" None None empty_db
     = (Raise (InvalidCredentialsError
                 "Invalid Google token: missing email or user ID"), empty_db).
Proof.
  apply (google_login_gate sample_settings sample_verifier
           (sample_env 1000 17%N) "not-an-id-token" None None empty_db).
  intros (idinfo & Hv & _). vm_compute in Hv. discriminate.
Defined.

(** Extra X22. A Google identity that comes back under a new address:
    when the subject is already linked but no stored account has the
    (new) address, [google_login] creates a further account and a further
    link under the same (provider, subject) key; from then on every
    sign-in of that subject under the address of a stored account (the
    new one, the old one, or any other) fails in the link lookup with
    [MultipleResultsFound] and changes nothing. (The lookup is made for a
    stored address only: under an address no account has, the subject is
    given one more account in the same way.) *)
Theorem google_login_moved_address (settings : Settings)
    (verify_oauth2_token : string -> string -> outcome IdInfo)
    (env : Env) (id_token : string)
    (device_info ip_address : option string)
    (db : Db) (g : GoogleUser) :
  db_ok settings db ->
  uuid_wf (uuid4 env) -> (uuid4 env ∉ User.id <$> users db) ->
  verify_google_token settings verify_oauth2_token id_token = Return g ->
  nonempty (gu_email g) = true -> nonempty (gu_sub g) = true ->
  (lower (default "" (gu_email g)) ∉ User.email <$> users db) ->
  ("google", default "" (gu_sub g)) ∈ link_key <$> auth_providers db ->
  let user := google_account env g in
  let db1 := google_signed_up settings env g device_info ip_address db in
  AuthService.google_login settings verify_oauth2_token env id_token
    device_info ip_address db
  = (Return {| access_token := (new_tokens settings env user).1;
               refresh_token := (new_tokens settings env user).2;
               token_type := "bearer";
               is_new_user := true |}, db1)
  /\ (2 <= length (filter (fun a => link_key a
                                    = ("google", default "" (gu_sub g)))
                     (auth_providers db1)))%nat
  /\ (forall (env' : Env) (id_token' : string) (g' : GoogleUser)
             (user' : User.t) (device_info' ip_address' : option string),
        verify_google_token settings verify_oauth2_token id_token' = Return g' ->
        nonempty (gu_email g') = true -> gu_sub g' = gu_sub g ->
        user' ∈ users db1 ->
        User.email user' = lower (default "" (gu_email g')) ->
        AuthService.google_login settings verify_oauth2_token env' id_token'
          device_info' ip_address' db1
        = (Raise MultipleResultsFound, db1)).
Proof.
  intros Hok Hwf Hid Hv He Hs Hout Hlinked user db1.
  assert (AuthService.google_login settings verify_oauth2_token env id_token
            device_info ip_address db
          = (Return (AuthService.response (new_tokens settings env user) true),
             db1)) as Hrun
    by (apply google_login_new; try assumption; apply Hok).
  pose proof (google_login_db_ok settings verify_oauth2_token env id_token
                device_info ip_address db _ db1 Hok Hwf Hrun) as Hok1.
  assert (2 <= length (filter (fun a => link_key a
                                        = ("google", default "" (gu_sub g)))
                         (auth_providers db1)))%nat as Htwo.
  { unfold db1, google_signed_up.
    cbn [auth_providers with_user_sessions touch_user with_users
         with_auth_providers].
    rewrite filter_app, length_app.
    rewrite (filter_cons_True _ (google_link user g)) by reflexivity.
    cbn [length]. apply list_elem_of_fmap in Hlinked as (a & Hk & Ha).
    assert (a ∈ filter (fun a => link_key a
                                 = ("google", default "" (gu_sub g)))
                  (auth_providers db)) as Hin
      by (apply list_elem_of_filter; auto).
    destruct (filter _ (auth_providers db)); [now apply elem_of_nil in Hin|].
    cbn [length]. lia. }
  split; [exact Hrun|]. split; [exact Htwo|].
  intros env' id_token' g' user' device_info' ip_address' Hv' He' Hs' Hin' Hm'.
  unfold AuthService.google_login. run. rewrite Hv', He', Hs', Hs.
  cbn [negb orb].
  rewrite (get_by_email_found db1 user'); [|apply Hok1|exact Hin'|exact Hm'].
  rewrite get_auth_provider_select.
  destruct (filter _ (auth_providers db1)) as [|a [|b rows]];
    cbn [length] in Htwo; try lia. reflexivity.
Qed.

Lemma google_login_moved_address_witness :
  AuthService.google_login sample_settings sample_verifier
    (sample_env 3000 19%N) "id-token-1" None None
    (google_signed_up sample_settings (sample_env 2000 18%N)
       sample_moved_google_user
       None None sample_google_login.2)
  = (Raise MultipleResultsFound,
     google_signed_up sample_settings (sample_env 2000 18%N)
       sample_moved_google_user
       None None sample_google_login.2).
Proof.
  refine (proj2 (proj2 (google_login_moved_address sample_settings
            sample_verifier (sample_env 2000 18%N)
            "id-token-3" None None sample_google_login.2
            sample_moved_google_user
            _ _ _ _ _ _ _ _))
            (sample_env 3000 19%N) "id-token-1"
            (sample_google_user "google-subject-1") sample_google_account
            None None _ _ _ _ _).
  - by_compute.
  - by_compute.
  - by_compute.
  - vm_compute. reflexivity.
  - reflexivity.
  - reflexivity.
  - by_compute.
  - by_compute.
  - vm_compute. reflexivity.
  - reflexivity.
  - reflexivity.
  - by_compute.
  - vm_compute. reflexivity.
Defined.

(** *** Sequences of requests *)

Lemma serve_db_ok_witness :
  db_ok sample_settings
    (serve sample_settings sample_digest sample_verifier false
       [Register (sample_env 1000 17%N) "Alice@Example.com" "correct horse!"
          None None;
        Register (sample_env 1000 18%N) "alice@example.com" "correct horse!"
          None None;
        Login (sample_env 1000 19%N) "alice@example.com" "correct horse!"
          None None;
        GoogleLogin (sample_env 1001 20%N) "id-token-3" None None;
        LogoutAll 17%N]
       empty_db).
Proof.
  apply (serve_db_ok sample_settings sample_digest sample_verifier false).
  - repeat (apply Forall_cons; split; [vm_compute; try reflexivity; exact I|]).
    apply Forall_nil_2.
  - by_compute.
Defined.

(** ** Profiles *)

Lemma get_profile_found db (p : UserProfile.t) :
  NoDup (UserProfile.user_id <$> user_profiles db) -> p ∈ user_profiles db ->
  ProfileService.get_profile (UserProfile.user_id p) db = (Return p, db).
Proof.
  intros Hnd Hp. unfold ProfileService.get_profile. run.
  now rewrite get_by_user_id_found.
Qed.

Lemma get_profile_missing db (user_id : UUID) :
  (user_id ∉ UserProfile.user_id <$> user_profiles db) ->
  ProfileService.get_profile user_id db = (Raise ProfileNotFoundError_, db).
Proof.
  intros Hout. unfold ProfileService.get_profile. run.
  now rewrite get_by_user_id_missing.
Qed.

Lemma get_by_player_name_missing db (player_name : string) :
  (player_name ∉ UserProfile.player_name <$> user_profiles db) ->
  ProfileRepository.get_by_player_name player_name db = (Return None, db).
Proof.
  intros Hout. unfold ProfileRepository.get_by_player_name. run.
  now rewrite (select_none UserProfile.player_name _ _ Hout).
Qed.

Lemma get_by_player_name_found db (q : UserProfile.t) :
  NoDup (UserProfile.player_name <$> user_profiles db) ->
  q ∈ user_profiles db ->
  ProfileRepository.get_by_player_name (UserProfile.player_name q) db
  = (Return (Some q), db).
Proof.
  intros Hnd Hq. unfold ProfileRepository.get_by_player_name. run.
  now rewrite (select_one UserProfile.player_name q _ Hnd Hq).
Qed.

Lemma get_archetype_by_id_missing db (archetype_id : UUID) :
  (archetype_id ∉ Archetype.id <$> archetypes db) ->
  ProfileRepository.get_archetype_by_id archetype_id db = (Return None, db).
Proof.
  intros Hout. unfold ProfileRepository.get_archetype_by_id. run.
  now rewrite (select_none Archetype.id _ _ Hout).
Qed.

Lemma get_life_mode_by_id_missing db (life_mode_id : UUID) :
  (life_mode_id ∉ LifeMode.id <$> life_modes db) ->
  ProfileRepository.get_life_mode_by_id life_mode_id db = (Return None, db).
Proof.
  intros Hout. unfold ProfileRepository.get_life_mode_by_id. run.
  now rewrite (select_none LifeMode.id _ _ Hout).
Qed.

Lemma same_name_same_profile rows (p q : UserProfile.t) :
  NoDup (UserProfile.player_name <$> rows) -> p ∈ rows -> q ∈ rows ->
  UserProfile.player_name q = UserProfile.player_name p -> q = p.
Proof.
  intros Hnd Hp Hq Hn.
  pose proof (select_one UserProfile.player_name p rows Hnd Hp) as Hf.
  assert (q ∈ filter (fun y => UserProfile.player_name y
                               = UserProfile.player_name p) rows) as Hin
    by (apply list_elem_of_filter; auto).
  rewrite Hf in Hin. now apply list_elem_of_singleton in Hin.
Qed.

(** Extra X12. [update_profile] reads no clock and never looks at
    [identity_locked_until] or [onboarding_completed]: for the stored
    profile of the user, whatever its lock says, a request whose new
    player name (if any) is the profile's own or no stored profile's
    succeeds; the stored row takes the requested name, avatar, bio and
    time zone, and keeps its archetype, life mode, level, XP, lock and
    onboarding flag; no other row changes. *)
Theorem update_profile_ignores_lock (user_id : UUID)
    (data : ProfileUpdateRequest) (db : Db) (p : UserProfile.t) :
  profiles_ok db -> p ∈ user_profiles db -> UserProfile.user_id p = user_id ->
  (forall n, upd_player_name data = Some n -> n <> UserProfile.player_name p ->
             n ∉ UserProfile.player_name <$> user_profiles db) ->
  exists p',
    ProfileService.update_profile user_id data db
    = (Return p',
       with_user_profiles (replace_profile p' (user_profiles db)) db)
    /\ p' ∈ replace_profile p' (user_profiles db)
    /\ UserProfile.user_id p' = user_id
    /\ UserProfile.player_name p'
       = default (UserProfile.player_name p) (upd_player_name data)
    /\ UserProfile.timezone p'
       = default (UserProfile.timezone p) (upd_timezone data)
    /\ UserProfile.avatar_url p'
       = match upd_avatar_url data with
         | Some v => Some v
         | None => UserProfile.avatar_url p
         end
    /\ UserProfile.bio p'
       = match upd_bio data with
         | Some v => Some v
         | None => UserProfile.bio p
         end
    /\ UserProfile.archetype_id p' = UserProfile.archetype_id p
    /\ UserProfile.life_mode_id p' = UserProfile.life_mode_id p
    /\ UserProfile.level p' = UserProfile.level p
    /\ UserProfile.total_core_xp p' = UserProfile.total_core_xp p
    /\ UserProfile.identity_locked_until p'
       = UserProfile.identity_locked_until p
    /\ UserProfile.onboarding_completed p'
       = UserProfile.onboarding_completed p.
Proof.
  intros (Hnu & Hnn & _) Hp <- Hname.
  unfold ProfileService.update_profile. rewrite run_bind.
  rewrite get_profile_found by assumption. cbv beta iota. rewrite run_bind.
  assert ((if nonempty (upd_player_name data)
              && negb (bool_decide (upd_player_name data
                                    = Some (UserProfile.player_name p)))
           then
             existing ← ProfileRepository.get_by_player_name
                          (default "" (upd_player_name data));
             if bool_decide (is_Some existing) then raise PlayerNameTakenError_
             else mret tt
           else mret tt) db = (Return tt, db)) as ->.
  { destruct (nonempty (upd_player_name data)) eqn:Hne; [|reflexivity].
    case_bool_decide as Hsame; [reflexivity|]. cbn [andb negb].
    apply nonempty_Some in Hne as (n & Hn & _). rewrite Hn in Hsame |- *.
    rewrite run_bind. change (default "" (Some n)) with n.
    rewrite get_by_player_name_missing; [reflexivity|].
    apply Hname; [exact Hn|]. congruence. }
  cbv beta iota. unfold ProfileRepository.update. rewrite run_bind.
  set (p' := UserProfile.mk _ _ _ _ _ _ _ _ _ _ _).
  rewrite store_profile_free.
  - exists p'. split; [reflexivity|]. split; [|repeat split].
    apply (replace_profile_elem _ _ p); [exact Hp|reflexivity].
  - intros q Hq Hqn. cbn [p' UserProfile.user_id UserProfile.player_name] in *.
    destruct (upd_player_name data) as [n|] eqn:Hn;
      cbn [default from_option id] in Hqn.
    + destruct (decide (n = UserProfile.player_name p)) as [->|Hne].
      * f_equal. now apply (same_name_same_profile (user_profiles db)).
      * exfalso. apply (Hname n eq_refl Hne). rewrite <- Hqn.
        now apply list_elem_of_fmap_2.
    + f_equal. now apply (same_name_same_profile (user_profiles db)).
Qed.

Lemma update_profile_ignores_lock_witness :
  sample_profile ∈ user_profiles sample_onboarded.2
  /\ UserProfile.identity_locked_until sample_profile = Some 2593000
  /\ exists p',
       ProfileService.update_profile 17%N sample_rename sample_onboarded.2
       = (Return p',
          with_user_profiles
            (replace_profile p' (user_profiles sample_onboarded.2))
            sample_onboarded.2)
       /\ UserProfile.player_name p' = "alice the second"
       /\ UserProfile.identity_locked_until p' = Some 2593000.
Proof.
  assert (sample_profile ∈ user_profiles sample_onboarded.2) as Hin
    by by_compute.
  split; [exact Hin|]. split; [reflexivity|].
  destruct (update_profile_ignores_lock 17%N sample_rename sample_onboarded.2
              sample_profile)
    as (p' & H1 & _ & _ & H4 & _ & _ & _ & _ & _ & _ & _ & H12 & _).
  - by_compute.
  - exact Hin.
  - reflexivity.
  - intros n [= <-] _. by_compute.
  - exists p'. split; [exact H1|]. split; [exact H4|exact H12].
Defined.

(** Extra X13. The failures of [update_profile], both with the database
    unchanged: a user without a stored profile gets
    [ProfileNotFoundError]; a request naming a non-empty player name that
    differs from the profile's own and is some stored profile's gets
    [PlayerNameTakenError]. *)
Theorem update_profile_errors (user_id : UUID) (data : ProfileUpdateRequest)
    (db : Db) :
  profiles_ok db ->
  ((user_id ∉ UserProfile.user_id <$> user_profiles db) ->
   ProfileService.update_profile user_id data db
   = (Raise ProfileNotFoundError_, db))
  /\ (forall p n,
        p ∈ user_profiles db -> UserProfile.user_id p = user_id ->
        upd_player_name data = Some n -> n <> "" ->
        n <> UserProfile.player_name p ->
        n ∈ UserProfile.player_name <$> user_profiles db ->
        ProfileService.update_profile user_id data db
        = (Raise PlayerNameTakenError_, db)).
Proof.
  intros (Hnu & Hnn & _). split.
  - intros Hout. unfold ProfileService.update_profile. rewrite run_bind.
    now rewrite get_profile_missing.
  - intros p n Hp <- Hn Hne Hdiff Hin.
    unfold ProfileService.update_profile. rewrite run_bind.
    rewrite get_profile_found by assumption. cbv beta iota.
    rewrite run_bind, Hn. cbn [nonempty].
    rewrite (proj2 (String.eqb_neq n "") Hne). cbn [negb andb].
    rewrite bool_decide_eq_false_2 by congruence. cbn [negb].
    rewrite run_bind. change (default "" (Some n)) with n.
    apply list_elem_of_fmap in Hin as (q & -> & Hq).
    rewrite get_by_player_name_found by assumption. cbv beta iota.
    now rewrite bool_decide_eq_true_2 by eauto.
Qed.

Lemma update_profile_errors_witness :
  ProfileService.update_profile 18%N sample_rename sample_onboarded.2
  = (Raise ProfileNotFoundError_, sample_onboarded.2).
Proof.
  refine (proj1 (update_profile_errors 18%N sample_rename sample_onboarded.2
                   _) _); by_compute.
Defined.

(** Extra X14. [create_profile] checks, in this order, that the player
    name is no stored profile's ([PlayerNameTakenError], even when the
    name is the caller's own), that the archetype exists and that the
    life mode exists ([ValidationError]); past the checks, a user without
    a profile gets a new row at level 1 with 0 XP, no identity lock and
    onboarding not completed, and a user who already has a profile is
    stopped only by the unique index on [user_id] ([IntegrityError]).
    Every failure leaves the database unchanged. *)
Theorem create_profile_spec (user_id : UUID) (data : ProfileCreateRequest)
    (db : Db) :
  profiles_ok db ->
  (new_player_name data ∈ UserProfile.player_name <$> user_profiles db ->
   ProfileService.create_profile user_id data db
   = (Raise PlayerNameTakenError_, db))
  /\ ((new_player_name data ∉ UserProfile.player_name <$> user_profiles db) ->
      ((new_archetype_id data ∉ Archetype.id <$> archetypes db) ->
       ProfileService.create_profile user_id data db
       = (Raise (ValidationError "Invalid archetype ID"), db))
      /\ (new_archetype_id data ∈ Archetype.id <$> archetypes db ->
          ((new_life_mode_id data ∉ LifeMode.id <$> life_modes db) ->
           ProfileService.create_profile user_id data db
           = (Raise (ValidationError "Invalid life mode ID"), db))
          /\ (new_life_mode_id data ∈ LifeMode.id <$> life_modes db ->
              let profile :=
                UserProfile.mk user_id (new_player_name data)
                  (Some (new_archetype_id data)) (Some (new_life_mode_id data))
                  1 0 (new_avatar_url data) (new_bio data) (new_timezone data)
                  None false in
              (user_id ∈ UserProfile.user_id <$> user_profiles db ->
               ProfileService.create_profile user_id data db
               = (Raise (IntegrityError "user_profiles.user_id"), db))
              /\ ((user_id ∉ UserProfile.user_id <$> user_profiles db) ->
                  ProfileService.create_profile user_id data db
                  = (Return profile,
                     with_user_profiles (user_profiles db ++ [profile]) db))))).
Proof.
  intros (Hnu & Hnn & Hna & Hnm & _). split.
  - intros Hin. apply list_elem_of_fmap in Hin as (q & Hq & Hin).
    unfold ProfileService.create_profile. rewrite run_bind, Hq.
    rewrite get_by_player_name_found by assumption. cbv beta iota.
    now rewrite bool_decide_eq_true_2 by eauto.
  - intros Hfree.
    unfold ProfileService.create_profile. rewrite run_bind.
    rewrite get_by_player_name_missing by exact Hfree. cbv beta iota.
    rewrite bool_decide_eq_false_2 by (intros [? [=]]).
    rewrite run_bind. split.
    + intros Hout. rewrite get_archetype_by_id_missing by exact Hout.
      cbv beta iota. now rewrite bool_decide_eq_false_2 by (intros [? [=]]).
    + intros Harch.
      destruct (get_archetype_by_id_found db _ Hna Harch) as (a & ->).
      cbv beta iota.
      rewrite (bool_decide_eq_true_2 (is_Some (Some a))) by eauto.
      cbn [negb]. rewrite run_bind. split.
      * intros Hout. rewrite get_life_mode_by_id_missing by exact Hout.
        cbv beta iota.
        now rewrite bool_decide_eq_false_2 by (intros [? [=]]).
      * intros Hmode.
        destruct (get_life_mode_by_id_found db _ Hnm Hmode) as (m & ->).
        cbv beta iota.
        rewrite (bool_decide_eq_true_2 (is_Some (Some m))) by eauto.
        cbn [negb]. unfold ProfileRepository.create. rewrite run_bind.
        cbv zeta. split.
        -- intros Hhas. unfold ProfileRepository.add_profile.
           now rewrite bool_decide_eq_true_2 by exact Hhas.
        -- intros Hnone. now rewrite add_profile_fresh.
Qed.

Lemma create_profile_spec_witness :
  ProfileService.create_profile 17%N (sample_new_profile "alice")
    sample_onboarded.2
  = (Raise PlayerNameTakenError_, sample_onboarded.2)
  /\ ProfileService.create_profile 17%N (sample_new_profile "alice again")
       sample_onboarded.2
     = (Raise (IntegrityError "user_profiles.user_id"), sample_onboarded.2).
Proof.
  assert (profiles_ok sample_onboarded.2) as Hok by by_compute.
  split.
  - refine (proj1 (create_profile_spec 17%N (sample_new_profile "alice")
                     sample_onboarded.2 Hok) _).
    by_compute.
  - refine (proj1 (proj2 (proj2 (proj2 (create_profile_spec 17%N
              (sample_new_profile "alice again") sample_onboarded.2 Hok) _) _)
              _) _); by_compute.
Defined.

(** Extra X15. Onboarding is one-shot: after a first completion
    succeeded, every further [complete_onboarding] of that user, with
    any request and at any time, raises [ValidationError] ("Onboarding
    already completed") and leaves the database unchanged, and
    [get_profile] returns the profile the completion returned: the
    requested name, archetype and life mode, the flag set and the lock
    thirty days after the completion. *)
Theorem complete_onboarding_once (env env' : Env) (user_id : UUID)
    (data data' : OnboardingRequest) (db : Db) :
  profiles_ok db ->
  (forall p, p ∈ user_profiles db -> UserProfile.user_id p = user_id ->
             UserProfile.onboarding_completed p = false) ->
  name_free (user_profiles db) user_id (req_player_name data) ->
  req_archetype_id data ∈ Archetype.id <$> archetypes db ->
  req_life_mode_id data ∈ LifeMode.id <$> life_modes db ->
  Forall (fun i => i ∈ LifeArea.id <$> life_areas db) (req_life_area_ids data) ->
  exists profile db',
    ProfileService.complete_onboarding env user_id data db
    = (Return {| resp_profile := profile;
                 resp_message :=
                   "Onboarding completed successfully! Your identity is locked for 30 days." |},
       db')
    /\ ProfileService.complete_onboarding env' user_id data' db'
       = (Raise (ValidationError "Onboarding already completed"), db')
    /\ ProfileService.get_profile user_id db' = (Return profile, db')
    /\ UserProfile.player_name profile = req_player_name data
    /\ UserProfile.archetype_id profile = Some (req_archetype_id data)
    /\ UserProfile.life_mode_id profile = Some (req_life_mode_id data)
    /\ UserProfile.onboarding_completed profile = true
    /\ UserProfile.identity_locked_until profile = Some (utcnow env + days 30).
Proof.
  intros Hok Hfirst Hfree Ha Hm Hl.
  destruct (complete_onboarding_first_time env user_id data db
              Hok Hfirst Hfree Ha Hm Hl)
    as (profile & db' & Hrun & Hin & Hu & Hn & Har & Hmo).
  pose proof (complete_onboarding_profiles_ok env user_id data db _ db'
                Hok Hrun) as (Hnu' & _).
  exists (marked env profile), db'. split; [exact Hrun|].
  assert (UserProfile.user_id (marked env profile) = user_id) as Hmu
    by exact Hu.
  split; [|split].
  - now apply (complete_onboarding_already env' user_id data' db'
                 (marked env profile)).
  - rewrite <- Hmu. now apply get_profile_found.
  - auto 10.
Qed.

Lemma complete_onboarding_once_witness :
  exists profile db',
    ProfileService.complete_onboarding (sample_env 1000 1%N) 17%N
      sample_onboarding sample_catalogue
    = (Return {| resp_profile := profile;
                 resp_message :=
                   "Onboarding completed successfully! Your identity is locked for 30 days." |},
       db')
    /\ ProfileService.complete_onboarding (sample_env 9000000 2%N) 17%N
         sample_onboarding db'
       = (Raise (ValidationError "Onboarding already completed"), db')
    /\ ProfileService.get_profile 17%N db' = (Return profile, db').
Proof.
  destruct (complete_onboarding_once (sample_env 1000 1%N)
              (sample_env 9000000 2%N) 17%N sample_onboarding
              sample_onboarding sample_catalogue)
    as (profile & db' & H1 & H2 & H3 & _).
  - by_compute.
  - intros p Hp. vm_compute in Hp. inversion Hp.
  - intros q Hq. vm_compute in Hq. inversion Hq.
  - by_compute.
  - by_compute.
  - by_compute.
  - exists profile, db'. auto.
Defined.

(** *** The life areas of a user *)

Lemma filter_ext_elem {A} (P Q : A -> Prop) `{forall x, Decision (P x)}
    `{forall x, Decision (Q x)} (l : list A) :
  (forall x, x ∈ l -> (P x <-> Q x)) -> filter P l = filter Q l.
Proof.
  induction l as [|a l IH]; intros Hext; [reflexivity|].
  rewrite !filter_cons.
  rewrite IH by (intros x Hx; apply Hext; now apply list_elem_of_further).
  pose proof (Hext a (list_elem_of_here _ _)) as Ha.
  destruct (decide (P a)), (decide (Q a)); tauto.
Qed.

Lemma filter_none {A} (P : A -> Prop) `{forall x, Decision (P x)}
    (l : list A) :
  (forall x, x ∈ l -> ~ P x) -> filter P l = [].
Proof.
  induction l as [|a l IH]; intros Hno; [reflexivity|].
  rewrite filter_cons_False by (apply Hno, list_elem_of_here).
  apply IH. intros x Hx. apply Hno. now apply list_elem_of_further.
Qed.

Lemma filter_all {A} (P : A -> Prop) `{forall x, Decision (P x)}
    (l : list A) :
  (forall x, x ∈ l -> P x) -> filter P l = l.
Proof.
  induction l as [|a l IH]; intros Hall; [reflexivity|].
  rewrite filter_cons_True by (apply Hall, list_elem_of_here).
  f_equal. apply IH. intros x Hx. apply Hall. now apply list_elem_of_further.
Qed.

Lemma by_priority_trans : Transitive ProfileRepository.by_priority.
Proof. unfold ProfileRepository.by_priority. intros a b c. lia. Qed.

Lemma by_priority_total : Total ProfileRepository.by_priority.
Proof. unfold ProfileRepository.by_priority. intros a b. lia. Qed.

Section LifeAreas.
Context (env : Env) (user_id : UUID).

Lemma new_life_areas_user priority ids :
  Forall (fun a => UserLifeArea.user_id a = user_id)
    (ProfileRepository.new_life_areas env user_id priority ids).
Proof.
  revert priority. induction ids as [|i ids IH]; intros priority; cbn.
  - apply Forall_nil_2.
  - apply Forall_cons. split; [reflexivity|apply IH].
Qed.

Lemma new_life_areas_from priority ids :
  Forall (fun a => priority <= UserLifeArea.priority a)
    (ProfileRepository.new_life_areas env user_id priority ids).
Proof.
  revert priority. induction ids as [|i ids IH]; intros priority; cbn.
  - apply Forall_nil_2.
  - apply Forall_cons. split; [cbn; lia|].
    eapply Forall_impl; [apply IH|]. cbn. intros a. lia.
Qed.

Lemma new_life_areas_sorted priority ids :
  Sorted ProfileRepository.by_priority
    (ProfileRepository.new_life_areas env user_id priority ids).
Proof.
  revert priority. induction ids as [|i ids IH]; intros priority; cbn.
  - constructor.
  - constructor; [apply IH|].
    destruct ids as [|j ids]; cbn; constructor.
    unfold ProfileRepository.by_priority. cbn. lia.
Qed.

Lemma new_life_areas_by_priority priority ids a b :
  a ∈ ProfileRepository.new_life_areas env user_id priority ids ->
  b ∈ ProfileRepository.new_life_areas env user_id priority ids ->
  UserLifeArea.priority a = UserLifeArea.priority b -> a = b.
Proof.
  revert priority. induction ids as [|i ids IH]; intros priority; cbn.
  - intros Ha. now apply elem_of_nil in Ha.
  - pose proof (new_life_areas_from (priority + 1) ids) as Hfrom.
    rewrite Forall_forall in Hfrom.
    intros Ha Hb Hp.
    apply elem_of_cons in Ha as [->|Ha];
      apply elem_of_cons in Hb as [->|Hb].
    + reflexivity.
    + apply Hfrom in Hb. cbn in Hp. lia.
    + apply Hfrom in Ha. cbn in Hp. lia.
    + now apply (IH (priority + 1)).
Qed.

Lemma merge_sort_new_life_areas priority ids :
  merge_sort ProfileRepository.by_priority
    (ProfileRepository.new_life_areas env user_id priority ids)
  = ProfileRepository.new_life_areas env user_id priority ids.
Proof.
  pose proof by_priority_trans as Htrans.
  pose proof by_priority_total as Htotal.
  apply (Sorted_unique_strong ProfileRepository.by_priority).
  - intros a b Ha Hb Hab Hba.
    rewrite merge_sort_Permutation in Ha.
    apply (new_life_areas_by_priority priority ids); try assumption.
    unfold ProfileRepository.by_priority in *. lia.
  - apply Sorted_merge_sort. apply _.
  - apply new_life_areas_sorted.
  - apply merge_sort_Permutation.
Qed.

Lemma new_life_areas_ids priority ids :
  UserLifeArea.life_area_id
    <$> ProfileRepository.new_life_areas env user_id priority ids = ids.
Proof.
  revert priority. induction ids as [|i ids IH]; intros priority; cbn;
    [reflexivity|]. now rewrite IH.
Qed.

Lemma new_life_areas_priorities (k : nat) ids :
  UserLifeArea.priority
    <$> ProfileRepository.new_life_areas env user_id (Z.of_nat k) ids
  = Z.of_nat <$> seq k (length ids).
Proof.
  revert k. induction ids as [|i ids IH]; intros k; cbn; [reflexivity|].
  f_equal. replace (Z.of_nat k + 1) with (Z.of_nat (S k)) by lia. apply IH.
Qed.

Lemma delete_existing (rows : list UserLifeArea.t) :
  filter (fun a => a ∉ merge_sort ProfileRepository.by_priority
                         (filter (fun b => UserLifeArea.user_id b = user_id)
                            rows)) rows
  = filter (fun a => UserLifeArea.user_id a <> user_id) rows.
Proof.
  apply filter_ext_elem. intros a Ha.
  rewrite merge_sort_Permutation, list_elem_of_filter. tauto.
Qed.

Lemma select_after_replace (other : UUID) (rows : list UserLifeArea.t)
    priority ids :
  filter (fun a => UserLifeArea.user_id a = other)
    (filter (fun a => UserLifeArea.user_id a <> user_id) rows
       ++ ProfileRepository.new_life_areas env user_id priority ids)%list
  = if decide (other = user_id)
    then ProfileRepository.new_life_areas env user_id priority ids
    else filter (fun a => UserLifeArea.user_id a = other) rows.
Proof.
  rewrite filter_app. pose proof (new_life_areas_user priority ids) as Hu.
  rewrite Forall_forall in Hu.
  destruct (decide (other = user_id)) as [->|Hne].
  - rewrite filter_none, filter_all; [reflexivity|exact Hu|].
    intros x Hx. apply list_elem_of_filter in Hx. tauto.
  - rewrite (filter_none _ (ProfileRepository.new_life_areas _ _ _ _)).
    + rewrite app_nil_r, list_filter_filter. apply filter_ext_elem.
      intros x _. split; [tauto|]. intros Hx. split; [exact Hx|congruence].
    + intros x Hx Hx'. apply Hu in Hx. congruence.
Qed.
End LifeAreas.

(** Extra X16. [set_user_life_areas] replaces the selection of one user:
    it never fails, deletes exactly that user's rows, and appends one row
    per requested life area, in request order, with priorities 1, 2, ...
    and the current instant as [selected_at]; read back by
    [get_user_life_areas], the user's selection is exactly the rows the
    call returned, in request order, and every other user's selection
    reads as before. *)
Theorem set_user_life_areas_replaces (env : Env) (user_id : UUID)
    (life_area_ids : list UUID) (db : Db) :
  let rows := ProfileRepository.new_life_areas env user_id 1 life_area_ids in
  let db' :=
    with_user_life_areas
      (filter (fun a => UserLifeArea.user_id a <> user_id) (user_life_areas db)
         ++ rows) db in
  ProfileRepository.set_user_life_areas env user_id life_area_ids db
  = (Return rows, db')
  /\ ProfileRepository.get_user_life_areas user_id db' = (Return rows, db')
  /\ UserLifeArea.life_area_id <$> rows = life_area_ids
  /\ UserLifeArea.priority <$> rows
     = Z.of_nat <$> seq 1 (length life_area_ids)
  /\ Forall (fun a => UserLifeArea.user_id a = user_id
                      /\ UserLifeArea.selected_at a = utcnow env) rows
  /\ (forall other,
        other <> user_id ->
        (ProfileRepository.get_user_life_areas other db').1
        = (ProfileRepository.get_user_life_areas other db).1).
Proof.
  cbv zeta. split; [|split; [|split; [|split; [|split]]]].
  - unfold ProfileRepository.set_user_life_areas,
      ProfileRepository.get_user_life_areas. run.
    cbn [user_life_areas with_user_life_areas].
    now rewrite delete_existing.
  - unfold ProfileRepository.get_user_life_areas, query.
    cbn [user_life_areas with_user_life_areas].
    rewrite select_after_replace, decide_True by reflexivity.
    now rewrite merge_sort_new_life_areas.
  - apply new_life_areas_ids.
  - apply (new_life_areas_priorities env user_id 1).
  - generalize 1. induction life_area_ids as [|i ids IH];
      intros priority; cbn; [apply Forall_nil_2|].
    apply Forall_cons. split; [split; reflexivity|apply IH].
  - intros other Hne. unfold ProfileRepository.get_user_life_areas, query.
    cbn [user_life_areas with_user_life_areas fst].
    now rewrite select_after_replace, decide_False by exact Hne.
Qed.

(** ** The password policy *)

Lemma any_char_iff (c : ascii) :
  atom_matches AnyChar c = true <-> c <> newline.
Proof.
  cbn. rewrite negb_true_iff. apply Ascii.eqb_neq.
Qed.

Lemma any_chars_iff (l : list ascii) :
  Forall (fun c => atom_matches AnyChar c = true) l <-> newline ∉ l.
Proof.
  rewrite Forall_forall. split.
  - intros Hall Hin. apply Hall in Hin. now apply any_char_iff in Hin.
  - intros Hout c Hc. apply any_char_iff. intros ->. contradiction.
Qed.

(** [a{n,}] followed by [k]: some prefix of at least [n] characters, all
    matching [a], is followed by a rest [k] accepts. *)
Lemma at_least_iff (a : atom) (k : bool -> list ascii -> bool) (n : nat)
    (at_start : bool) (s : list ascii) :
  (forall b1 b2 rest, k b1 rest = k b2 rest) ->
  at_least a k n at_start s = true
  <-> exists pre post,
        s = (pre ++ post)%list
        /\ Forall (fun c => atom_matches a c = true) pre
        /\ (n <= length pre)%nat /\ k at_start post = true.
Proof.
  intros Hk. revert n at_start.
  induction s as [|c s IH]; intros n at_start.
  - destruct n as [|n]; cbn.
    + rewrite orb_false_r. split.
      * intros H. exists [], []. repeat split; [constructor|lia|exact H].
      * intros (pre & post & Hs & _ & _ & H).
        symmetry in Hs. apply app_eq_nil in Hs as [-> ->]. exact H.
    + split; [discriminate|].
      intros (pre & post & Hs & _ & Hn & _).
      symmetry in Hs. apply app_eq_nil in Hs as [-> ->]. cbn in Hn. lia.
  - destruct n as [|n]; cbn.
    + rewrite orb_true_iff, andb_true_iff, IH. split.
      * intros [H|(Hc & pre & post & -> & Hall & _ & H)].
        -- exists [], (c :: s). repeat split; [constructor|lia|exact H].
        -- exists (c :: pre), post.
           repeat split; [now constructor|cbn; lia|].
           now rewrite (Hk at_start false).
      * intros (pre & post & Hs & Hall & _ & H).
        destruct pre as [|c' pre]; cbn in Hs.
        -- left. now subst post.
        -- injection Hs as <- ->. apply Forall_cons in Hall as [Hc Hall].
           right. split; [exact Hc|]. exists pre, post.
           repeat split; [exact Hall|lia|]. now rewrite (Hk false at_start).
    + rewrite andb_true_iff, IH. split.
      * intros (Hc & pre & post & -> & Hall & Hn & H).
        exists (c :: pre), post.
        repeat split; [now constructor|cbn; lia|].
        now rewrite (Hk at_start false).
      * intros (pre & post & Hs & Hall & Hn & H).
        destruct pre as [|c' pre]; cbn in Hs, Hn; [lia|].
        injection Hs as <- ->. apply Forall_cons in Hall as [Hc Hall].
        split; [exact Hc|]. exists pre, post.
        repeat split; [exact Hall|lia|]. now rewrite (Hk false at_start).
Qed.

Lemma special_not_newline (c : ascii) :
  c ∈ list_ascii_of_string special_characters -> c <> newline.
Proof.
  intros Hc ->. revert Hc. apply (bool_decide_unpack _). vm_compute. exact I.
Qed.

(** The lookahead: a special character on the first line. *)
Lemma lookahead_iff (s : list ascii) :
  foldr item_match accept
    [AtLeast 0 AnyChar; One (CharSet special_characters)] true s = true
  <-> exists pre c rest,
        s = (pre ++ c :: rest)%list /\ (newline ∉ pre)
        /\ c ∈ list_ascii_of_string special_characters.
Proof.
  cbn [foldr item_match]. rewrite at_least_iff by reflexivity. split.
  - intros (pre & post & -> & Hall & _ & H).
    destruct post as [|c rest]; [discriminate|].
    apply andb_true_iff in H as [Hc _]. cbn in Hc.
    apply bool_decide_eq_true in Hc.
    exists pre, c, rest. split; [reflexivity|].
    split; [now apply any_chars_iff|exact Hc].
  - intros (pre & c & rest & -> & Hpre & Hc).
    exists pre, (c :: rest). split; [reflexivity|].
    split; [now apply any_chars_iff|]. split; [lia|].
    cbn. now rewrite bool_decide_eq_true_2 by exact Hc.
Qed.

(** [.{8,}$]: one line of eight characters or more, and at most a
    newline after it. *)
Lemma line_iff (s : list ascii) :
  at_least AnyChar (item_match Eol accept) 8 true s = true
  <-> exists line,
        (s = line \/ s = (line ++ [newline])%list)
        /\ (newline ∉ line) /\ (8 <= length line)%nat.
Proof.
  rewrite at_least_iff by reflexivity. split.
  - intros (pre & post & -> & Hall & Hn & H).
    exists pre. split; [|split; [now apply any_chars_iff|exact Hn]].
    cbn in H. rewrite andb_true_r in H. apply orb_true_iff in H as [H|H];
      apply bool_decide_eq_true in H; subst post.
    + left. now rewrite app_nil_r.
    + now right.
  - intros (line & Hs & Hline & Hn).
    destruct Hs as [->| ->].
    + exists line, []. rewrite app_nil_r. split; [reflexivity|].
      split; [now apply any_chars_iff|]. split; [exact Hn|reflexivity].
    + exists line, [newline]. split; [reflexivity|].
      split; [now apply any_chars_iff|]. split; [exact Hn|reflexivity].
Qed.

Lemma password_pattern_iff (password : string) :
  re_match PASSWORD_PATTERN password = true
  <-> exists line,
        (list_ascii_of_string password = line
         \/ list_ascii_of_string password = (line ++ [newline])%list)
        /\ (newline ∉ line) /\ (8 <= length line)%nat
        /\ exists c, c ∈ line
                     /\ c ∈ list_ascii_of_string special_characters.
Proof.
  unfold re_match, PASSWORD_PATTERN.
  cbn [foldr]. unfold part_match at 1, item_match at 1. cbn [andb].
  unfold part_match at 1.
  rewrite andb_true_iff, lookahead_iff.
  change (part_match (Item (AtLeast 8 AnyChar)) (part_match (Item Eol) accept)
            true (list_ascii_of_string password))
    with (at_least AnyChar (item_match Eol accept) 8 true
            (list_ascii_of_string password)).
  rewrite line_iff. split.
  - intros [(pre & c & rest & Hs & _ & Hc) (line & Hl & Hline & Hn)].
    exists line. repeat split; try assumption. exists c. split; [|exact Hc].
    assert (c ∈ list_ascii_of_string password) as Hin
      by (rewrite Hs; apply elem_of_app; right; apply list_elem_of_here).
    destruct Hl as [Hl|Hl]; rewrite Hl in Hin; [exact Hin|].
    apply elem_of_app in Hin as [Hin|Hin]; [exact Hin|].
    apply list_elem_of_singleton in Hin.
    now apply special_not_newline in Hc.
  - intros (line & Hl & Hline & Hn & c & Hin & Hc). split.
    + apply list_elem_of_split in Hin as (pre & rest & ->).
      assert (newline ∉ pre) as Hpre
        by (intros H; apply Hline, elem_of_app; now left).
      destruct Hl as [Hl|Hl]; rewrite Hl.
      * exists pre, c, rest. auto.
      * exists pre, c, (rest ++ [newline])%list.
        rewrite <- app_assoc. auto.
    + exists line. auto.
Qed.

(** Extra X17. The password policy, on every string. A password is valid
    exactly when it is one line of at least eight characters holding one
    of the special characters, followed by at most one newline: a
    special character after a newline does not count, and a single
    trailing newline is accepted. The length message is the answer
    exactly for the passwords shorter than eight characters, whatever
    else they hold. For a password without newlines, valid means: at
    least eight characters and a special character among them. *)
Theorem validate_password_policy (password : string) :
  let chars := list_ascii_of_string password in
  let special c := c ∈ list_ascii_of_string special_characters in
  (validate_password password = (true, None)
   <-> exists line,
         (chars = line \/ chars = (line ++ [newline])%list)
         /\ (newline ∉ line) /\ (8 <= length line)%nat
         /\ exists c, c ∈ line /\ special c)
  /\ (validate_password password
      = (false, Some "Password must be at least 8 characters long")
      <-> (String.length password < 8)%nat)
  /\ (newline ∉ chars ->
      (validate_password password = (true, None)
       <-> (8 <= String.length password)%nat
           /\ exists c, c ∈ chars /\ special c)).
Proof.
  cbv zeta.
  assert (validate_password password = (true, None)
          <-> exists line,
                (list_ascii_of_string password = line
                 \/ list_ascii_of_string password = (line ++ [newline])%list)
                /\ (newline ∉ line) /\ (8 <= length line)%nat
                /\ exists c, c ∈ line
                             /\ c ∈ list_ascii_of_string special_characters)
    as Hvalid.
  { rewrite <- password_pattern_iff. unfold validate_password.
    destruct (String.length password <? 8)%nat eqn:Hlen.
    - split; [discriminate|]. intros Hm. exfalso.
      apply password_pattern_iff in Hm as (line & Hl & _ & Hn & _).
      apply Nat.ltb_lt in Hlen. rewrite <- length_list_ascii_of_string in Hlen.
      destruct Hl as [Hl|Hl]; rewrite Hl in Hlen;
        [|rewrite length_app in Hlen]; lia.
    - destruct (re_match PASSWORD_PATTERN password); cbn [negb];
        split; try reflexivity; discriminate. }
  split; [exact Hvalid|]. split.
  - unfold validate_password.
    destruct (String.length password <? 8)%nat eqn:Hlen.
    + apply Nat.ltb_lt in Hlen. tauto.
    + apply Nat.ltb_ge in Hlen. split; [|lia].
      destruct (negb (re_match PASSWORD_PATTERN password)); [|discriminate].
      unfold special_characters. cbn [String.append]. discriminate.
  - intros Hnl. rewrite Hvalid. rewrite <- length_list_ascii_of_string. split.
    + intros (line & [Hl|Hl] & Hline & Hn & c & Hc & Hs).
      * rewrite Hl. eauto.
      * exfalso. apply Hnl. rewrite Hl. apply elem_of_app. right.
        apply list_elem_of_here.
    + intros (Hn & c & Hc & Hs).
      exists (list_ascii_of_string password). eauto 10.
Qed.

Lemma validate_password_policy_witness :
  validate_password "correct horse!" = (true, None).
Proof.
  apply (proj2 (proj2 (validate_password_policy "correct horse!"))).
  - apply (bool_decide_unpack _). vm_compute. exact I.
  - split; [cbn; lia|]. exists "!"%char. split; by_compute.
Defined.

(** ** The Authorization header *)

Lemma list_ascii_of_string_app (a b : string) :
  list_ascii_of_string (a ++ b)
  = (list_ascii_of_string a ++ list_ascii_of_string b)%list.
Proof.
  induction a as [|c a IH]; [reflexivity|].
  change (c :: list_ascii_of_string (a ++ b)
          = c :: (list_ascii_of_string a ++ list_ascii_of_string b)%list).
  now rewrite IH.
Qed.

Lemma append_empty_r (s : string) : s ++ "" = s.
Proof.
  induction s as [|c s IH]; [reflexivity|].
  change (String c (s ++ "") = String c s). now rewrite IH.
Qed.

Lemma list_ascii_of_string_lower (s : string) :
  list_ascii_of_string (lower s) = ascii_lower <$> list_ascii_of_string s.
Proof. induction s as [|c s IH]; cbn; [reflexivity|now rewrite IH]. Qed.

Lemma isspace_lower (c : ascii) :
  isspace c = true -> isspace (ascii_lower c) = true.
Proof.
  destruct c as [[] [] [] [] [] [] [] []]; vm_compute; congruence.
Qed.

Lemma split_words_blank (ws s : list ascii) :
  Forall (fun c => isspace c = true) ws ->
  split_words [] (ws ++ s) = split_words [] s.
Proof.
  induction 1 as [|c ws Hc _ IH]; [reflexivity|].
  cbn. now rewrite Hc.
Qed.

Lemma split_words_word (w acc s : list ascii) :
  Forall (fun c => isspace c = false) w ->
  split_words acc (w ++ s) = split_words (rev w ++ acc) s.
Proof.
  intros Hw. revert acc. induction Hw as [|c w Hc _ IH]; intros acc;
    [reflexivity|].
  cbn. rewrite Hc, IH. now rewrite <- app_assoc.
Qed.

Lemma split_words_end (w ws : list ascii) :
  w <> [] -> Forall (fun c => isspace c = true) ws ->
  split_words (rev w) ws = [w].
Proof.
  intros Hne Hws.
  assert (rev w <> []) as Hr.
  { intros H. apply Hne. apply (f_equal (@rev ascii)) in H.
    now rewrite rev_involutive in H. }
  destruct Hws as [|c ws Hc Hws]; cbn.
  - destruct (rev w) eqn:He; [contradiction|].
    now rewrite <- He, rev_involutive.
  - rewrite Hc. destruct (rev w) eqn:He; [contradiction|].
    rewrite <- He, rev_involutive. f_equal.
    rewrite <- (app_nil_r ws). now apply split_words_blank.
Qed.

Lemma split_two (ws1 w1 ws2 w2 ws3 : list ascii) :
  Forall (fun c => isspace c = true) ws1 ->
  w1 <> [] -> Forall (fun c => isspace c = false) w1 ->
  ws2 <> [] -> Forall (fun c => isspace c = true) ws2 ->
  w2 <> [] -> Forall (fun c => isspace c = false) w2 ->
  Forall (fun c => isspace c = true) ws3 ->
  split_words [] (ws1 ++ w1 ++ ws2 ++ w2 ++ ws3) = [w1; w2].
Proof.
  intros H1 Hn1 Hw1 Hn2 H2 Hn3 Hw2 H3.
  rewrite split_words_blank by exact H1.
  rewrite split_words_word by exact Hw1. rewrite app_nil_r.
  destruct H2 as [|c ws2 Hc H2]; [contradiction|].
  cbn [app split_words]. rewrite Hc.
  assert (rev w1 <> []) as Hr.
  { intros H. apply Hn1. apply (f_equal (@rev ascii)) in H.
    now rewrite rev_involutive in H. }
  destruct (rev w1) eqn:He; [contradiction|].
  rewrite <- He, rev_involutive. f_equal.
  rewrite split_words_blank by exact H2.
  rewrite split_words_word by exact Hw2. rewrite app_nil_r.
  now apply split_words_end.
Qed.

Lemma string_nonempty_chars (s : string) :
  s <> "" -> list_ascii_of_string s <> [].
Proof. destruct s; [contradiction|discriminate]. Qed.

Lemma bearer_is_word (scheme : string) : lower scheme = "bearer" -> word scheme.
Proof.
  intros Hl. split; [intros ->; discriminate|].
  apply Forall_forall. intros c Hc.
  destruct (isspace c) eqn:Hs; [|reflexivity].
  apply isspace_lower in Hs.
  assert (ascii_lower c ∈ list_ascii_of_string (lower scheme)) as Hin
    by (rewrite list_ascii_of_string_lower; now apply list_elem_of_fmap_2).
  rewrite Hl in Hin. exfalso. revert Hs.
  cbn in Hin. repeat (apply elem_of_cons in Hin as [->|Hin]; [discriminate|]).
  now apply elem_of_nil in Hin.
Qed.

Lemma split_header (ws1 scheme ws2 tok ws3 : string) :
  blank ws1 -> word scheme -> blank ws2 -> ws2 <> "" -> word tok ->
  blank ws3 ->
  split (ws1 ++ scheme ++ ws2 ++ tok ++ ws3) = [scheme; tok].
Proof.
  unfold blank, word, split. intros H1 [Hn1 Hw1] H2 Hn2 [Hn3 Hw2] H3.
  rewrite !list_ascii_of_string_app.
  rewrite split_two; try assumption; try now apply string_nonempty_chars.
  cbn. now rewrite !string_of_list_ascii_of_string.
Qed.

Section Header.
Context (settings : Settings).
Context (token_of : string -> token).

Lemma get_current_user_frame env t db o db' :
  AuthService.get_current_user settings env t db = (o, db') -> db' = db.
Proof.
  unfold AuthService.get_current_user.
  destruct (decode_token settings (utcnow env) t) as [payload|];
    [|now intros [= _ <-]].
  case_bool_decide; [now intros [= _ <-]|].
  case_bool_decide; [now intros [= _ <-]|].
  destruct (truthy (payload !! "sub")); cbn [negb]; [|now intros [= _ <-]].
  run.
  destruct (UUID_of_claim (payload !! "sub")) as [e|user_id];
    [now intros [= _ <-]|].
  destruct (UserRepository.get_by_id user_id db) as [o1 db1] eqn:Hget.
  apply get_by_id_frame in Hget as ->.
  destruct o1 as [e|[u|]]; try (now intros [= _ <-]).
  destruct (User.is_active u); now intros [= _ <-].
Qed.

Lemma split_nonempty h scheme tok : split h = [scheme; tok] -> h <> "".
Proof. intros Hs ->. discriminate. Qed.

Lemma dependency_bearer env h scheme tok db :
  split h = [scheme; tok] -> lower scheme = "bearer" ->
  Deps.get_current_user settings token_of env (Some h) db
  = bearer_answer settings token_of env tok db.
Proof.
  intros Hs Hl. unfold Deps.get_current_user. cbn [nonempty].
  rewrite (proj2 (String.eqb_neq h "") (split_nonempty _ _ _ Hs)).
  cbn [negb default from_option id]. rewrite Hs. cbn [length nth Nat.eqb].
  rewrite Hl. reflexivity.
Qed.
End Header.

Section Dependency.
Context (settings : Settings).
Context (token_of : string -> token).

Lemma dependency_cases env authorization db :
  Deps.get_current_user settings token_of env authorization db
  = match authorization with
    | None =>
        (HTTPException 401 "Missing authorization header" Deps.challenge, db)
    | Some h =>
        if String.eqb h ""
        then (HTTPException 401 "Missing authorization header"
                Deps.challenge, db)
        else
          match split h with
          | [scheme; tok] =>
              if String.eqb (lower scheme) "bearer"
              then bearer_answer settings token_of env tok db
              else (HTTPException 401 "Invalid authorization header format"
                      Deps.challenge, db)
          | _ =>
              (HTTPException 401 "Invalid authorization header format"
                 Deps.challenge, db)
          end
    end.
Proof.
  unfold Deps.get_current_user. destruct authorization as [h|];
    [|reflexivity].
  cbn [nonempty default from_option id].
  destruct (String.eqb h ""); [reflexivity|]. cbn [negb].
  destruct (split h) as [|a [|b [|c parts]]]; try reflexivity.
  cbn [length Nat.eqb negb orb nth].
  now destruct (String.eqb (lower a) "bearer").
Qed.

Lemma get_current_user_raises env t db e db' :
  NoDup (User.id <$> users db) ->
  AuthService.get_current_user settings env t db = (Raise e, db') ->
  (exists message, e = InvalidTokenError message)
  \/ (exists message, e = UserNotFoundError message)
  \/ (exists payload s message,
        decode_token settings (utcnow env) t = Some payload
        /\ payload !! "sub" = Some (JStr s)
        /\ UUID_parse s = Raise e /\ e = ValueError message).
Proof.
  intros Hnd. unfold AuthService.get_current_user.
  destruct (decode_token settings (utcnow env) t) as [payload|] eqn:Hd;
    [|intros [= <- _]; left; eauto].
  case_bool_decide; [intros [= <- _]; left; eauto|].
  case_bool_decide; [intros [= <- _]; left; eauto|].
  destruct (truthy (payload !! "sub")) eqn:Ht; cbn [negb];
    [|intros [= <- _]; left; eauto].
  run.
  destruct (payload !! "sub") as [[| |z|s]|] eqn:Hsub;
    try (apply decode_token_Some in Hd as (_ & Hok);
         unfold claims_ok in Hok;
         do 2 (apply andb_true_iff in Hok as [Hok _]);
         apply andb_true_iff in Hok as [_ Hok];
         unfold sub_ok in Hok; rewrite Hsub in Hok; discriminate).
  cbn [UUID_of_claim].
  destruct (UUID_parse s) as [e0|user_id] eqn:Hp.
  { intros [= <- _]. right. right.
    destruct (UUID_parse_raises _ _ Hp) as [message ->]. eauto 10. }
  destruct (select_cases User.id user_id (users db) Hnd)
    as [[_ Hf]|(u & _ & _ & Hf)];
    unfold UserRepository.get_by_id; run; rewrite Hf; cbn.
  - intros [= <- _]. right. left. eauto.
  - destruct (User.is_active u); cbn; [discriminate|].
    intros [= <- _]. left. eauto.
Qed.
End Dependency.

(** Extra X18. The authenticated-user dependency, for every header and
    database. It never changes the database. It yields a user exactly
    when the header splits at white space into two parts, the first
    reading "bearer" in any letter case, and [AuthService.get_current_user]
    returns that user for the second. Every [HTTPException] it raises is
    a 401 carrying [WWW-Authenticate: Bearer] (an unknown account
    included). On a [users] table with unique ids and for a token that
    decodes, the only exception it lets through is the [ValueError] of
    [uuid.UUID] refusing the token's subject. *)
Theorem current_user_dependency (settings : Settings)
    (token_of : string -> token) (env : Env) (authorization : option string)
    (db : Db) :
  let r := Deps.get_current_user settings token_of env authorization db in
  r.2 = db
  /\ (forall user,
        r.1 = Ok user
        <-> exists h scheme tok,
              authorization = Some h /\ split h = [scheme; tok]
              /\ lower scheme = "bearer"
              /\ AuthService.get_current_user settings env (token_of tok) db
                 = (Return user, db))
  /\ (forall status_code detail headers,
        r.1 = HTTPException status_code detail headers ->
        status_code = 401 /\ headers = [("WWW-Authenticate", "Bearer")])
  /\ (forall h scheme tok payload e,
        NoDup (User.id <$> users db) ->
        authorization = Some h -> split h = [scheme; tok] ->
        decode_token settings (utcnow env) (token_of tok) = Some payload ->
        r.1 = Uncaught e ->
        exists s message,
          payload !! "sub" = Some (JStr s) /\ UUID_parse s = Raise e
          /\ e = ValueError message).
Proof.
  cbv zeta. rewrite dependency_cases.
  assert (forall tok,
            (bearer_answer settings token_of env tok db).2 = db
            /\ (forall user,
                  (bearer_answer settings token_of env tok db).1 = Ok user
                  <-> AuthService.get_current_user settings env (token_of tok) db
                      = (Return user, db))
            /\ (forall status_code detail headers,
                  (bearer_answer settings token_of env tok db).1
                  = HTTPException status_code detail headers ->
                  status_code = 401
                  /\ headers = [("WWW-Authenticate", "Bearer")])
            /\ (forall payload e,
                  NoDup (User.id <$> users db) ->
                  decode_token settings (utcnow env) (token_of tok)
                  = Some payload ->
                  (bearer_answer settings token_of env tok db).1 = Uncaught e ->
                  exists s message,
                    payload !! "sub" = Some (JStr s) /\ UUID_parse s = Raise e
                    /\ e = ValueError message))
    as Hanswer.
  { intros tok. unfold bearer_answer.
    destruct (AuthService.get_current_user settings env (token_of tok) db)
      as [o db'] eqn:Hrun.
    pose proof (get_current_user_frame settings env _ _ _ _ Hrun) as ->.
    destruct o as [e|user].
    - assert (forall ex payload,
                NoDup (User.id <$> users db) -> e = ex ->
                decode_token settings (utcnow env) (token_of tok)
                = Some payload ->
                (exists message, ex = InvalidTokenError message)
                \/ (exists message, ex = UserNotFoundError message)
                \/ (exists s message,
                      payload !! "sub" = Some (JStr s)
                      /\ UUID_parse s = Raise ex /\ ex = ValueError message))
        as Hraises.
      { intros ex payload Hnd <- Hd.
        destruct (get_current_user_raises settings env (token_of tok) db e db
                    Hnd Hrun)
          as [H|[H|(payload' & s & message & Hd' & Hs & Hp & He)]];
          [auto|auto|].
        right. right. rewrite Hd in Hd'. injection Hd' as <-. eauto. }
      destruct e; cbn [fst snd]; (split; [reflexivity|]);
        (split; [intros user; split; discriminate|]);
        (split; [intros ? ? ? [= <- _ <-]; auto|]);
        intros payload ex Hnd Hd; try discriminate; intros [= <-];
        destruct (Hraises _ _ Hnd eq_refl Hd) as [[? [=]]|[[? [=]]|He]];
        exact He.
    - cbn [fst snd]. split; [reflexivity|]. split.
      + intros u. split; [now intros [= ->]|now intros [= ->]].
      + split; [discriminate|]. intros payload e _ _. discriminate. }
  assert (forall detail,
            (@HTTPException User.t 401 detail Deps.challenge, db).2 = db
            /\ (forall user,
                  (@HTTPException User.t 401 detail Deps.challenge, db).1
                  = Ok user -> False)
            /\ (forall status_code detail' headers,
                  (@HTTPException User.t 401 detail Deps.challenge, db).1
                  = HTTPException status_code detail' headers ->
                  status_code = 401
                  /\ headers = [("WWW-Authenticate", "Bearer")])
            /\ (forall e,
                  (@HTTPException User.t 401 detail Deps.challenge, db).1
                  = Uncaught e -> False)) as Hrefused.
  { intros detail. cbn [fst snd]. split; [reflexivity|].
    split; [discriminate|]. split; [|discriminate].
    now intros ? ? ? [= <- _ <-]. }
  assert (forall (r : http User.t * Db) (P : User.t -> Prop)
                 (Q : string -> claims -> exn -> Prop),
            (r.2 = db
             /\ (forall user, r.1 = Ok user -> False)
             /\ (forall status_code detail' headers,
                   r.1 = HTTPException status_code detail' headers ->
                   status_code = 401
                   /\ headers = [("WWW-Authenticate", "Bearer")])
             /\ (forall e, r.1 = Uncaught e -> False)) ->
            (forall user, ~ P user) ->
            r.2 = db
            /\ (forall user, r.1 = Ok user <-> P user)
            /\ (forall status_code detail headers,
                  r.1 = HTTPException status_code detail headers ->
                  status_code = 401
                  /\ headers = [("WWW-Authenticate", "Bearer")])
            /\ (forall h scheme tok payload e,
                  NoDup (User.id <$> users db) ->
                  authorization = Some h -> split h = [scheme; tok] ->
                  decode_token settings (utcnow env) (token_of tok)
                  = Some payload ->
                  r.1 = Uncaught e -> Q tok payload e))
    as Hlift.
  { intros r P Q (H1 & H2 & H3 & H4) HP. split; [exact H1|].
    split; [|split; [exact H3|]].
    - intros user. split; [intros H; destruct (H2 _ H)|].
      intros H. destruct (HP _ H).
    - intros h scheme tok payload e _ _ _ _ H. destruct (H4 _ H). }
  destruct authorization as [h|].
  - destruct (String.eqb h "") eqn:Hh.
    + apply String.eqb_eq in Hh as ->.
      apply (Hlift _ _ (fun _ payload e => exists s message,
                          payload !! "sub" = Some (JStr s)
                          /\ UUID_parse s = Raise e
                          /\ e = ValueError message) (Hrefused _)).
      intros user (h & scheme & tok & [= <-] & Hs & _). discriminate.
    + destruct (split h) as [|scheme [|tok [|c parts]]] eqn:Hs;
        try (apply (Hlift _ _ (fun _ payload e => exists s message,
                                 payload !! "sub" = Some (JStr s)
                                 /\ UUID_parse s = Raise e
                                 /\ e = ValueError message) (Hrefused _));
             intros user (h' & scheme' & tok' & [= <-] & Hs' & _);
             rewrite Hs in Hs'; discriminate).
      destruct (String.eqb (lower scheme) "bearer") eqn:Hl.
      * apply String.eqb_eq in Hl.
        destruct (Hanswer tok) as (H1 & H2 & H3 & H4).
        split; [exact H1|]. split; [|split; [exact H3|]].
        -- intros user. rewrite H2. split.
           ++ intros Hrun. exists h, scheme, tok. auto.
           ++ intros (h' & scheme' & tok' & [= <-] & Hs' & _ & Hrun).
              rewrite Hs in Hs'. now injection Hs' as <- <-.
        -- intros h' scheme' tok' payload e Hnd [= <-] Hs' Hd Hr.
           rewrite Hs in Hs'. injection Hs' as <- <-.
           exact (H4 payload e Hnd Hd Hr).
      * apply String.eqb_neq in Hl.
        apply (Hlift _ _ (fun _ payload e => exists s message,
                            payload !! "sub" = Some (JStr s)
                            /\ UUID_parse s = Raise e
                            /\ e = ValueError message) (Hrefused _)).
        intros user (h' & scheme' & tok' & [= <-] & Hs' & Hl' & _).
        rewrite Hs in Hs'. injection Hs' as <- <-. contradiction.
  - apply (Hlift _ _ (fun _ payload e => exists s message,
                        payload !! "sub" = Some (JStr s)
                        /\ UUID_parse s = Raise e
                        /\ e = ValueError message) (Hrefused _)).
    intros user (h & scheme & tok & [=] & _).
Qed.

(** Extra X19. The header format is lenient about case and white space:
    with any white space before, between (at least one character) and
    after, a scheme that reads "bearer" in any letter case and a token
    without white space, the dependency answers exactly what the
    service answers for that token (a user, or a 401 for
    [InvalidTokenError] and [UserNotFoundError]), which is also its
    answer for the header ["Bearer " ++ token]. *)
Theorem bearer_header_format (settings : Settings)
    (token_of : string -> token) (env : Env)
    (ws1 scheme ws2 tok ws3 : string) (db : Db) :
  blank ws1 -> lower scheme = "bearer" -> blank ws2 -> ws2 <> "" ->
  word tok -> blank ws3 ->
  Deps.get_current_user settings token_of env
    (Some (ws1 ++ scheme ++ ws2 ++ tok ++ ws3)) db
  = bearer_answer settings token_of env tok db
  /\ Deps.get_current_user settings token_of env
       (Some (ws1 ++ scheme ++ ws2 ++ tok ++ ws3)) db
     = Deps.get_current_user settings token_of env (Some ("Bearer " ++ tok)) db.
Proof.
  intros H1 Hl H2 Hn2 Hw H3.
  assert (forall a s b c,
            blank a -> lower s = "bearer" -> blank b -> b <> "" -> blank c ->
            Deps.get_current_user settings token_of env
              (Some (a ++ s ++ b ++ tok ++ c)) db
            = bearer_answer settings token_of env tok db) as Hfmt.
  { intros a s b c Ha Hs Hb Hnb Hc.
    apply (dependency_bearer settings token_of env _ s tok db); [|exact Hs].
    apply split_header; try assumption. now apply bearer_is_word. }
  split; [now apply Hfmt|].
  rewrite Hfmt by assumption. symmetry.
  replace ("Bearer " ++ tok) with ("" ++ "Bearer" ++ " " ++ tok ++ "")
    by (change ("" ++ "Bearer" ++ " " ++ tok ++ "")
          with ("Bearer " ++ (tok ++ "")); now rewrite append_empty_r).
  apply Hfmt; try reflexivity; try discriminate; try apply Forall_nil_2.
  apply Forall_cons. split; [reflexivity|apply Forall_nil_2].
Qed.

Lemma bearer_header_format_witness :
  Deps.get_current_user sample_settings Opaque (sample_env 1200 1%N)
    (Some ("  " ++ "BEARER" ++ "   " ++ "abc.def.ghi" ++ " ")) empty_db
  = (HTTPException 401 "Invalid token" [("WWW-Authenticate", "Bearer")],
     empty_db).
Proof.
  refine (proj1 (bearer_header_format sample_settings Opaque
                   (sample_env 1200 1%N) "  " "BEARER" "   " "abc.def.ghi" " "
                   empty_db _ _ _ _ _ _)).
  - by_compute.
  - reflexivity.
  - by_compute.
  - discriminate.
  - by_compute.
  - by_compute.
Defined.
